(** * Codex usage reports: pricing resolution and usage aggregation

    A shallow embedding of [apps/codex/src/pricing.ts] and of the three
    report builders ([daily-report.ts], [monthly-report.ts],
    [session-report.ts]), followed by the properties the specification
    states about them.

    Conventions of the embedding.
    - A JS string is a [string] whose characters are code units below 128;
      [trim], [toLowerCase], [includes], [lastIndexOf] and [slice] agree with
      the JS methods on such strings.
    - Token counts are integers ([Z]).  Prices and costs are JS doubles: they
      are kept abstract behind the class [Number], about whose operations no
      algebraic law is assumed, so every statement holds for IEEE arithmetic
      as well as for exact rationals.
    - A JS [Map] is an association list in insertion order ([JsMap]).
    - The plain object that a row uses as a record of its models is the list
      of its own enumerable properties in the order in which [Object.keys],
      [Object.entries] and [JSON.stringify] list them: array indices first,
      in ascending numeric order, then the other names in creation order.
      An assignment to the name [__proto__] runs the setter inherited from
      [Object.prototype] and creates no own property ([Object_set]).
    - [await] of a pricing lookup is a call that returns a result: the
      builders run one lookup after the other.
    - [throw new Error(msg)] is the result [Err msg]; [logger.warn] appends to
      a list of warnings returned next to the result.
    - Objects mutated in place while stored in a [Map] are written back under
      their key at the end of the loop body. *)

From Stdlib Require Import String Ascii List ZArith Lia Bool Arith.
From Stdlib Require Import Permutation Sorted DecimalString QArith.
Import ListNotations.
Open Scope string_scope.
Open Scope Z_scope.

(** ** JS strings *)

Module JsString.

(** White space and line terminators below U+0080, as stripped by
    [String.prototype.trim]: TAB, LF, VT, FF, CR and SPACE. *)
Definition isWhiteSpace (c : ascii) : bool :=
  let n := nat_of_ascii c in
  Nat.eqb n 32 || (Nat.leb 9 n && Nat.leb n 13).

Fixpoint trimStart (s : string) : string :=
  match s with
  | EmptyString => EmptyString
  | String c r => if isWhiteSpace c then trimStart r else s
  end.

Fixpoint trimEnd (s : string) : string :=
  match s with
  | EmptyString => EmptyString
  | String c r =>
      match trimEnd r with
      | EmptyString => if isWhiteSpace c then EmptyString else String c EmptyString
      | r' => String c r'
      end
  end.

Definition trim (s : string) : string := trimEnd (trimStart s).

Definition lowerChar (c : ascii) : ascii :=
  let n := nat_of_ascii c in
  if Nat.leb 65 n && Nat.leb n 90 then ascii_of_nat (n + 32) else c.

Fixpoint toLowerCase (s : string) : string :=
  match s with
  | EmptyString => EmptyString
  | String c r => String (lowerChar c) (toLowerCase r)
  end.

(** [s.includes(sub)] *)
Fixpoint includes (s sub : string) : bool :=
  prefix sub s ||
  match s with
  | EmptyString => false
  | String _ r => includes r sub
  end.

(** [ls.join(sep)] *)
Definition join (sep : string) (ls : list string) : string := String.concat sep ls.

(** [s.lastIndexOf(c)] for a one-character search string; [-1] when absent. *)
Fixpoint lastIndexOf (s : string) (c : ascii) : Z :=
  match s with
  | EmptyString => -1
  | String a r =>
      let k := lastIndexOf r c in
      if 0 <=? k then k + 1 else if Ascii.eqb a c then 0 else -1
  end.

Definition len (s : string) : Z := Z.of_nat (String.length s).

Definition clampIndex (s : string) (i : Z) : Z :=
  if i <? 0 then Z.max (len s + i) 0 else Z.min i (len s).

(** [s.slice(start, end)] *)
Definition slice (s : string) (start stop : Z) : string :=
  let from := clampIndex s start in
  let to := clampIndex s stop in
  substring (Z.to_nat from) (Z.to_nat (Z.max (to - from) 0)) s.

(** [s.slice(start)] *)
Definition sliceFrom (s : string) (start : Z) : string := slice s start (len s).

(** Template-literal rendering of a non-negative integer. *)
Definition ofNat (n : nat) : string := NilZero.string_of_uint (Nat.to_uint n).

(** [a > b] on strings: comparison by code units. *)
Definition gtb (a b : string) : bool := String.ltb b a.

End JsString.

(** ** JS maps as insertion-ordered association lists *)

Definition JsMap (V : Type) : Type := list (string * V).

Fixpoint Map_get {V : Type} (m : JsMap V) (k : string) : option V :=
  match m with
  | [] => None
  | (k', v) :: r => if String.eqb k' k then Some v else Map_get r k
  end.

Definition Map_has {V : Type} (m : JsMap V) (k : string) : bool :=
  match Map_get m k with Some _ => true | None => false end.

(** [m.set(k, v)]: an existing key keeps its position, a new key goes last. *)
Fixpoint Map_set {V : Type} (m : JsMap V) (k : string) (v : V) : JsMap V :=
  match m with
  | [] => [(k, v)]
  | (k', v') :: r =>
      if String.eqb k' k then (k, v) :: r else (k', v') :: Map_set r k v
  end.

Definition Map_keys {V : Type} (m : JsMap V) : list string := map fst m.
Definition Map_values {V : Type} (m : JsMap V) : list V := map snd m.

(** ** Plain JS objects filled by [obj[key] = value]

    The own enumerable properties of an object created by [{}], in the order
    of [OrdinaryOwnPropertyKeys]: array indices (the canonical decimal
    numerals of the integers from 0 to 2^32 - 2) ascending, then every other
    name in the order of creation. *)

Definition digitValue (c : ascii) : option N :=
  let n := N_of_ascii c in
  if (48 <=? n)%N && (n <=? 57)%N then Some (n - 48)%N else None.

Fixpoint parseDigits (s : string) (acc : N) : option N :=
  match s with
  | EmptyString => Some acc
  | String c r =>
      match digitValue c with
      | Some d => parseDigits r (10 * acc + d)%N
      | None => None
      end
  end.

(** The number a property name stands for when the name is an array index:
    digits only, no leading zero except for ["0"] itself, at most 2^32 - 2. *)
Definition arrayIndex (s : string) : option N :=
  match s with
  | EmptyString => None
  | String c r =>
      if Ascii.eqb c "0" && negb (String.eqb r "") then None
      else
        match parseDigits s 0 with
        | Some n => if (n <=? 4294967294)%N then Some n else None
        | None => None
        end
  end.

(** A new array index [i] goes before the first property that is a larger
    index or is not an index. *)
Fixpoint Object_insertIndex {V : Type} (o : JsMap V) (i : N) (k : string) (v : V)
  : JsMap V :=
  match o with
  | [] => [(k, v)]
  | (k', v') :: r =>
      match arrayIndex k' with
      | Some j =>
          if (i <? j)%N then (k, v) :: (k', v') :: r
          else (k', v') :: Object_insertIndex r i k v
      | None => (k, v) :: (k', v') :: r
      end
  end.

(** [o[k] = v] on an object created by [{}], for [v] an object literal.
    The name [__proto__] is an accessor of [Object.prototype]: assigning [v]
    to it makes [v] the prototype of [o] and adds no own property; as the
    properties of [v] are writable data properties and its prototype is
    [Object.prototype], later assignments behave as before.  Any other name
    becomes, or stays, an own property of [o]: an existing one keeps its
    place. *)
Definition Object_set {V : Type} (o : JsMap V) (k : string) (v : V) : JsMap V :=
  if String.eqb k "__proto__" then o
  else if Map_has o k then Map_set o k v
  else
    match arrayIndex k with
    | Some i => Object_insertIndex o i k v
    | None => (o ++ [(k, v)])%list
    end.

(** ** Results and numbers *)

Inductive result (A : Type) : Type :=
| Ok (v : A)
| Err (msg : string).
Arguments Ok {A} v.
Arguments Err {A} msg.

(** The arithmetic of JS numbers used on prices and costs. *)
Class Number (F : Type) : Type := {
  num_zero : F;
  num_add : F -> F -> F;
  num_mul : F -> F -> F;
  num_div : F -> F -> F;
  num_ofZ : Z -> F
}.

#[export] Instance Number_Q : Number Q := {
  num_zero := 0%Q;
  num_add := Qplus;
  num_mul := Qmult;
  num_div := Qdiv;
  num_ofZ := inject_Z
}.

(** ** _types.ts *)

Inductive PricingResolution : Type := direct | alias | fuzzy | fallback.

Record TokenUsageDelta : Type := {
  inputTokens : Z;
  cachedInputTokens : Z;
  outputTokens : Z;
  reasoningOutputTokens : Z;
  totalTokens : Z
}.

Record TokenUsageEvent : Type := {
  ev_usage : TokenUsageDelta;
  timestamp : string;
  sessionId : option string;
  model : option string;
  isFallbackModel : option bool
}.

Record ModelUsage : Type := {
  mu_usage : TokenUsageDelta;
  isFallback : option bool;
  mu_pricingResolution : option PricingResolution;
  mu_pricingModel : option string
}.

Section PricingTypes.
Context {F : Type}.

Record ModelPricing : Type := {
  inputCostPerMToken : F;
  cachedInputCostPerMToken : F;
  outputCostPerMToken : F;
  pricingResolution : PricingResolution;
  pricingModel : string
}.

(** The fields of LiteLLM's record that pricing.ts reads. *)
Record LiteLLMModelPricing : Type := {
  input_cost_per_token : option F;
  output_cost_per_token : option F;
  cache_read_input_token_cost : option F
}.

Record ResolvedPricing : Type := {
  key : string;
  pricing : LiteLLMModelPricing;
  resolution : PricingResolution
}.

(** [PricingSource]: the single-capability interface of the builders. *)
Definition PricingSource : Type := string -> result ModelPricing.

End PricingTypes.
Arguments ModelPricing F : clear implicits.
Arguments LiteLLMModelPricing F : clear implicits.
Arguments ResolvedPricing F : clear implicits.
Arguments PricingSource F : clear implicits.

(** ** pricing.ts *)

Module Pricing.
Section WithNumber.
Context {F : Type} `{Number F}.

Definition CODEX_PROVIDER_PREFIXES : list string :=
  ["openai/"; "azure/"; "openrouter/openai/"].

Definition CODEX_MODEL_ALIASES_MAP : JsMap string := [("gpt-5-codex", "gpt-5")].

(** Modelled from the spec: the constant [MILLION] of [_consts.ts], which
    is not part of the sources at hand; the spec converts per-token costs
    "by multiplying by 1,000,000". *)
Definition MILLION : F := num_ofZ 1000000.

Definition toPerMillion (value : option F) (fallback_ : option F) : result F :=
  let perToken := match value with Some v => Some v | None => fallback_ end in
  match perToken with
  | None => Err "Missing required pricing value"
  | Some p => Ok (num_mul p MILLION)
  end.

Record CodexPricingSourceOptions : Type := {
  opt_allowFuzzyPricing : option bool;
  opt_unknownModelFallback : option string
}.

(** The state of a [CodexPricingSource]; [fetcher] is what
    [fetchModelPricing] yields for this source. *)
Record CodexPricingSource : Type := {
  fetcher : result (JsMap (LiteLLMModelPricing F));
  allowFuzzyPricing : bool;
  unknownModelFallback : option string
}.

Definition new_CodexPricingSource
    (fetched : result (JsMap (LiteLLMModelPricing F)))
    (options : CodexPricingSourceOptions) : CodexPricingSource :=
  {| fetcher := fetched;
     allowFuzzyPricing :=
       match opt_allowFuzzyPricing options with Some b => b | None => false end;
     unknownModelFallback := opt_unknownModelFallback options |}.

Definition getPricingMap (self : CodexPricingSource)
  : result (JsMap (LiteLLMModelPricing F)) := fetcher self.

Definition createResolvedPricing (k : string) (p : LiteLLMModelPricing F)
    (r : PricingResolution) : ResolvedPricing F :=
  {| key := k; pricing := p; resolution := r |}.

Definition directCandidates (model_ : string) : list string :=
  model_ :: map (fun prefix_ => prefix_ ++ model_) CODEX_PROVIDER_PREFIXES.

Fixpoint findDirectLoop (pricingMap : JsMap (LiteLLMModelPricing F))
    (candidates : list string) : option (ResolvedPricing F) :=
  match candidates with
  | [] => None
  | candidate :: rest =>
      match Map_get pricingMap candidate with
      | Some p => Some (createResolvedPricing candidate p direct)
      | None => findDirectLoop pricingMap rest
      end
  end.

Definition findDirectPricing (pricingMap : JsMap (LiteLLMModelPricing F))
    (model_ : string) : option (ResolvedPricing F) :=
  findDirectLoop pricingMap (directCandidates model_).

Definition findAliasPricing (pricingMap : JsMap (LiteLLMModelPricing F))
    (model_ : string) : option (ResolvedPricing F) :=
  match Map_get CODEX_MODEL_ALIASES_MAP model_ with
  | None => None
  | Some alias_ =>
      match findDirectPricing pricingMap alias_ with
      | None => None
      | Some aliasPricing =>
          Some (createResolvedPricing (key aliasPricing) (pricing aliasPricing) alias)
      end
  end.

Definition fuzzyMatches (pricingMap : JsMap (LiteLLMModelPricing F))
    (model_ : string) : JsMap (LiteLLMModelPricing F) :=
  let lower := JsString.toLowerCase model_ in
  filter (fun entry =>
            let comparison := JsString.toLowerCase (fst entry) in
            JsString.includes comparison lower || JsString.includes lower comparison)
         pricingMap.

Definition ambiguousMessage (model_ : string)
    (matches : JsMap (LiteLLMModelPricing F)) : string :=
  "Ambiguous fuzzy pricing resolution for model " ++ model_ ++ "; "
    ++ JsString.ofNat (List.length matches) ++ " candidates found: "
    ++ JsString.join ", " (map fst matches).

Definition findFuzzyPricing (pricingMap : JsMap (LiteLLMModelPricing F))
    (model_ : string) : result (option (ResolvedPricing F)) :=
  let matches := fuzzyMatches pricingMap model_ in
  if Nat.eqb (List.length matches) 0 then Ok None
  else if Nat.ltb 1 (List.length matches) then Err (ambiguousMessage model_ matches)
  else
    match nth_error matches 0 with
    | None => Ok None
    | Some match_ =>
        Ok (Some (createResolvedPricing (fst match_) (snd match_) fuzzy))
    end.

Definition incompleteMessage (model_ : string) : string :=
  "Pricing for model " ++ model_
    ++ " is incomplete: input_cost_per_token and output_cost_per_token are required".

Definition normalizeModelPricing (model_ : string) (resolved : ResolvedPricing F)
  : result (ModelPricing F) :=
  let p := pricing resolved in
  match input_cost_per_token p, output_cost_per_token p with
  | Some inputCostPerToken, Some outputCostPerToken =>
      match toPerMillion (Some inputCostPerToken) None with
      | Err e => Err e
      | Ok inputM =>
          match toPerMillion
                  (Some (match cache_read_input_token_cost p with
                         | Some c => c
                         | None => inputCostPerToken
                         end)) None with
          | Err e => Err e
          | Ok cachedM =>
              match toPerMillion (Some outputCostPerToken) None with
              | Err e => Err e
              | Ok outputM =>
                  Ok {| inputCostPerMToken := inputM;
                        cachedInputCostPerMToken := cachedM;
                        outputCostPerMToken := outputM;
                        pricingResolution := resolution resolved;
                        pricingModel := key resolved |}
              end
          end
      end
  | _, _ => Err (incompleteMessage model_)
  end.

Definition fallbackFailedMessage (fallbackModel model_ : string) : string :=
  "Configured fallback model " ++ fallbackModel
    ++ " could not be resolved for " ++ model_.

Definition fallbackWarning (model_ fallbackModel : string) : string :=
  "Using fallback model pricing: " ++ model_ ++ " -> " ++ fallbackModel.

Definition notFoundDisabledMessage (model_ : string) : string :=
  "Pricing not found for model " ++ model_
    ++ ". Fuzzy matching is disabled; pass --allow-fuzzy-pricing to enable it.".

Definition notFoundMessage (model_ : string) : string :=
  "Pricing not found for model " ++ model_.

Definition isNull {A : Type} (o : option A) : bool :=
  match o with None => true | Some _ => false end.

(** The configured-fallback block of [getPricing] (lines 160-178): the
    warnings logged and the new value of [resolvedPricing]. *)
Definition fallbackStep (self : CodexPricingSource)
    (pricingMap : JsMap (LiteLLMModelPricing F)) (model_ : string)
    (resolvedPricing : option (ResolvedPricing F))
  : list string * result (option (ResolvedPricing F)) :=
  match resolvedPricing, unknownModelFallback self with
  | None, Some rawFallback =>
      let fallbackModel := JsString.trim rawFallback in
      if String.eqb fallbackModel "" then ([], Ok resolvedPricing)
      else
        let fallbackPricing :=
          match findDirectPricing pricingMap fallbackModel with
          | Some r => Some r
          | None => findAliasPricing pricingMap fallbackModel
          end in
        match fallbackPricing with
        | None => ([], Err (fallbackFailedMessage fallbackModel model_))
        | Some fp =>
            ([fallbackWarning model_ fallbackModel],
             Ok (Some (createResolvedPricing (key fp) (pricing fp) fallback)))
        end
  | _, _ => ([], Ok resolvedPricing)
  end.

(** [getPricing]: the warnings logged and the value returned or thrown. *)
Definition getPricing (self : CodexPricingSource) (model_ : string)
  : list string * result (ModelPricing F) :=
  match getPricingMap self with
  | Err e => ([], Err e)
  | Ok pricingMap =>
      let resolvedPricing := findDirectPricing pricingMap model_ in
      let resolvedPricing :=
        if isNull resolvedPricing then findAliasPricing pricingMap model_
        else resolvedPricing in
      match (if isNull resolvedPricing && allowFuzzyPricing self
             then findFuzzyPricing pricingMap model_
             else Ok resolvedPricing) with
      | Err e => ([], Err e)
      | Ok resolvedPricing =>
          match fallbackStep self pricingMap model_ resolvedPricing with
          | (w, Err e) => (w, Err e)
          | (w, Ok resolvedPricing) =>
              match resolvedPricing with
              | None =>
                  if negb (allowFuzzyPricing self)
                  then (w, Err (notFoundDisabledMessage model_))
                  else (w, Err (notFoundMessage model_))
              | Some r => (w, normalizeModelPricing model_ r)
              end
          end
      end
  end.

(** A [CodexPricingSource] seen through the [PricingSource] interface. *)
Definition asPricingSource (self : CodexPricingSource) : PricingSource F :=
  fun model_ => snd (getPricing self model_).

(** *** The tier list in the words of the specification *)

Inductive TierOutcome : Type :=
| Found (r : ResolvedPricing F)
| NotFound
| Fatal (msg : string).

Definition ofOption (o : option (ResolvedPricing F)) : TierOutcome :=
  match o with Some r => Found r | None => NotFound end.

Definition retag (t : PricingResolution) (o : option (ResolvedPricing F))
  : option (ResolvedPricing F) :=
  match o with
  | Some r => Some (createResolvedPricing (key r) (pricing r) t)
  | None => None
  end.

(** Tier 1: the name verbatim, then behind each provider prefix. *)
Definition spec_direct (pm : JsMap (LiteLLMModelPricing F)) (name : string)
  : option (ResolvedPricing F) :=
  match find (fun c => Map_has pm c)
             [name; "openai/" ++ name; "azure/" ++ name; "openrouter/openai/" ++ name] with
  | None => None
  | Some c =>
      match Map_get pm c with
      | Some p => Some (createResolvedPricing c p direct)
      | None => None
      end
  end.

(** Tier 2: tier 1 on the canonical name of the alias table. *)
Definition spec_alias (pm : JsMap (LiteLLMModelPricing F)) (name : string)
  : option (ResolvedPricing F) :=
  match Map_get CODEX_MODEL_ALIASES_MAP name with
  | Some canonical => retag alias (spec_direct pm canonical)
  | None => None
  end.

(** Tier 3: substring match in both directions, ignoring case. *)
Definition spec_fuzzy (pm : JsMap (LiteLLMModelPricing F)) (name : string)
  : TierOutcome :=
  match fuzzyMatches pm name with
  | [] => NotFound
  | [m] => Found (createResolvedPricing (fst m) (snd m) fuzzy)
  | ms => Fatal (ambiguousMessage name ms)
  end.

(** Tier 4: tiers 1-2 on the fallback name. *)
Definition spec_fallback (pm : JsMap (LiteLLMModelPricing F))
    (name fallbackName : string) : list string * TierOutcome :=
  match (match spec_direct pm fallbackName with
         | Some r => Some r
         | None => spec_alias pm fallbackName
         end) with
  | Some r =>
      ([fallbackWarning name fallbackName],
       Found (createResolvedPricing (key r) (pricing r) fallback))
  | None => ([], Fatal (fallbackFailedMessage fallbackName name))
  end.

(** The tiers that apply to a source, in the order they are attempted. *)
Definition spec_tiers (self : CodexPricingSource)
    (pm : JsMap (LiteLLMModelPricing F)) (name : string)
  : list (list string * TierOutcome) :=
  ([([], ofOption (spec_direct pm name)); ([], ofOption (spec_alias pm name))]
     ++ (if allowFuzzyPricing self then [([], spec_fuzzy pm name)] else [])
     ++ (match unknownModelFallback self with
         | Some raw =>
             if String.eqb (JsString.trim raw) "" then []
             else [spec_fallback pm name (JsString.trim raw)]
         | None => []
         end))%list.

(** The first tier that does not answer [NotFound] decides. *)
Fixpoint firstSuccess (tiers : list (list string * TierOutcome))
  : list string * TierOutcome :=
  match tiers with
  | [] => ([], NotFound)
  | (w, NotFound) :: rest => firstSuccess rest
  | t :: _ => t
  end.

Definition spec_getPricing (self : CodexPricingSource)
    (pm : JsMap (LiteLLMModelPricing F)) (name : string)
  : list string * result (ModelPricing F) :=
  match firstSuccess (spec_tiers self pm name) with
  | (w, Found r) => (w, normalizeModelPricing name r)
  | (w, Fatal msg) => (w, Err msg)
  | (w, NotFound) =>
      (w, Err (if allowFuzzyPricing self then notFoundMessage name
               else notFoundDisabledMessage name))
  end.

End WithNumber.
End Pricing.

(** ** What the host supplies *)

(** The helpers of [date-utils.ts] that go through [Intl] (time-zone
    conversion and display formatting) and [String.prototype.localeCompare]
    are given by the host; they are parameters of the builders. *)
Class Host : Type := {
  toDateKey : string -> option string -> string;
  toMonthKey : string -> option string -> string;
  formatDisplayDate : string -> option string -> option string -> string;
  formatDisplayMonth : string -> option string -> option string -> string;
  localeCompare : string -> string -> Z
}.

(** [Array.prototype.sort(cmp)]: a stable sort; for a consistent comparator
    its result is the one of stable insertion. *)
Fixpoint sortInsert {A : Type} (cmp : A -> A -> Z) (x : A) (l : list A) : list A :=
  match l with
  | [] => [x]
  | y :: r => if cmp x y <=? 0 then x :: y :: r else y :: sortInsert cmp x r
  end.

Definition Array_sort {A : Type} (cmp : A -> A -> Z) (l : list A) : list A :=
  fold_right (sortInsert cmp) [] l.

(** [s.add(x)] on a [Set] kept in insertion order. *)
Definition Set_add (s : list string) (x : string) : list string :=
  if existsb (String.eqb x) s then s else (s ++ [x])%list.

(** ** token-utils.ts and date-utils.ts *)

(** Modelled from the spec: [createEmptyUsage] of [token-utils.ts], which is
    not part of the sources at hand: the five running totals start at 0. *)
Definition createEmptyUsage : TokenUsageDelta :=
  {| inputTokens := 0; cachedInputTokens := 0; outputTokens := 0;
     reasoningOutputTokens := 0; totalTokens := 0 |}.

(** Modelled from the spec: [addUsage] of [token-utils.ts], which is not
    part of the sources at hand: "simple integer summation across all five
    delta fields". *)
Definition addUsage (target delta : TokenUsageDelta) : TokenUsageDelta :=
  {| inputTokens := inputTokens target + inputTokens delta;
     cachedInputTokens := cachedInputTokens target + cachedInputTokens delta;
     outputTokens := outputTokens target + outputTokens delta;
     reasoningOutputTokens := reasoningOutputTokens target + reasoningOutputTokens delta;
     totalTokens := totalTokens target + totalTokens delta |}.

(** Modelled from the spec: [isWithinRange] of [date-utils.ts], which is not
    part of the sources at hand: an inclusive [since, until] filter on day
    keys, an absent bound leaving its side open. *)
Definition isWithinRange (dateKey : string) (since_ until_ : option string) : bool :=
  match since_ with Some s => String.leb s dateKey | None => true end
  && match until_ with Some u => String.leb dateKey u | None => true end.

(** Modelled from the spec: [calculateCostUSD] of [token-utils.ts], which is
    not part of the sources at hand:
    cost = (inputTokens - cachedInputTokens) / 1e6 * inputCostPerMToken
         + cachedInputTokens / 1e6 * cachedInputCostPerMToken
         + outputTokens / 1e6 * outputCostPerMToken. *)
Definition calculateCostUSD {F : Type} `{Number F}
    (usage : TokenUsageDelta) (pricing_ : ModelPricing F) : F :=
  num_add
    (num_add
       (num_mul (num_div (num_ofZ (inputTokens usage - cachedInputTokens usage))
                         (num_ofZ 1000000))
                (inputCostPerMToken pricing_))
       (num_mul (num_div (num_ofZ (cachedInputTokens usage)) (num_ofZ 1000000))
                (cachedInputCostPerMToken pricing_)))
    (num_mul (num_div (num_ofZ (outputTokens usage)) (num_ofZ 1000000))
             (outputCostPerMToken pricing_)).

(** ** The report builders *)

Module Reports.
Section WithHost.
Context {F : Type} `{Number F} `{Host}.

(** [DailyReportOptions], [MonthlyReportOptions] and [SessionReportOptions]
    are the same type. *)
Record ReportOptions : Type := {
  timezone : option string;
  locale : option string;
  since : option string;
  until : option string;
  pricingSource : PricingSource F
}.

Record DailyUsageSummary : Type := {
  date : string;
  ds_firstTimestamp : string;
  ds_usage : TokenUsageDelta;
  ds_costUSD : F;
  ds_models : JsMap ModelUsage
}.

Record MonthlyUsageSummary : Type := {
  month : string;
  ms_firstTimestamp : string;
  ms_usage : TokenUsageDelta;
  ms_costUSD : F;
  ms_models : JsMap ModelUsage
}.

Record SessionUsageSummary : Type := {
  ss_sessionId : string;
  ss_firstTimestamp : string;
  lastTimestamp : string;
  ss_usage : TokenUsageDelta;
  ss_costUSD : F;
  ss_models : JsMap ModelUsage
}.

(** The [models] field of a row is a [Record<string, ModelUsage>]: a plain
    object, kept as the list of its own properties (see [Object_set]). *)
Record DailyReportRow : Type := {
  dr_date : string;
  dr_inputTokens : Z;
  dr_cachedInputTokens : Z;
  dr_outputTokens : Z;
  dr_reasoningOutputTokens : Z;
  dr_totalTokens : Z;
  dr_costUSD : F;
  dr_models : JsMap ModelUsage
}.

Record MonthlyReportRow : Type := {
  mr_month : string;
  mr_inputTokens : Z;
  mr_cachedInputTokens : Z;
  mr_outputTokens : Z;
  mr_reasoningOutputTokens : Z;
  mr_totalTokens : Z;
  mr_costUSD : F;
  mr_models : JsMap ModelUsage
}.

Record SessionReportRow : Type := {
  sr_sessionId : string;
  lastActivity : string;
  sessionFile : string;
  directory : string;
  sr_inputTokens : Z;
  sr_cachedInputTokens : Z;
  sr_outputTokens : Z;
  sr_reasoningOutputTokens : Z;
  sr_totalTokens : Z;
  sr_costUSD : F;
  sr_models : JsMap ModelUsage
}.

(** The block shared verbatim by the three loops (daily 63-73, monthly
    64-74, session 80-90): fetch or create the model's usage, add the event
    to it, make the fallback marker stick. *)
Definition addModelUsage (models : JsMap ModelUsage) (modelName : string)
    (event : TokenUsageEvent) : JsMap ModelUsage :=
  let modelUsage :=
    match Map_get models modelName with
    | Some u => u
    | None => {| mu_usage := createEmptyUsage; isFallback := Some false;
                 mu_pricingResolution := None; mu_pricingModel := None |}
    end in
  let models :=
    if negb (Map_has models modelName) then Map_set models modelName modelUsage
    else models in
  let modelUsage :=
    {| mu_usage := addUsage (mu_usage modelUsage) (ev_usage event);
       isFallback := isFallback modelUsage;
       mu_pricingResolution := mu_pricingResolution modelUsage;
       mu_pricingModel := mu_pricingModel modelUsage |} in
  let modelUsage :=
    match isFallbackModel event with
    | Some true =>
        {| mu_usage := mu_usage modelUsage; isFallback := Some true;
           mu_pricingResolution := mu_pricingResolution modelUsage;
           mu_pricingModel := mu_pricingModel modelUsage |}
    | _ => modelUsage
    end in
  Map_set models modelName modelUsage.

(** *** daily-report.ts *)

Definition createDailySummary (date_ initialTimestamp : string) : DailyUsageSummary :=
  {| date := date_; ds_firstTimestamp := initialTimestamp;
     ds_usage := createEmptyUsage; ds_costUSD := num_zero; ds_models := [] |}.

(** One iteration of the loop of [buildDailyReport]. *)
Definition dailyStep (options : ReportOptions)
    (summaries : JsMap DailyUsageSummary) (event : TokenUsageEvent)
  : JsMap DailyUsageSummary :=
  match option_map JsString.trim (model event) with
  | None => summaries
  | Some modelName =>
      if String.eqb modelName "" then summaries
      else
        let dateKey := toDateKey (timestamp event) (timezone options) in
        if negb (isWithinRange dateKey (since options) (until options)) then summaries
        else
          let summary :=
            match Map_get summaries dateKey with
            | Some s => s
            | None => createDailySummary dateKey (timestamp event)
            end in
          let summaries :=
            if negb (Map_has summaries dateKey) then Map_set summaries dateKey summary
            else summaries in
          Map_set summaries dateKey
            {| date := date summary;
               ds_firstTimestamp := ds_firstTimestamp summary;
               ds_usage := addUsage (ds_usage summary) (ev_usage event);
               ds_costUSD := ds_costUSD summary;
               ds_models := addModelUsage (ds_models summary) modelName event |}
  end.

(** *** monthly-report.ts *)

Definition createMonthlySummary (month_ initialTimestamp : string)
  : MonthlyUsageSummary :=
  {| month := month_; ms_firstTimestamp := initialTimestamp;
     ms_usage := createEmptyUsage; ms_costUSD := num_zero; ms_models := [] |}.

(** One iteration of the loop of [buildMonthlyReport]. *)
Definition monthlyStep (options : ReportOptions)
    (summaries : JsMap MonthlyUsageSummary) (event : TokenUsageEvent)
  : JsMap MonthlyUsageSummary :=
  match option_map JsString.trim (model event) with
  | None => summaries
  | Some modelName =>
      if String.eqb modelName "" then summaries
      else
        let dateKey := toDateKey (timestamp event) (timezone options) in
        if negb (isWithinRange dateKey (since options) (until options)) then summaries
        else
          let monthKey := toMonthKey (timestamp event) (timezone options) in
          let summary :=
            match Map_get summaries monthKey with
            | Some s => s
            | None => createMonthlySummary monthKey (timestamp event)
            end in
          let summaries :=
            if negb (Map_has summaries monthKey) then Map_set summaries monthKey summary
            else summaries in
          Map_set summaries monthKey
            {| month := month summary;
               ms_firstTimestamp := ms_firstTimestamp summary;
               ms_usage := addUsage (ms_usage summary) (ev_usage event);
               ms_costUSD := ms_costUSD summary;
               ms_models := addModelUsage (ms_models summary) modelName event |}
  end.

(** *** session-report.ts *)

Definition createSessionSummary (sessionId_ initialTimestamp : string)
  : SessionUsageSummary :=
  {| ss_sessionId := sessionId_; ss_firstTimestamp := initialTimestamp;
     lastTimestamp := initialTimestamp;
     ss_usage := createEmptyUsage; ss_costUSD := num_zero; ss_models := [] |}.

(** One iteration of the loop of [buildSessionReport]. *)
Definition sessionStep (options : ReportOptions)
    (summaries : JsMap SessionUsageSummary) (event : TokenUsageEvent)
  : JsMap SessionUsageSummary :=
  match sessionId event with
  | None => summaries
  | Some rawSessionId =>
      let sessionId_ := JsString.trim rawSessionId in
      if String.eqb sessionId_ "" then summaries
      else
        match model event with
        | None => summaries
        | Some rawModelName =>
            let modelName := JsString.trim rawModelName in
            if String.eqb modelName "" then summaries
            else
              let dateKey := toDateKey (timestamp event) (timezone options) in
              if negb (isWithinRange dateKey (since options) (until options))
              then summaries
              else
                let summary :=
                  match Map_get summaries sessionId_ with
                  | Some s => s
                  | None => createSessionSummary sessionId_ (timestamp event)
                  end in
                let summaries :=
                  if negb (Map_has summaries sessionId_)
                  then Map_set summaries sessionId_ summary
                  else summaries in
                Map_set summaries sessionId_
                  {| ss_sessionId := ss_sessionId summary;
                     ss_firstTimestamp := ss_firstTimestamp summary;
                     lastTimestamp :=
                       if JsString.gtb (timestamp event) (lastTimestamp summary)
                       then timestamp event
                       else lastTimestamp summary;
                     ss_usage := addUsage (ss_usage summary) (ev_usage event);
                     ss_costUSD := ss_costUSD summary;
                     ss_models := addModelUsage (ss_models summary) modelName event |}
        end
  end.

(** *** Pricing and rows (the same code in the three builders) *)

Definition uniqueModelsOf {S : Type} (modelsOf : S -> JsMap ModelUsage)
    (summaries : JsMap S) : list string :=
  fold_left
    (fun uniqueModels summary =>
       fold_left Set_add (Map_keys (modelsOf summary)) uniqueModels)
    (Map_values summaries) [].

Fixpoint resolveModels (source : PricingSource F) (uniqueModels : list string)
    (modelPricing : JsMap (ModelPricing F)) : result (JsMap (ModelPricing F)) :=
  match uniqueModels with
  | [] => Ok modelPricing
  | modelName :: rest =>
      match source modelName with
      | Err e => Err e
      | Ok p => resolveModels source rest (Map_set modelPricing modelName p)
      end
  end.

Definition summaryCost (modelPricing : JsMap (ModelPricing F))
    (models : JsMap ModelUsage) : F :=
  fold_left
    (fun cost entry =>
       match Map_get modelPricing (fst entry) with
       | None => cost
       | Some pricing_ => num_add cost (calculateCostUSD (mu_usage (snd entry)) pricing_)
       end)
    models num_zero.

Definition withPricing (usage : ModelUsage) (pricing_ : option (ModelPricing F))
  : ModelUsage :=
  {| mu_usage := mu_usage usage;
     isFallback := isFallback usage;
     mu_pricingResolution := option_map pricingResolution pricing_;
     mu_pricingModel := option_map pricingModel pricing_ |}.

(** [const rowModels = {}] filled by [rowModels[modelName] = {...}] for the
    entries of [summary.models] in their order. *)
Definition rowModelsOf (modelPricing : JsMap (ModelPricing F))
    (models : JsMap ModelUsage) : JsMap ModelUsage :=
  fold_left
    (fun rowModels entry =>
       Object_set rowModels (fst entry)
         (withPricing (snd entry) (Map_get modelPricing (fst entry))))
    models [].

Definition dailyRow (options : ReportOptions) (modelPricing : JsMap (ModelPricing F))
    (summary : DailyUsageSummary) : DailyReportRow :=
  let cost := summaryCost modelPricing (ds_models summary) in
  {| dr_date := formatDisplayDate (date summary) (locale options) (timezone options);
     dr_inputTokens := inputTokens (ds_usage summary);
     dr_cachedInputTokens := cachedInputTokens (ds_usage summary);
     dr_outputTokens := outputTokens (ds_usage summary);
     dr_reasoningOutputTokens := reasoningOutputTokens (ds_usage summary);
     dr_totalTokens := totalTokens (ds_usage summary);
     dr_costUSD := cost;
     dr_models := rowModelsOf modelPricing (ds_models summary) |}.

Definition monthlyRow (options : ReportOptions) (modelPricing : JsMap (ModelPricing F))
    (summary : MonthlyUsageSummary) : MonthlyReportRow :=
  let cost := summaryCost modelPricing (ms_models summary) in
  {| mr_month := formatDisplayMonth (month summary) (locale options) (timezone options);
     mr_inputTokens := inputTokens (ms_usage summary);
     mr_cachedInputTokens := cachedInputTokens (ms_usage summary);
     mr_outputTokens := outputTokens (ms_usage summary);
     mr_reasoningOutputTokens := reasoningOutputTokens (ms_usage summary);
     mr_totalTokens := totalTokens (ms_usage summary);
     mr_costUSD := cost;
     mr_models := rowModelsOf modelPricing (ms_models summary) |}.

Definition sessionRow (modelPricing : JsMap (ModelPricing F))
    (summary : SessionUsageSummary) : SessionReportRow :=
  let cost := summaryCost modelPricing (ss_models summary) in
  let separatorIndex := JsString.lastIndexOf (ss_sessionId summary) "/"%char in
  let directory_ :=
    if 0 <=? separatorIndex then JsString.slice (ss_sessionId summary) 0 separatorIndex
    else "" in
  let sessionFile_ :=
    if 0 <=? separatorIndex
    then JsString.sliceFrom (ss_sessionId summary) (separatorIndex + 1)
    else ss_sessionId summary in
  {| sr_sessionId := ss_sessionId summary;
     lastActivity := lastTimestamp summary;
     sessionFile := sessionFile_;
     directory := directory_;
     sr_inputTokens := inputTokens (ss_usage summary);
     sr_cachedInputTokens := cachedInputTokens (ss_usage summary);
     sr_outputTokens := outputTokens (ss_usage summary);
     sr_reasoningOutputTokens := reasoningOutputTokens (ss_usage summary);
     sr_totalTokens := totalTokens (ss_usage summary);
     sr_costUSD := cost;
     sr_models := rowModelsOf modelPricing (ss_models summary) |}.

Definition dailySummaries (events : list TokenUsageEvent) (options : ReportOptions)
  : JsMap DailyUsageSummary := fold_left (dailyStep options) events [].

Definition buildDailyReport (events : list TokenUsageEvent) (options : ReportOptions)
  : result (list DailyReportRow) :=
  let summaries := dailySummaries events options in
  let uniqueModels := uniqueModelsOf ds_models summaries in
  match resolveModels (pricingSource options) uniqueModels [] with
  | Err e => Err e
  | Ok modelPricing =>
      let sortedSummaries :=
        Array_sort (fun a b => localeCompare (date a) (date b)) (Map_values summaries) in
      Ok (map (dailyRow options modelPricing) sortedSummaries)
  end.

Definition monthlySummaries (events : list TokenUsageEvent) (options : ReportOptions)
  : JsMap MonthlyUsageSummary := fold_left (monthlyStep options) events [].

Definition buildMonthlyReport (events : list TokenUsageEvent) (options : ReportOptions)
  : result (list MonthlyReportRow) :=
  let summaries := monthlySummaries events options in
  let uniqueModels := uniqueModelsOf ms_models summaries in
  match resolveModels (pricingSource options) uniqueModels [] with
  | Err e => Err e
  | Ok modelPricing =>
      let sortedSummaries :=
        Array_sort (fun a b => localeCompare (month a) (month b)) (Map_values summaries) in
      Ok (map (monthlyRow options modelPricing) sortedSummaries)
  end.

Definition sessionSummaries (events : list TokenUsageEvent) (options : ReportOptions)
  : JsMap SessionUsageSummary := fold_left (sessionStep options) events [].

Definition buildSessionReport (events : list TokenUsageEvent) (options : ReportOptions)
  : result (list SessionReportRow) :=
  let summaries := sessionSummaries events options in
  if Nat.eqb (List.length summaries) 0 then Ok []
  else
    let uniqueModels := uniqueModelsOf ss_models summaries in
    match resolveModels (pricingSource options) uniqueModels [] with
    | Err e => Err e
    | Ok modelPricing =>
        let sortedSummaries :=
          Array_sort (fun a b => localeCompare (lastTimestamp a) (lastTimestamp b))
                     (Map_values summaries) in
        Ok (map (sessionRow modelPricing) sortedSummaries)
    end.

End WithHost.
Arguments ReportOptions F : clear implicits.
Arguments DailyUsageSummary F : clear implicits.
Arguments MonthlyUsageSummary F : clear implicits.
Arguments SessionUsageSummary F : clear implicits.
Arguments DailyReportRow F : clear implicits.
Arguments MonthlyReportRow F : clear implicits.
Arguments SessionReportRow F : clear implicits.
End Reports.

(** ** The accumulation engine of the specification

    The design notes of the specification describe the three loops as one
    fold "parameterized only by the grouping-key function and a few
    granularity-specific fields".  [Engine.accumulate] is that fold; the
    loops above are compared with it below. *)

Module Engine.
Section WithSummary.
Context {S : Type}.
(** The group key and the trimmed model name of an event that is not
    skipped. *)
Variable classify : TokenUsageEvent -> option (string * string).
(** The summary created on first sight of a key. *)
Variable create : string -> string -> S.
(** What the loop body does to the summary of the event's group. *)
Variable bump : S -> TokenUsageEvent -> string -> S.

Definition step (summaries : JsMap S) (e : TokenUsageEvent) : JsMap S :=
  match classify e with
  | None => summaries
  | Some (k, m) =>
      Map_set summaries k
        (bump (match Map_get summaries k with
               | Some s => s
               | None => create k (timestamp e)
               end) e m)
  end.

Definition accumulate (events : list TokenUsageEvent) : JsMap S :=
  fold_left step events [].

Definition inGroup (k : string) (e : TokenUsageEvent) : bool :=
  match classify e with
  | Some (k', _) => String.eqb k' k
  | None => false
  end.

Definition modelOf (e : TokenUsageEvent) : string :=
  match classify e with
  | Some (_, m) => m
  | None => ""
  end.

(** The events of a group applied in order to a summary. *)
Definition replayFrom (s : S) (es : list TokenUsageEvent) : S :=
  fold_left (fun s e => bump s e (modelOf e)) es s.

Definition replay (k : string) (es : list TokenUsageEvent) : option S :=
  match es with
  | [] => None
  | e0 :: _ => Some (replayFrom (create k (timestamp e0)) es)
  end.

End WithSummary.
End Engine.

Definition sumUsage (es : list TokenUsageEvent) : TokenUsageDelta :=
  fold_right (fun e acc => addUsage (ev_usage e) acc) createEmptyUsage es.

Definition sumModelUsage (models : JsMap ModelUsage) : TokenUsageDelta :=
  fold_right (fun entry acc => addUsage (mu_usage (snd entry)) acc) createEmptyUsage models.

(** *** The conditions of the specification under which an event counts *)

Definition nonBlank (o : option string) : bool :=
  match o with
  | Some s => negb (String.eqb (JsString.trim s) "")
  | None => false
  end.

Definition trimmed (o : option string) : string :=
  match o with Some s => JsString.trim s | None => "" end.

Module Instances.
Section WithHost.
Context {F : Type} `{Number F} `{Host}.
Import Reports.

Definition inRange (options : ReportOptions F) (e : TokenUsageEvent) : bool :=
  isWithinRange (toDateKey (timestamp e) (timezone options))
                (since options) (until options).

(** Day and month grouping: model name present and not blank, day key in
    the filter. *)
Definition contributes (options : ReportOptions F) (e : TokenUsageEvent) : bool :=
  nonBlank (model e) && inRange options e.

(** Session grouping: the session id must be present and not blank too. *)
Definition contributesSession (options : ReportOptions F) (e : TokenUsageEvent) : bool :=
  nonBlank (sessionId e) && nonBlank (model e) && inRange options e.

Definition dayKey (options : ReportOptions F) (e : TokenUsageEvent) : string :=
  toDateKey (timestamp e) (timezone options).

Definition monthKey (options : ReportOptions F) (e : TokenUsageEvent) : string :=
  toMonthKey (timestamp e) (timezone options).

Definition sessionKey (e : TokenUsageEvent) : string := trimmed (sessionId e).

Definition classifyDaily (options : ReportOptions F) (e : TokenUsageEvent)
  : option (string * string) :=
  if contributes options e then Some (dayKey options e, trimmed (model e)) else None.

Definition classifyMonthly (options : ReportOptions F) (e : TokenUsageEvent)
  : option (string * string) :=
  if contributes options e then Some (monthKey options e, trimmed (model e)) else None.

Definition classifySession (options : ReportOptions F) (e : TokenUsageEvent)
  : option (string * string) :=
  if contributesSession options e then Some (sessionKey e, trimmed (model e)) else None.

Definition bumpDaily (s : DailyUsageSummary F) (e : TokenUsageEvent) (m : string)
  : DailyUsageSummary F :=
  {| date := date s;
     ds_firstTimestamp := ds_firstTimestamp s;
     ds_usage := addUsage (ds_usage s) (ev_usage e);
     ds_costUSD := ds_costUSD s;
     ds_models := addModelUsage (ds_models s) m e |}.

Definition bumpMonthly (s : MonthlyUsageSummary F) (e : TokenUsageEvent) (m : string)
  : MonthlyUsageSummary F :=
  {| month := month s;
     ms_firstTimestamp := ms_firstTimestamp s;
     ms_usage := addUsage (ms_usage s) (ev_usage e);
     ms_costUSD := ms_costUSD s;
     ms_models := addModelUsage (ms_models s) m e |}.

Definition bumpSession (s : SessionUsageSummary F) (e : TokenUsageEvent) (m : string)
  : SessionUsageSummary F :=
  {| ss_sessionId := ss_sessionId s;
     ss_firstTimestamp := ss_firstTimestamp s;
     lastTimestamp :=
       if JsString.gtb (timestamp e) (lastTimestamp s) then timestamp e
       else lastTimestamp s;
     ss_usage := addUsage (ss_usage s) (ev_usage e);
     ss_costUSD := ss_costUSD s;
     ss_models := addModelUsage (ss_models s) m e |}.

(** *** The cost of a group in the words of the specification

    "For every summary, sum CostCalculator results over its per-model
    usages": the models of a group of counted events in the order in which
    the events first name them, each priced by the formula of the
    CostCalculator on the sum of the events that name it; a model without
    pricing adds nothing. *)

Definition groupModels (group : list TokenUsageEvent) : list string :=
  fold_left Set_add (map (fun e => trimmed (model e)) group) [].

Definition modelEvents (m : string) (group : list TokenUsageEvent)
  : list TokenUsageEvent :=
  filter (fun e => String.eqb (trimmed (model e)) m) group.

Definition groupCost (source : PricingSource F) (group : list TokenUsageEvent) : F :=
  fold_left
    (fun cost m =>
       match source m with
       | Ok p =>
           let usage := sumUsage (modelEvents m group) in
           num_add cost
             (num_add
                (num_add
                   (num_mul
                      (num_div (num_ofZ (inputTokens usage - cachedInputTokens usage))
                               (num_ofZ 1000000))
                      (inputCostPerMToken p))
                   (num_mul
                      (num_div (num_ofZ (cachedInputTokens usage)) (num_ofZ 1000000))
                      (cachedInputCostPerMToken p)))
                (num_mul (num_div (num_ofZ (outputTokens usage)) (num_ofZ 1000000))
                         (outputCostPerMToken p)))
       | Err _ => cost
       end)
    (groupModels group) num_zero.


(** *** The order of sessions that tie *)

(** Two sort keys that the comparator puts in neither order. *)
Definition tied (a b : string) : bool :=
  (localeCompare a b <=? 0) && (localeCompare b a <=? 0).

(** The session ids in the order in which their first counted events
    arrive. *)
Definition sessionsByArrival (options : ReportOptions F)
    (events : list TokenUsageEvent) : list string :=
  fold_left Set_add (map sessionKey (filter (contributesSession options) events)) [].

(** What a row shows of its group: label and the five totals. *)
Definition dailyView (r : DailyReportRow F) : string * TokenUsageDelta :=
  (dr_date r,
   {| inputTokens := dr_inputTokens r; cachedInputTokens := dr_cachedInputTokens r;
      outputTokens := dr_outputTokens r;
      reasoningOutputTokens := dr_reasoningOutputTokens r;
      totalTokens := dr_totalTokens r |}).

Definition monthlyView (r : MonthlyReportRow F) : string * TokenUsageDelta :=
  (mr_month r,
   {| inputTokens := mr_inputTokens r; cachedInputTokens := mr_cachedInputTokens r;
      outputTokens := mr_outputTokens r;
      reasoningOutputTokens := mr_reasoningOutputTokens r;
      totalTokens := mr_totalTokens r |}).

(** For a session row: id, last activity, file, directory and totals. *)
Definition sessionView (r : SessionReportRow F)
  : string * string * string * string * TokenUsageDelta :=
  (sr_sessionId r, lastActivity r, sessionFile r, directory r,
   {| inputTokens := sr_inputTokens r; cachedInputTokens := sr_cachedInputTokens r;
      outputTokens := sr_outputTokens r;
      reasoningOutputTokens := sr_reasoningOutputTokens r;
      totalTokens := sr_totalTokens r |}).

End WithHost.
End Instances.

(** ** The ways of [getPricing] to a priced record *)

Module PricingCases.
Section WithNumber.
Context {F : Type} `{Number F}.
Import Pricing.

(** How [getPricing] can come to a resolved record. *)
Inductive Resolves (self : @CodexPricingSource F) (pm : JsMap (LiteLLMModelPricing F))
    (m : string) (w : list string) (r : ResolvedPricing F) : Prop :=
| by_direct :
    w = [] -> findDirectPricing pm m = Some r -> Resolves self pm m w r
| by_alias :
    w = [] -> findDirectPricing pm m = None -> findAliasPricing pm m = Some r ->
    Resolves self pm m w r
| by_fuzzy :
    forall k v,
      w = [] -> findDirectPricing pm m = None -> findAliasPricing pm m = None ->
      allowFuzzyPricing self = true -> fuzzyMatches pm m = [(k, v)] ->
      r = createResolvedPricing k v fuzzy -> Resolves self pm m w r
| by_fallback :
    forall raw r0,
      findDirectPricing pm m = None -> findAliasPricing pm m = None ->
      (allowFuzzyPricing self = true -> fuzzyMatches pm m = []) ->
      unknownModelFallback self = Some raw -> JsString.trim raw <> "" ->
      (findDirectPricing pm (JsString.trim raw) = Some r0 \/
       (findDirectPricing pm (JsString.trim raw) = None /\
        findAliasPricing pm (JsString.trim raw) = Some r0)) ->
      r = createResolvedPricing (key r0) (pricing r0) fallback ->
      w = [fallbackWarning m (JsString.trim raw)] ->
      Resolves self pm m w r.

End WithNumber.
End PricingCases.

(** ** commands/daily.ts and the session command: totals of a report *)

Module Commands.
Section WithNumber.
Context {F : Type} `{Number F}.

(** The accumulator of [rows.reduce] in the command files. *)
Record ReportTotals : Type := {
  t_inputTokens : Z;
  t_cachedInputTokens : Z;
  t_outputTokens : Z;
  t_reasoningOutputTokens : Z;
  t_totalTokens : Z;
  t_costUSD : F
}.

Definition emptyTotals : ReportTotals :=
  {| t_inputTokens := 0; t_cachedInputTokens := 0; t_outputTokens := 0;
     t_reasoningOutputTokens := 0; t_totalTokens := 0; t_costUSD := num_zero |}.

(** [rows.reduce] of the daily command (commands/daily.ts, lines 78-96). *)
Definition dailyTotals (rows : list (Reports.DailyReportRow F)) : ReportTotals :=
  fold_left
    (fun acc row =>
       {| t_inputTokens := t_inputTokens acc + Reports.dr_inputTokens row;
          t_cachedInputTokens := t_cachedInputTokens acc + Reports.dr_cachedInputTokens row;
          t_outputTokens := t_outputTokens acc + Reports.dr_outputTokens row;
          t_reasoningOutputTokens :=
            t_reasoningOutputTokens acc + Reports.dr_reasoningOutputTokens row;
          t_totalTokens := t_totalTokens acc + Reports.dr_totalTokens row;
          t_costUSD := num_add (t_costUSD acc) (Reports.dr_costUSD row) |})
    rows emptyTotals.

(** [rows.reduce] of the session command. *)
Definition sessionTotals (rows : list (Reports.SessionReportRow F)) : ReportTotals :=
  fold_left
    (fun acc row =>
       {| t_inputTokens := t_inputTokens acc + Reports.sr_inputTokens row;
          t_cachedInputTokens := t_cachedInputTokens acc + Reports.sr_cachedInputTokens row;
          t_outputTokens := t_outputTokens acc + Reports.sr_outputTokens row;
          t_reasoningOutputTokens :=
            t_reasoningOutputTokens acc + Reports.sr_reasoningOutputTokens row;
          t_totalTokens := t_totalTokens acc + Reports.sr_totalTokens row;
          t_costUSD := num_add (t_costUSD acc) (Reports.sr_costUSD row) |})
    rows emptyTotals.

(** The five token totals of the accumulator. *)
Definition totalsUsage (t : ReportTotals) : TokenUsageDelta :=
  {| inputTokens := t_inputTokens t; cachedInputTokens := t_cachedInputTokens t;
     outputTokens := t_outputTokens t;
     reasoningOutputTokens := t_reasoningOutputTokens t;
     totalTokens := t_totalTokens t |}.

End WithNumber.
Arguments ReportTotals F : clear implicits.
End Commands.

(** [event.isFallbackModel === true] *)
Definition fallbackMarked (e : TokenUsageEvent) : bool :=
  match isFallbackModel e with Some true => true | _ => false end.

(** Field-wise sum of a list of deltas. *)
Definition sumDeltas (l : list TokenUsageDelta) : TokenUsageDelta :=
  fold_right addUsage createEmptyUsage l.

(** The usage and the fallback flag of a model's entry, an absent entry
    counting as the one the loops create. *)
Definition usageOrEmpty (o : option ModelUsage) : TokenUsageDelta :=
  match o with Some u => mu_usage u | None => createEmptyUsage end.

Definition flagOrFalse (o : option ModelUsage) : option bool :=
  match o with Some u => isFallback u | None => Some false end.

(** ** Sample data (exact rational prices) *)

Module Samples.

Definition gpt5 : LiteLLMModelPricing Q :=
  {| input_cost_per_token := Some (125 # 100000000)%Q;
     output_cost_per_token := Some (1 # 100000)%Q;
     cache_read_input_token_cost := Some (125 # 1000000000)%Q |}.

Definition gpt5codex : LiteLLMModelPricing Q :=
  {| input_cost_per_token := Some (175 # 100000000)%Q;
     output_cost_per_token := Some (14 # 1000000)%Q;
     cache_read_input_token_cost := None |}.

(** A record with [max_tokens] only, as in the test of pricing.ts. *)
Definition noCosts : LiteLLMModelPricing Q :=
  {| input_cost_per_token := None;
     output_cost_per_token := None;
     cache_read_input_token_cost := None |}.

Definition priceList : JsMap (LiteLLMModelPricing Q) :=
  [("gpt-5-codex", gpt5codex); ("gpt-5", gpt5); ("azure/gpt-4o", gpt5)].

Definition source (fuzzy_ : bool) (fallback_ : option string)
    (pm : JsMap (LiteLLMModelPricing Q)) : Pricing.CodexPricingSource :=
  {| Pricing.fetcher := Ok pm;
     Pricing.allowFuzzyPricing := fuzzy_;
     Pricing.unknownModelFallback := fallback_ |}.

(** A host for UTC and ISO-8601 timestamps: the day key is the first ten
    characters of the timestamp, the month key the first seven, display
    formatting is the identity and strings are ordered by code units. *)
#[global] Instance utcHost : Host := {|
  toDateKey := fun ts _ => substring 0 10 ts;
  toMonthKey := fun ts _ => substring 0 7 ts;
  formatDisplayDate := fun d _ _ => d;
  formatDisplayMonth := fun m _ _ => m;
  localeCompare := fun a b =>
    match String.compare a b with Lt => -1 | Eq => 0 | Gt => 1 end
|}.

(** The stub pricing source of the tests of the report builders. *)
Definition stubPricing : JsMap (ModelPricing Q) :=
  [("gpt-5",
    {| inputCostPerMToken := (125 # 100)%Q; cachedInputCostPerMToken := (125 # 1000)%Q;
       outputCostPerMToken := 10%Q; pricingResolution := direct;
       pricingModel := "gpt-5" |});
   ("gpt-5-mini",
    {| inputCostPerMToken := (6 # 10)%Q; cachedInputCostPerMToken := (6 # 100)%Q;
       outputCostPerMToken := 2%Q; pricingResolution := direct;
       pricingModel := "gpt-5-mini" |})].

Definition stubPricingSource : PricingSource Q :=
  fun model_ =>
    match Map_get stubPricing model_ with
    | Some value => Ok value
    | None => Err ("Missing pricing for " ++ model_)
    end.

Definition event (session_ : option string) (ts : string) (model_ : option string)
    (i c o r t : Z) : TokenUsageEvent :=
  {| ev_usage := {| inputTokens := i; cachedInputTokens := c; outputTokens := o;
                    reasoningOutputTokens := r; totalTokens := t |};
     timestamp := ts; sessionId := session_; model := model_;
     isFallbackModel := None |}.

(** The events of the test of [buildDailyReport]. *)
Definition e1 : TokenUsageEvent :=
  event (Some "session-1") "2025-09-11T03:00:00.000Z" (Some "gpt-5") 1000 200 500 0 1500.
Definition e2 : TokenUsageEvent :=
  event (Some "session-1") "2025-09-11T05:00:00.000Z" (Some "gpt-5-mini") 400 100 200 50 750.
Definition e3 : TokenUsageEvent :=
  event (Some "session-2") "2025-09-12T01:00:00.000Z" (Some "gpt-5") 2000 0 800 0 2800.

(** Events that are skipped: blank model name, day out of range. *)
Definition eBlank : TokenUsageEvent :=
  event (Some "session-1") "2025-09-11T04:00:00.000Z" (Some "  ") 7 0 7 0 14.
Definition eLate : TokenUsageEvent :=
  event (Some "session-1") "2025-09-13T00:00:00.000Z" (Some "gpt-5") 9 0 9 0 18.

Definition events : list TokenUsageEvent := [e1; eBlank; e2; e3; eLate].

Definition options : Reports.ReportOptions Q :=
  {| Reports.timezone := None; Reports.locale := None;
     Reports.since := Some "2025-09-11"; Reports.until := Some "2025-09-12";
     Reports.pricingSource := stubPricingSource |}.

(** Two sessions whose last activity carries the same timestamp. *)
Definition eA : TokenUsageEvent :=
  event (Some "dir/a/session-1") "2025-09-11T03:00:00.000Z" (Some "gpt-5") 10 0 5 0 15.
Definition eB : TokenUsageEvent :=
  event (Some "session-2") "2025-09-11T03:00:00.000Z" (Some "gpt-5") 20 0 5 0 25.

End Samples.

(** ** The control flow of the daily and the session command

    What [run] does with the events it loaded, once the filter dates are
    normalized: logging and rendering are left out, and each of the
    command's ways to end is a constructor. *)

Module CommandFlow.
Section WithHost.
Context {F : Type} `{Number F} `{Host}.

Inductive Outcome (Row : Type) : Type :=
| NoUsageData
| NoDataForFilters
| Rendered (rows : list Row) (totals : Commands.ReportTotals F)
| Thrown (msg : string).
Arguments NoUsageData {Row}.
Arguments NoDataForFilters {Row}.
Arguments Rendered {Row} rows totals.
Arguments Thrown {Row} msg.

(** commands/daily.ts, lines 50-109: "No Codex usage data found." for no
    events, "No Codex usage data found for provided filters." for no rows,
    and the rows with their totals otherwise; an error of the builder
    leaves [run] as it is. *)
Definition dailyCommand (events : list TokenUsageEvent)
    (options : Reports.ReportOptions F) : Outcome (Reports.DailyReportRow F) :=
  if Nat.eqb (List.length events) 0 then NoUsageData
  else
    match Reports.buildDailyReport events options with
    | Err e => Thrown e
    | Ok rows =>
        if Nat.eqb (List.length rows) 0 then NoDataForFilters
        else Rendered rows (Commands.dailyTotals rows)
    end.

(** The same flow in the session command. *)
Definition sessionCommand (events : list TokenUsageEvent)
    (options : Reports.ReportOptions F) : Outcome (Reports.SessionReportRow F) :=
  if Nat.eqb (List.length events) 0 then NoUsageData
  else
    match Reports.buildSessionReport events options with
    | Err e => Thrown e
    | Ok rows =>
        if Nat.eqb (List.length rows) 0 then NoDataForFilters
        else Rendered rows (Commands.sessionTotals rows)
    end.

End WithHost.
Arguments NoUsageData {F Row}.
Arguments NoDataForFilters {F Row}.
Arguments Rendered {F Row} rows totals.
Arguments Thrown {F Row} msg.
End CommandFlow.

(** ** More sample events *)

Module MoreSamples.

(** An event of a model that the stub pricing source does not know. *)
Definition eUnknown : TokenUsageEvent :=
  Samples.event (Some "session-3") "2025-09-12T02:00:00.000Z" (Some " o9 ") 5 0 5 0 10.

(** An event that carries the fallback marker. *)
Definition eMarked : TokenUsageEvent :=
  {| ev_usage := {| inputTokens := 30; cachedInputTokens := 10; outputTokens := 3;
                    reasoningOutputTokens := 1; totalTokens := 33 |};
     timestamp := "2025-09-11T01:00:00.000Z"; sessionId := Some "session-1";
     model := Some "gpt-5"; isFallbackModel := Some true |}.

Definition events : list TokenUsageEvent := Samples.events ++ [eMarked].

(** An event whose model name is [__proto__], and options whose pricing
    source answers every model with the prices of gpt-5. *)
Definition eProto : TokenUsageEvent :=
  Samples.event (Some "session-1") "2025-09-11T03:00:00.000Z" (Some "__proto__")
    10 0 5 0 15.

Definition flatPricingSource : PricingSource Q :=
  fun _ =>
    Ok {| inputCostPerMToken := (125 # 100)%Q; cachedInputCostPerMToken := (125 # 1000)%Q;
          outputCostPerMToken := 10%Q; pricingResolution := direct;
          pricingModel := "gpt-5" |}.

Definition flatOptions : Reports.ReportOptions Q :=
  {| Reports.timezone := None; Reports.locale := None;
     Reports.since := None; Reports.until := None;
     Reports.pricingSource := flatPricingSource |}.

(** Model names that are array indices, named by the events in descending
    order. *)
Definition eTen : TokenUsageEvent :=
  Samples.event (Some "session-1") "2025-09-11T03:00:00.000Z" (Some "10") 1 0 1 0 2.
Definition eTwo : TokenUsageEvent :=
  Samples.event (Some "session-1") "2025-09-11T04:00:00.000Z" (Some "2") 2 0 2 0 4.

End MoreSamples.

(** * Properties *)

(** ** Strings *)

Lemma prefix_refl (s : string) : prefix s s = true.
Proof.
induction s as [|c s IH]; simpl; [reflexivity|].
destruct (ascii_dec c c); [exact IH | congruence].
Qed.

Lemma prefix_app (p a b : string) :
  prefix p a = true -> prefix p (a ++ b) = true.
Proof.
revert a; induction p as [|c p IH]; intros a Hp; [destruct (a ++ b); reflexivity|].
destruct a as [|d a]; simpl in *; [discriminate|].
destruct (ascii_dec c d); [auto | discriminate].
Qed.

Lemma includes_refl (s : string) : JsString.includes s s = true.
Proof.
destruct s; [reflexivity|].
unfold JsString.includes; fold JsString.includes.
rewrite prefix_refl; reflexivity.
Qed.

Lemma includes_app_l (a b sub : string) :
  JsString.includes a sub = true -> JsString.includes (a ++ b) sub = true.
Proof.
induction a as [|c a IH]; simpl; intros Hi.
- rewrite orb_false_r in Hi. destruct sub; [|discriminate].
  destruct b; reflexivity.
- apply orb_true_iff in Hi. apply orb_true_iff. destruct Hi as [Hp|Hr].
  + left. exact (prefix_app sub (String c a) b Hp).
  + right. auto.
Qed.

Lemma includes_app_r (a b sub : string) :
  JsString.includes b sub = true -> JsString.includes (a ++ b) sub = true.
Proof.
induction a as [|c a IH]; simpl; intros Hi; [exact Hi|].
apply orb_true_iff. right. auto.
Qed.

Lemma includes_join (sep k : string) (l : list string) :
  In k l -> JsString.includes (JsString.join sep l) k = true.
Proof.
unfold JsString.join.
induction l as [|x l IH]; intros Hin; [destruct Hin|].
destruct l as [|y l].
- destruct Hin as [->|[]]. apply includes_refl.
- change (String.concat sep (x :: y :: l))
    with (x ++ sep ++ String.concat sep (y :: l)).
  destruct Hin as [->|Hin].
  + apply includes_app_l, includes_refl.
  + apply includes_app_r, includes_app_r. auto.
Qed.

(** ** Pricing resolution *)

Section PricingProps.
Context {F : Type} `{Number F}.
Import Pricing.

Lemma findDirectLoop_find (pm : JsMap (LiteLLMModelPricing F)) (cs : list string) :
  findDirectLoop pm cs =
  match find (fun c => Map_has pm c) cs with
  | None => None
  | Some c =>
      match Map_get pm c with
      | Some p => Some (createResolvedPricing c p direct)
      | None => None
      end
  end.
Proof.
induction cs as [|c cs IH]; simpl; [reflexivity|].
unfold Map_has at 1. destruct (Map_get pm c) eqn:E.
- rewrite E. reflexivity.
- exact IH.
Qed.

Lemma findDirectPricing_spec (pm : JsMap (LiteLLMModelPricing F)) (m : string) :
  findDirectPricing pm m = spec_direct pm m.
Proof. unfold findDirectPricing. rewrite findDirectLoop_find. reflexivity. Qed.

Lemma findAliasPricing_spec (pm : JsMap (LiteLLMModelPricing F)) (m : string) :
  findAliasPricing pm m = spec_alias pm m.
Proof.
unfold findAliasPricing, spec_alias.
destruct (Map_get CODEX_MODEL_ALIASES_MAP m); [|reflexivity].
rewrite findDirectPricing_spec. destruct (spec_direct pm s); reflexivity.
Qed.

Lemma findDirectLoop_first (pm : JsMap (LiteLLMModelPricing F)) (cs : list string)
    (r : ResolvedPricing F) :
  findDirectLoop pm cs = Some r <->
  exists pre c post p,
    cs = (pre ++ c :: post)%list /\
    Forall (fun x => Map_get pm x = None) pre /\
    Map_get pm c = Some p /\
    r = createResolvedPricing c p direct.
Proof.
induction cs as [|c cs IH]; simpl.
- split; [discriminate|]. intros (pre & c & post & p & E & _). destruct pre; discriminate.
- destruct (Map_get pm c) eqn:E.
  + split.
    * intros [= <-]. exists [], c, cs, l. repeat split; auto.
    * intros (pre & c' & post & p & Hcs & Hpre & Hc & ->).
      destruct pre as [|x pre]; simpl in Hcs; injection Hcs as <- ->.
      -- congruence.
      -- inversion Hpre; congruence.
  + rewrite IH. split.
    * intros (pre & c' & post & p & -> & Hpre & Hc & ->).
      exists (c :: pre), c', post, p. repeat split; auto.
    * intros (pre & c' & post & p & Hcs & Hpre & Hc & ->).
      destruct pre as [|x pre]; simpl in Hcs; injection Hcs as <- ->.
      -- congruence.
      -- inversion Hpre; subst. exists pre, c', post, p. repeat split; auto.
Qed.

Lemma findFuzzyPricing_spec (pm : JsMap (LiteLLMModelPricing F)) (m : string) :
  findFuzzyPricing pm m =
  match spec_fuzzy pm m with
  | Found r => Ok (Some r)
  | NotFound => Ok None
  | Fatal msg => Err msg
  end.
Proof.
unfold findFuzzyPricing, spec_fuzzy.
destruct (fuzzyMatches pm m) as [|a [|b l]]; reflexivity.
Qed.

Lemma getPricing_refines (self : CodexPricingSource)
    (pm : JsMap (LiteLLMModelPricing F)) (m : string) :
  fetcher self = Ok pm -> getPricing self m = spec_getPricing self pm m.
Proof.
intros Hf. unfold getPricing, spec_getPricing, spec_tiers, getPricingMap, fallbackStep.
rewrite Hf, findFuzzyPricing_spec, findAliasPricing_spec, findDirectPricing_spec.
destruct (spec_direct pm m) as [r|] eqn:Ed; simpl; [reflexivity|].
destruct (spec_alias pm m) as [r|] eqn:Ea; simpl; [reflexivity|].
destruct (allowFuzzyPricing self) eqn:Ez; simpl.
- destruct (spec_fuzzy pm m) as [r| |msg] eqn:Efz; simpl; try reflexivity.
  destruct (unknownModelFallback self) as [raw|]; simpl; [|reflexivity].
  destruct (String.eqb (JsString.trim raw) ""); simpl; [reflexivity|].
  unfold spec_fallback.
  rewrite findAliasPricing_spec, findDirectPricing_spec.
  destruct (spec_direct pm (JsString.trim raw)); [reflexivity|].
  destruct (spec_alias pm (JsString.trim raw)); reflexivity.
- destruct (unknownModelFallback self) as [raw|]; simpl; [|reflexivity].
  destruct (String.eqb (JsString.trim raw) ""); simpl; [reflexivity|].
  unfold spec_fallback.
  rewrite findAliasPricing_spec, findDirectPricing_spec.
  destruct (spec_direct pm (JsString.trim raw)); [reflexivity|].
  destruct (spec_alias pm (JsString.trim raw)); reflexivity.
Qed.

Lemma getPricing_direct (self : CodexPricingSource)
    (pm : JsMap (LiteLLMModelPricing F)) (m : string) (r : ResolvedPricing F) :
  fetcher self = Ok pm -> findDirectPricing pm m = Some r ->
  getPricing self m = ([], normalizeModelPricing m r).
Proof.
intros Hf Hd. unfold getPricing, getPricingMap, fallbackStep. rewrite Hf, Hd. reflexivity.
Qed.

Lemma getPricing_unresolved (self : CodexPricingSource)
    (pm : JsMap (LiteLLMModelPricing F)) (m : string) :
  fetcher self = Ok pm ->
  findDirectPricing pm m = None ->
  findAliasPricing pm m = None ->
  (allowFuzzyPricing self = true -> fuzzyMatches pm m = []) ->
  getPricing self m =
  match fallbackStep self pm m None with
  | (w, Err e) => (w, Err e)
  | (w, Ok (Some r)) => (w, normalizeModelPricing m r)
  | (w, Ok None) =>
      (w, Err (if allowFuzzyPricing self then notFoundMessage m
               else notFoundDisabledMessage m))
  end.
Proof.
intros Hf Hd Ha Hz.
unfold getPricing, getPricingMap. rewrite Hf, Hd. simpl. rewrite Ha. simpl.
destruct (allowFuzzyPricing self) eqn:Ez.
- unfold findFuzzyPricing. rewrite (Hz eq_refl). simpl.
  destruct (fallbackStep self pm m None) as [w [[r|]|e]]; reflexivity.
- simpl. destruct (fallbackStep self pm m None) as [w [[r|]|e]]; reflexivity.
Qed.

(** C1.  [getPricing] tries the tiers in the order direct, alias, fuzzy (when
    enabled), configured fallback, and the first tier that answers decides
    (it is exactly [spec_getPricing], the tier list of the specification).
    The direct tier tries the name verbatim and then behind "openai/",
    "azure/" and "openrouter/openai/", the first candidate present in the
    price list winning.  A direct match wins, tagged [direct], also when the
    price list prices the alias target of the name. *)
Theorem getPricing_tier_order (self : CodexPricingSource)
    (pm : JsMap (LiteLLMModelPricing F)) (model_ : string) :
  fetcher self = Ok pm ->
  getPricing self model_ = spec_getPricing self pm model_
  /\ directCandidates model_ =
       [model_; "openai/" ++ model_; "azure/" ++ model_; "openrouter/openai/" ++ model_]
  /\ (forall r, findDirectPricing pm model_ = Some r <->
        exists pre c post p,
          directCandidates model_ = (pre ++ c :: post)%list /\
          Forall (fun x => Map_get pm x = None) pre /\
          Map_get pm c = Some p /\
          r = createResolvedPricing c p direct)
  /\ (forall r, findDirectPricing pm model_ = Some r ->
        resolution r = direct /\
        getPricing self model_ = ([], normalizeModelPricing model_ r))
  /\ (forall p target q,
        Map_get pm model_ = Some p ->
        Map_get CODEX_MODEL_ALIASES_MAP model_ = Some target ->
        Map_get pm target = Some q ->
        getPricing self model_ =
          ([], normalizeModelPricing model_ (createResolvedPricing model_ p direct))).
Proof.
intros Hf. split; [exact (getPricing_refines self pm model_ Hf)|].
split; [reflexivity|]. split; [intros r; apply findDirectLoop_first|].
split.
- intros r Hr. split; [|exact (getPricing_direct self pm model_ r Hf Hr)].
  apply findDirectLoop_first in Hr. destruct Hr as (? & ? & ? & ? & _ & _ & _ & ->).
  reflexivity.
- intros p target q Hp _ _. apply (getPricing_direct self pm model_ _ Hf).
  unfold findDirectPricing, directCandidates. simpl. rewrite Hp. reflexivity.
Qed.

(** C3.  The fuzzy tier collects the entries whose key, ignoring case,
    contains the model name or is contained in it.  No match: the tier fails
    and resolution goes on to the next tier.  One match: success tagged
    [fuzzy].  Two or more: a hard error whose message lists every candidate
    key. *)
Theorem findFuzzyPricing_cases (pm : JsMap (LiteLLMModelPricing F)) (model_ : string) :
  let ms := fuzzyMatches pm model_ in
  (forall k v, In (k, v) ms <->
      In (k, v) pm /\
      (JsString.includes (JsString.toLowerCase k) (JsString.toLowerCase model_)
       || JsString.includes (JsString.toLowerCase model_) (JsString.toLowerCase k)) = true)
  /\ (ms = [] -> findFuzzyPricing pm model_ = Ok None)
  /\ (forall k v, ms = [(k, v)] ->
        findFuzzyPricing pm model_ = Ok (Some (createResolvedPricing k v fuzzy)))
  /\ ((2 <= List.length ms)%nat ->
        findFuzzyPricing pm model_ = Err (ambiguousMessage model_ ms) /\
        forall k, In k (map fst ms) ->
                  JsString.includes (ambiguousMessage model_ ms) k = true)
  /\ (forall self,
        fetcher self = Ok pm -> allowFuzzyPricing self = true ->
        findDirectPricing pm model_ = None -> findAliasPricing pm model_ = None ->
        (ms = [] ->
           getPricing self model_ =
           match fallbackStep self pm model_ None with
           | (w, Err e) => (w, Err e)
           | (w, Ok (Some r)) => (w, normalizeModelPricing model_ r)
           | (w, Ok None) => (w, Err (notFoundMessage model_))
           end)
        /\ (forall k v, ms = [(k, v)] ->
              getPricing self model_ =
              ([], normalizeModelPricing model_ (createResolvedPricing k v fuzzy)))
        /\ ((2 <= List.length ms)%nat ->
              getPricing self model_ = ([], Err (ambiguousMessage model_ ms)))).
Proof.
intros ms. split.
{ intros k v. unfold ms, fuzzyMatches. rewrite filter_In. reflexivity. }
split. { intros E. unfold findFuzzyPricing. fold ms. rewrite E. reflexivity. }
split. { intros k v E. unfold findFuzzyPricing. fold ms. rewrite E. reflexivity. }
split.
{ intros Hlen. split.
  - unfold findFuzzyPricing. fold ms.
    destruct ms as [|a [|b l]]; simpl in Hlen; try lia. reflexivity.
  - intros k Hk. unfold ambiguousMessage.
    do 5 apply includes_app_r. apply includes_join, Hk. }
intros self Hf Hz Hd Ha.
assert (Hg : getPricing self model_ =
  match findFuzzyPricing pm model_ with
  | Err e => ([], Err e)
  | Ok rp =>
      match fallbackStep self pm model_ rp with
      | (w, Err e) => (w, Err e)
      | (w, Ok (Some r)) => (w, normalizeModelPricing model_ r)
      | (w, Ok None) => (w, Err (notFoundMessage model_))
      end
  end).
{ unfold getPricing, getPricingMap. rewrite Hf, Hd. simpl. rewrite Ha, Hz. simpl.
  destruct (findFuzzyPricing pm model_) as [rp|e]; [|reflexivity].
  destruct (fallbackStep self pm model_ rp) as [w [[r|]|e]]; reflexivity. }
rewrite Hg. unfold findFuzzyPricing. fold ms. split; [|split].
- intros E. rewrite E. reflexivity.
- intros k v E. rewrite E. reflexivity.
- intros Hlen. destruct ms as [|a [|b l]]; simpl in Hlen; try lia. reflexivity.
Qed.

(** C6 (amended).  When a fallback name is configured that is not blank
    after trimming, and the direct, alias and (if enabled) fuzzy tiers find
    nothing, [getPricing] resolves the trimmed fallback name with the direct
    and alias tiers only: on success the result is tagged [fallback] and one
    warning is logged; otherwise it throws an error naming the trimmed
    fallback name, whatever fuzzy matching would find for it. *)
Theorem getPricing_fallback (self : CodexPricingSource)
    (pm : JsMap (LiteLLMModelPricing F)) (model_ raw : string) :
  fetcher self = Ok pm ->
  unknownModelFallback self = Some raw ->
  JsString.trim raw <> "" ->
  findDirectPricing pm model_ = None ->
  findAliasPricing pm model_ = None ->
  (allowFuzzyPricing self = true -> fuzzyMatches pm model_ = []) ->
  let fb := JsString.trim raw in
  (forall r,
      findDirectPricing pm fb = Some r \/
      (findDirectPricing pm fb = None /\ findAliasPricing pm fb = Some r) ->
      getPricing self model_ =
      ([fallbackWarning model_ fb],
       normalizeModelPricing model_
         (createResolvedPricing (key r) (pricing r) fallback)))
  /\ (findDirectPricing pm fb = None -> findAliasPricing pm fb = None ->
      getPricing self model_ = ([], Err (fallbackFailedMessage fb model_)) /\
      JsString.includes (fallbackFailedMessage fb model_) fb = true).
Proof.
intros Hf Hfb Hne Hd Ha Hz fb.
rewrite (getPricing_unresolved self pm model_ Hf Hd Ha Hz).
unfold fallbackStep. rewrite Hfb. fold fb.
apply String.eqb_neq in Hne. fold fb in Hne. rewrite Hne.
split.
- intros r [Hr|[Hn Hr]].
  + rewrite Hr. reflexivity.
  + rewrite Hn, Hr. reflexivity.
- intros Hn1 Hn2. rewrite Hn1, Hn2. split; [reflexivity|].
  unfold fallbackFailedMessage. apply includes_app_r, includes_app_l, includes_refl.
Qed.

(** C7.  Normalization multiplies each per-token cost by 1,000,000; the
    cached-input cost is derived from the cache-read cost when the record
    has one and from the input cost otherwise; a record without input or
    output cost makes [getPricing] throw an error that names the model. *)
Theorem normalizeModelPricing_per_million (model_ : string) (r : ResolvedPricing F) :
  MILLION = num_ofZ 1000000
  /\ (forall ic oc,
        input_cost_per_token (pricing r) = Some ic ->
        output_cost_per_token (pricing r) = Some oc ->
        normalizeModelPricing model_ r =
        Ok {| inputCostPerMToken := num_mul ic MILLION;
              cachedInputCostPerMToken :=
                num_mul (match cache_read_input_token_cost (pricing r) with
                         | Some c => c
                         | None => ic
                         end) MILLION;
              outputCostPerMToken := num_mul oc MILLION;
              pricingResolution := resolution r;
              pricingModel := key r |})
  /\ (input_cost_per_token (pricing r) = None \/
      output_cost_per_token (pricing r) = None ->
      normalizeModelPricing model_ r = Err (incompleteMessage model_) /\
      JsString.includes (incompleteMessage model_) model_ = true /\
      forall self pm w,
        fetcher self = Ok pm ->
        firstSuccess (spec_tiers self pm model_) = (w, Found r) ->
        getPricing self model_ = (w, Err (incompleteMessage model_))).
Proof.
split; [reflexivity|]. split.
- intros ic oc Hi Ho. unfold normalizeModelPricing. rewrite Hi, Ho. reflexivity.
- intros Hmiss.
  assert (Hn : normalizeModelPricing model_ r = Err (incompleteMessage model_)).
  { unfold normalizeModelPricing.
    destruct Hmiss as [E|E]; rewrite E; [reflexivity|].
    destruct (input_cost_per_token (pricing r)); reflexivity. }
  split; [exact Hn|]. split.
  + unfold incompleteMessage. apply includes_app_r, includes_app_l, includes_refl.
  + intros self pm w Hf Hfs. rewrite (getPricing_refines self pm model_ Hf).
    unfold spec_getPricing. rewrite Hfs, Hn. reflexivity.
Qed.

(** C8 (amended).  When the direct, alias and (if enabled) fuzzy tiers find
    nothing and no fallback name that is non-blank after trimming is
    configured, [getPricing] throws a pricing-not-found error naming the
    model.  With fuzzy matching disabled the message says so and names the
    flag that enables it; with fuzzy matching enabled the message is
    "Pricing not found for model " followed by the model name and nothing
    else. *)
Theorem getPricing_not_found (self : CodexPricingSource)
    (pm : JsMap (LiteLLMModelPricing F)) (model_ : string) :
  fetcher self = Ok pm ->
  findDirectPricing pm model_ = None ->
  findAliasPricing pm model_ = None ->
  (allowFuzzyPricing self = true -> fuzzyMatches pm model_ = []) ->
  (forall raw, unknownModelFallback self = Some raw -> JsString.trim raw = "") ->
  getPricing self model_ =
    ([], Err (if allowFuzzyPricing self then "Pricing not found for model " ++ model_
              else notFoundDisabledMessage model_))
  /\ JsString.includes (notFoundDisabledMessage model_) model_ = true
  /\ JsString.includes (notFoundDisabledMessage model_) "Fuzzy matching is disabled" = true
  /\ JsString.includes (notFoundDisabledMessage model_)
       "pass --allow-fuzzy-pricing to enable it" = true.
Proof.
intros Hf Hd Ha Hz Hfb. split; [|split; [|split]].
- rewrite (getPricing_unresolved self pm model_ Hf Hd Ha Hz).
  assert (Hs : fallbackStep self pm model_ None = ([], Ok None)).
  { unfold fallbackStep. destruct (unknownModelFallback self) as [raw|] eqn:E; [|reflexivity].
    rewrite (Hfb raw eq_refl). reflexivity. }
  rewrite Hs. reflexivity.
- unfold notFoundDisabledMessage. apply includes_app_r, includes_app_l, includes_refl.
- unfold notFoundDisabledMessage. do 2 apply includes_app_r. reflexivity.
- unfold notFoundDisabledMessage. do 2 apply includes_app_r. reflexivity.
Qed.

End PricingProps.

(** ** Pricing resolution on the sample price list *)

Lemma getPricing_tier_order_witness :
  Pricing.getPricing (Samples.source false None Samples.priceList) "gpt-5-codex" =
  ([], Pricing.normalizeModelPricing "gpt-5-codex"
         (Pricing.createResolvedPricing "gpt-5-codex" Samples.gpt5codex direct)).
Proof.
exact (proj2 (proj2 (proj2 (proj2
  (getPricing_tier_order (Samples.source false None Samples.priceList)
     Samples.priceList "gpt-5-codex" eq_refl))))
  Samples.gpt5codex "gpt-5" Samples.gpt5 eq_refl eq_refl eq_refl).
Defined.

Lemma findFuzzyPricing_cases_witness :
  Pricing.getPricing (Samples.source true None Samples.priceList) "gpt" =
  ([], Err "Ambiguous fuzzy pricing resolution for model gpt; 3 candidates found: gpt-5-codex, gpt-5, azure/gpt-4o").
Proof.
apply (proj2 (proj2 (proj2 (proj2 (proj2 (proj2
  (findFuzzyPricing_cases Samples.priceList "gpt"))))
  (Samples.source true None Samples.priceList) eq_refl eq_refl eq_refl eq_refl))).
vm_compute. lia.
Defined.

Lemma getPricing_fallback_witness :
  Pricing.getPricing (Samples.source false (Some " gpt-5-codex ") Samples.priceList) "o9" =
  (["Using fallback model pricing: o9 -> gpt-5-codex"],
   Pricing.normalizeModelPricing "o9"
     (Pricing.createResolvedPricing "gpt-5-codex" Samples.gpt5codex fallback)).
Proof.
apply (proj1 (getPricing_fallback
  (Samples.source false (Some " gpt-5-codex ") Samples.priceList)
  Samples.priceList "o9" " gpt-5-codex " eq_refl eq_refl
  ltac:(vm_compute; discriminate) eq_refl eq_refl ltac:(discriminate))
  (Pricing.createResolvedPricing "gpt-5-codex" Samples.gpt5codex direct)).
left. reflexivity.
Defined.

(** C6, as stated, fails when the configured fallback is blank: the
    fallback tier is skipped, and the error thrown is the not-found error,
    which does not name the fallback. *)
Lemma getPricing_fallback_blank_counterexample :
  let self := Samples.source false (Some "  ") Samples.priceList in
  Pricing.unknownModelFallback self = Some "  "
  /\ Pricing.findDirectPricing Samples.priceList "o9" = None
  /\ Pricing.findAliasPricing Samples.priceList "o9" = None
  /\ Pricing.findDirectPricing Samples.priceList "  " = None
  /\ Pricing.findAliasPricing Samples.priceList "  " = None
  /\ Pricing.getPricing self "o9" =
       ([], Err "Pricing not found for model o9. Fuzzy matching is disabled; pass --allow-fuzzy-pricing to enable it.")
  /\ snd (Pricing.getPricing self "o9") <> Err (Pricing.fallbackFailedMessage "  " "o9")
  /\ forall msg, snd (Pricing.getPricing self "o9") = Err msg ->
                 JsString.includes msg "  " = false.
Proof.
repeat split; try discriminate.
intros msg [= <-]. reflexivity.
Qed.

Lemma normalizeModelPricing_per_million_witness :
  Pricing.getPricing (Samples.source false None [("gpt-5.3-codex", Samples.noCosts)])
    "gpt-5.3-codex" =
  ([], Err "Pricing for model gpt-5.3-codex is incomplete: input_cost_per_token and output_cost_per_token are required").
Proof.
exact (proj2 (proj2 (proj2 (proj2
  (normalizeModelPricing_per_million "gpt-5.3-codex"
     (Pricing.createResolvedPricing "gpt-5.3-codex" Samples.noCosts direct)))
  (or_introl eq_refl)))
  (Samples.source false None [("gpt-5.3-codex", Samples.noCosts)])
  [("gpt-5.3-codex", Samples.noCosts)] [] eq_refl eq_refl).
Defined.

Lemma getPricing_not_found_witness :
  Pricing.getPricing (Samples.source false None Samples.priceList) "o9" =
  ([], Err "Pricing not found for model o9. Fuzzy matching is disabled; pass --allow-fuzzy-pricing to enable it.").
Proof.
exact (proj1 (getPricing_not_found (Samples.source false None Samples.priceList)
  Samples.priceList "o9" eq_refl eq_refl eq_refl
  ltac:(discriminate) ltac:(discriminate))).
Defined.

(** C8, as stated, fails when fuzzy matching is enabled: the message then
    says nothing about fuzzy matching. *)
Lemma getPricing_not_found_fuzzy_counterexample :
  let self := Samples.source true None Samples.priceList in
  Pricing.getPricing self "o9" = ([], Err "Pricing not found for model o9")
  /\ forall msg, snd (Pricing.getPricing self "o9") = Err msg ->
       JsString.includes (JsString.toLowerCase msg) "fuzzy" = false.
Proof.
split; [reflexivity|]. intros msg [= <-]. reflexivity.
Qed.

(** ** Maps *)

Section MapProps.
Context {V : Type}.
Implicit Types (m : JsMap V) (k : string) (v : V).

Lemma Map_get_set_same m k v : Map_get (Map_set m k v) k = Some v.
Proof.
induction m as [|[k' v'] m IH]; simpl.
- rewrite String.eqb_refl. reflexivity.
- destruct (String.eqb k' k) eqn:E; simpl.
  + rewrite String.eqb_refl. reflexivity.
  + rewrite E. exact IH.
Qed.

Lemma Map_get_set_other m k k' v :
  k <> k' -> Map_get (Map_set m k v) k' = Map_get m k'.
Proof.
intros Hne. induction m as [|[k0 v0] m IH]; simpl.
- apply String.eqb_neq in Hne. rewrite Hne. reflexivity.
- destruct (String.eqb k0 k) eqn:E; simpl.
  + apply String.eqb_eq in E. subst k0.
    apply String.eqb_neq in Hne. rewrite Hne. reflexivity.
  + rewrite IH. reflexivity.
Qed.

Lemma Map_set_set m k v v' : Map_set (Map_set m k v) k v' = Map_set m k v'.
Proof.
induction m as [|[k0 v0] m IH]; simpl.
- rewrite String.eqb_refl. reflexivity.
- destruct (String.eqb k0 k) eqn:E; simpl.
  + rewrite String.eqb_refl. reflexivity.
  + rewrite E, IH. reflexivity.
Qed.

Lemma Map_has_In m k : Map_has m k = true <-> In k (Map_keys m).
Proof.
unfold Map_has. induction m as [|[k0 v0] m IH]; simpl.
- split; [discriminate | tauto].
- destruct (String.eqb k0 k) eqn:E.
  + apply String.eqb_eq in E. tauto.
  + apply String.eqb_neq in E. rewrite IH. tauto.
Qed.

Lemma Map_get_None m k : Map_get m k = None <-> ~ In k (Map_keys m).
Proof.
rewrite <- Map_has_In. unfold Map_has.
destruct (Map_get m k); split; try congruence; intros Hn; exfalso; auto.
Qed.

Lemma Map_get_In m k v : Map_get m k = Some v -> In (k, v) m.
Proof.
induction m as [|[k0 v0] m IH]; simpl; [discriminate|].
destruct (String.eqb k0 k) eqn:E.
- apply String.eqb_eq in E. intros [= ->]. subst. auto.
- auto.
Qed.

Lemma In_Map_get m k v : NoDup (Map_keys m) -> In (k, v) m -> Map_get m k = Some v.
Proof.
induction m as [|[k0 v0] m IH]; simpl; intros Hnd Hin; [destruct Hin|].
inversion Hnd as [|? ? Hnotin Hnd']; subst.
destruct Hin as [[= -> ->]|Hin].
- rewrite String.eqb_refl. reflexivity.
- destruct (String.eqb k0 k) eqn:E; [|auto].
  apply String.eqb_eq in E. subst k0. exfalso. apply Hnotin.
  change k with (fst (k, v)). apply in_map, Hin.
Qed.

Lemma Map_keys_set m k v :
  Map_keys (Map_set m k v) =
  if Map_has m k then Map_keys m else (Map_keys m ++ [k])%list.
Proof.
unfold Map_has. induction m as [|[k0 v0] m IH]; simpl; [reflexivity|].
destruct (String.eqb k0 k) eqn:E; simpl.
- apply String.eqb_eq in E. subst. reflexivity.
- rewrite IH. destruct (Map_get m k); reflexivity.
Qed.

Lemma Map_set_NoDup m k v : NoDup (Map_keys m) -> NoDup (Map_keys (Map_set m k v)).
Proof.
intros Hnd. rewrite Map_keys_set. destruct (Map_has m k) eqn:E; [exact Hnd|].
apply NoDup_app; [exact Hnd | repeat constructor; simpl; tauto |].
intros x Hx [<-|[]].
apply Map_has_In in Hx. congruence.
Qed.

Lemma Map_set_fresh m k v : Map_has m k = false -> Map_set m k v = (m ++ [(k, v)])%list.
Proof.
unfold Map_has. induction m as [|[k0 v0] m IH]; simpl; [reflexivity|].
destruct (String.eqb k0 k) eqn:E; [discriminate|].
intros Hm. rewrite IH; auto.
Qed.

End MapProps.

Lemma Map_has_existsb {V : Type} (m : JsMap V) (k : string) :
  Map_has m k = existsb (String.eqb k) (Map_keys m).
Proof.
unfold Map_has. induction m as [|[k0 v0] m IH]; simpl; [reflexivity|].
rewrite (String.eqb_sym k k0). destruct (String.eqb k0 k); [reflexivity | exact IH].
Qed.

Lemma Map_keys_Set_add {V : Type} (m : JsMap V) (k : string) (v : V) :
  Map_keys (Map_set m k v) = Set_add (Map_keys m) k.
Proof. rewrite Map_keys_set. unfold Set_add. rewrite Map_has_existsb. reflexivity. Qed.

Lemma filter_map_comm {A B : Type} (f : A -> B) (q : B -> bool) (l : list A) :
  filter q (map f l) = map f (filter (fun x => q (f x)) l).
Proof.
induction l as [|x l IH]; simpl; [reflexivity|].
rewrite IH. destruct (q (f x)); reflexivity.
Qed.

(** Filtering the entries of a [Map] by their values, seen on the keys. *)
Lemma Map_filter_keys {V : Type} (q : V -> bool) (m : JsMap V) :
  NoDup (Map_keys m) ->
  Map_keys (filter (fun entry => q (snd entry)) m) =
  filter (fun k => match Map_get m k with Some v => q v | None => false end)
         (Map_keys m).
Proof.
induction m as [|[k0 v0] m IH]; intros Hnd; [reflexivity|].
inversion Hnd as [|? ? Hk Hnd']; subst. specialize (IH Hnd').
cbn [filter Map_keys map fst snd Map_get]. rewrite String.eqb_refl.
assert (Hrest :
  filter (fun k => match (if String.eqb k0 k then Some v0 else Map_get m k) with
                   | Some v => q v
                   | None => false
                   end) (map fst m) =
  filter (fun k => match Map_get m k with Some v => q v | None => false end)
         (map fst m)).
{ apply filter_ext_in. intros k Hin.
  destruct (String.eqb k0 k) eqn:E; [|reflexivity].
  apply String.eqb_eq in E. subst k. contradiction. }
rewrite Hrest. unfold Map_keys in IH.
destruct (q v0); cbn [map fst]; rewrite IH; reflexivity.
Qed.

(** ** Sorting *)

Section SortProps.
Context {A : Type}.
Variable cmp : A -> A -> Z.
Local Abbreviation le := (fun a b : A => cmp a b <= 0).

Lemma sortInsert_perm (x : A) (l : list A) : Permutation (x :: l) (sortInsert cmp x l).
Proof.
induction l as [|y l IH]; simpl; [reflexivity|].
destruct (cmp x y <=? 0); [reflexivity|].
rewrite perm_swap. constructor. exact IH.
Qed.

Lemma Array_sort_perm (l : list A) : Permutation l (Array_sort cmp l).
Proof.
induction l as [|x l IH]; simpl; [reflexivity|].
rewrite <- sortInsert_perm. constructor. exact IH.
Qed.

Lemma Array_sort_In (x : A) (l : list A) : In x (Array_sort cmp l) <-> In x l.
Proof.
split; apply Permutation_in; [symmetry|]; apply Array_sort_perm.
Qed.

Hypothesis cmp_total : forall a b, cmp a b <= 0 \/ cmp b a <= 0.
Hypothesis cmp_trans : forall a b c, cmp a b <= 0 -> cmp b c <= 0 -> cmp a c <= 0.

Lemma sortInsert_sorted (x : A) (l : list A) :
  StronglySorted le l -> StronglySorted le (sortInsert cmp x l).
Proof.
induction 1 as [|y l Hs IH Hall]; simpl; [repeat constructor|].
destruct (cmp x y <=? 0) eqn:E.
- apply Z.leb_le in E. constructor; [constructor; assumption|].
  constructor; [exact E|].
  eapply Forall_impl; [|exact Hall]. intros z Hz. exact (cmp_trans _ _ _ E Hz).
- apply Z.leb_gt in E. constructor; [exact IH|].
  apply (Permutation_Forall (sortInsert_perm x l)).
  constructor; [|exact Hall].
  destruct (cmp_total y x) as [Hyx|Hxy]; [exact Hyx | lia].
Qed.

Lemma Array_sort_sorted (l : list A) : StronglySorted le (Array_sort cmp l).
Proof.
induction l as [|x l IH]; simpl; [constructor|]. apply sortInsert_sorted, IH.
Qed.

(** The sort is stable: elements that tie keep the order they have in the
    input.  [q] picks elements that are pairwise in order, as the members of
    a class of tied elements are. *)
Lemma sortInsert_filter (q : A -> bool) (x : A) (l : list A) :
  (forall a b, q a = true -> q b = true -> cmp a b <= 0) ->
  filter q (sortInsert cmp x l) = filter q (x :: l).
Proof.
intros Hq. induction l as [|y r IH]; [reflexivity|].
cbn [sortInsert]. destruct (cmp x y <=? 0) eqn:E; [reflexivity|].
apply Z.leb_gt in E. cbn [filter] in *. rewrite IH.
destruct (q x) eqn:Ex; [|reflexivity].
destruct (q y) eqn:Ey; [|reflexivity].
specialize (Hq x y Ex Ey). lia.
Qed.

Lemma Array_sort_filter (q : A -> bool) (l : list A) :
  (forall a b, q a = true -> q b = true -> cmp a b <= 0) ->
  filter q (Array_sort cmp l) = filter q l.
Proof.
intros Hq. induction l as [|x l IH]; [reflexivity|].
change (Array_sort cmp (x :: l)) with (sortInsert cmp x (Array_sort cmp l)).
rewrite (sortInsert_filter q x _ Hq). cbn [filter]. rewrite IH. reflexivity.
Qed.

(** Two sorted arrangements of the same elements coincide when no two
    distinct elements tie. *)
Lemma sorted_perm_unique (l l' : list A) :
  (forall a b, In a l -> In b l -> cmp a b <= 0 -> cmp b a <= 0 -> a = b) ->
  StronglySorted le l -> StronglySorted le l' -> Permutation l l' -> l = l'.
Proof.
revert l'. induction l as [|x l IH]; intros l' Hanti Hs Hs' Hp.
- apply Permutation_nil in Hp. congruence.
- destruct l' as [|y l']; [apply Permutation_sym, Permutation_nil in Hp; discriminate|].
  inversion Hs as [|? ? Hsl Hxl]; subst. inversion Hs' as [|? ? Hsl' Hyl']; subst.
  assert (Hxy : x = y).
  { assert (Hy : In y (x :: l)) by (eapply Permutation_in; [symmetry; exact Hp | left; reflexivity]).
    assert (Hx : In x (y :: l')) by (eapply Permutation_in; [exact Hp | left; reflexivity]).
    destruct Hy as [->|Hy]; [reflexivity|]. destruct Hx as [->|Hx]; [reflexivity|].
    apply Hanti; [left; reflexivity | right; exact Hy | |].
    - rewrite Forall_forall in Hxl. exact (Hxl y Hy).
    - rewrite Forall_forall in Hyl'. exact (Hyl' x Hx). }
  subst y. f_equal. apply IH; auto.
  + intros a b Ha Hb. apply Hanti; right; assumption.
  + exact (Permutation_cons_inv Hp).
Qed.

Lemma Array_sort_perm_unique (l l' : list A) :
  (forall a b, In a l -> In b l -> cmp a b <= 0 -> cmp b a <= 0 -> a = b) ->
  Permutation l l' -> Array_sort cmp l = Array_sort cmp l'.
Proof.
intros Hanti Hp. apply sorted_perm_unique; try apply Array_sort_sorted.
- intros a b Ha Hb. apply Hanti; apply Array_sort_In; assumption.
- rewrite <- (Array_sort_perm l), <- (Array_sort_perm l'). exact Hp.
Qed.

End SortProps.

Lemma Array_sort_map {A B : Type} (f : A -> B) (cmp : B -> B -> Z) (l : list A) :
  map f (Array_sort (fun a b => cmp (f a) (f b)) l) = Array_sort cmp (map f l).
Proof.
induction l as [|x l IH]; simpl; [reflexivity|].
rewrite <- IH. generalize (Array_sort (fun a b => cmp (f a) (f b)) l).
intros s. induction s as [|y s IHs]; simpl; [reflexivity|].
destruct (cmp (f x) (f y) <=? 0); simpl; [reflexivity|]. rewrite IHs. reflexivity.
Qed.

(** ** Token sums *)

Lemma addUsage_comm (a b : TokenUsageDelta) : addUsage a b = addUsage b a.
Proof. unfold addUsage. f_equal; lia. Qed.

Lemma addUsage_assoc (a b c : TokenUsageDelta) :
  addUsage (addUsage a b) c = addUsage a (addUsage b c).
Proof. unfold addUsage. simpl. f_equal; lia. Qed.

Lemma addUsage_empty_l (a : TokenUsageDelta) : addUsage createEmptyUsage a = a.
Proof. destruct a. unfold addUsage. simpl. reflexivity. Qed.

Lemma addUsage_empty_r (a : TokenUsageDelta) : addUsage a createEmptyUsage = a.
Proof. rewrite addUsage_comm. apply addUsage_empty_l. Qed.

Lemma sumUsage_app (es es' : list TokenUsageEvent) :
  sumUsage (es ++ es') = addUsage (sumUsage es) (sumUsage es').
Proof.
induction es as [|e es IH]; simpl.
- rewrite addUsage_empty_l. reflexivity.
- rewrite IH, addUsage_assoc. reflexivity.
Qed.

Lemma sumUsage_perm (es es' : list TokenUsageEvent) :
  Permutation es es' -> sumUsage es = sumUsage es'.
Proof.
induction 1 as [|e es es' _ IH|e e' es|es es' es'' _ IH1 _ IH2]; simpl.
- reflexivity.
- rewrite IH. reflexivity.
- rewrite <- !addUsage_assoc. f_equal. apply addUsage_comm.
- congruence.
Qed.

Lemma filter_perm {A : Type} (f : A -> bool) (l l' : list A) :
  Permutation l l' -> Permutation (filter f l) (filter f l').
Proof.
induction 1 as [|x l l' _ IH|x y l|l l' l'' _ IH1 _ IH2]; simpl.
- constructor.
- destruct (f x); [constructor|]; exact IH.
- destruct (f x), (f y); try reflexivity. apply perm_swap.
- etransitivity; eassumption.
Qed.

(** ** The accumulation engine *)

Section EngineProps.
Context {S : Type}.
Variable classify : TokenUsageEvent -> option (string * string).
Variable create : string -> string -> S.
Variable bump : S -> TokenUsageEvent -> string -> S.

Local Abbreviation step := (Engine.step classify create bump).
Local Abbreviation accumulate := (Engine.accumulate classify create bump).
Local Abbreviation inGroup := (Engine.inGroup classify).
Local Abbreviation modelOf := (Engine.modelOf classify).
Local Abbreviation replayFrom := (Engine.replayFrom classify bump).
Local Abbreviation replay := (Engine.replay classify create bump).

Lemma step_skip (st : JsMap S) (e : TokenUsageEvent) :
  classify e = None -> step st e = st.
Proof. unfold Engine.step. intros ->. reflexivity. Qed.

Lemma step_get (st : JsMap S) (e : TokenUsageEvent) (k : string) :
  Map_get (step st e) k =
  if inGroup k e
  then Some (bump (match Map_get st k with
                   | Some s => s
                   | None => create k (timestamp e)
                   end) e (modelOf e))
  else Map_get st k.
Proof.
unfold Engine.step, Engine.inGroup, Engine.modelOf.
destruct (classify e) as [[k' m]|]; [|reflexivity].
destruct (String.eqb k' k) eqn:E.
- apply String.eqb_eq in E. subst. apply Map_get_set_same.
- apply String.eqb_neq in E. apply Map_get_set_other, E.
Qed.

Lemma fold_step_get (evs : list TokenUsageEvent) (st : JsMap S) (k : string) :
  Map_get (fold_left step evs st) k =
  match Map_get st k with
  | Some s => Some (replayFrom s (filter (inGroup k) evs))
  | None => replay k (filter (inGroup k) evs)
  end.
Proof.
revert st. induction evs as [|e evs IH]; intros st; simpl.
- destruct (Map_get st k); reflexivity.
- rewrite IH, step_get. destruct (inGroup k e); simpl.
  + destruct (Map_get st k); reflexivity.
  + reflexivity.
Qed.

Lemma accumulate_get (evs : list TokenUsageEvent) (k : string) :
  Map_get (accumulate evs) k = replay k (filter (inGroup k) evs).
Proof. unfold Engine.accumulate. rewrite fold_step_get. reflexivity. Qed.

Lemma step_NoDup (st : JsMap S) (e : TokenUsageEvent) :
  NoDup (Map_keys st) -> NoDup (Map_keys (step st e)).
Proof.
unfold Engine.step. destruct (classify e) as [[k m]|]; [|auto].
apply Map_set_NoDup.
Qed.

Lemma accumulate_NoDup (evs : list TokenUsageEvent) : NoDup (Map_keys (accumulate evs)).
Proof.
unfold Engine.accumulate.
assert (Hg : forall st, NoDup (Map_keys st) -> NoDup (Map_keys (fold_left step evs st))).
{ induction evs as [|e evs IH]; intros st Hst; simpl; [exact Hst|].
  apply IH, step_NoDup, Hst. }
apply Hg. constructor.
Qed.

Lemma accumulate_In (evs : list TokenUsageEvent) (k : string) (s : S) :
  In (k, s) (accumulate evs) <-> replay k (filter (inGroup k) evs) = Some s.
Proof.
rewrite <- accumulate_get. split.
- apply In_Map_get, accumulate_NoDup.
- apply Map_get_In.
Qed.

Lemma replay_Some (k : string) (es : list TokenUsageEvent) :
  es <> [] -> exists s, replay k es = Some s.
Proof. destruct es; [congruence|]. intros _. eexists. reflexivity. Qed.

Lemma accumulate_key_iff (evs : list TokenUsageEvent) (k : string) :
  In k (Map_keys (accumulate evs)) <->
  exists e, In e evs /\ inGroup k e = true.
Proof.
rewrite <- Map_has_In. unfold Map_has. rewrite accumulate_get.
destruct (filter (inGroup k) evs) as [|e es] eqn:E; simpl.
- split; [discriminate|]. intros (e & He & Hg).
  assert (Hin : In e (filter (inGroup k) evs)) by (apply filter_In; auto).
  rewrite E in Hin. destruct Hin.
- split; [|reflexivity]. intros _. exists e. apply filter_In. rewrite E. left. reflexivity.
Qed.

(** *** Summaries through their projections *)

Variable skey : S -> string.
Variable susage : S -> TokenUsageDelta.
Hypothesis create_key : forall k t, skey (create k t) = k.
Hypothesis bump_key : forall s e m, skey (bump s e m) = skey s.
Hypothesis create_usage : forall k t, susage (create k t) = createEmptyUsage.
Hypothesis bump_usage :
  forall s e m, susage (bump s e m) = addUsage (susage s) (ev_usage e).

Lemma replayFrom_key (s : S) (es : list TokenUsageEvent) :
  skey (replayFrom s es) = skey s.
Proof.
revert s. induction es as [|e es IH]; intros s; simpl; [reflexivity|].
rewrite IH. apply bump_key.
Qed.

Lemma replayFrom_usage (s : S) (es : list TokenUsageEvent) :
  susage (replayFrom s es) = addUsage (susage s) (sumUsage es).
Proof.
revert s. induction es as [|e es IH]; intros s; simpl.
- rewrite addUsage_empty_r. reflexivity.
- rewrite IH, bump_usage, addUsage_assoc. reflexivity.
Qed.

Lemma replay_key_usage (k : string) (es : list TokenUsageEvent) (s : S) :
  replay k es = Some s -> skey s = k /\ susage s = sumUsage es.
Proof.
destruct es as [|e es]; [discriminate|]. intros Hs.
assert (Es : s = replayFrom (create k (timestamp e)) (e :: es))
  by (unfold Engine.replay in Hs; congruence).
rewrite Es. split.
- rewrite replayFrom_key. apply create_key.
- rewrite replayFrom_usage, create_usage, addUsage_empty_l. reflexivity.
Qed.

Lemma accumulate_values_keys (evs : list TokenUsageEvent) :
  map skey (Map_values (accumulate evs)) = Map_keys (accumulate evs).
Proof.
unfold Map_values, Map_keys. rewrite map_map. apply map_ext_in.
intros [k s] Hin. simpl. apply accumulate_In in Hin.
apply replay_key_usage in Hin. tauto.
Qed.

End EngineProps.

(** ** Per-model usage *)

Lemma Map_set_after_ensure {V : Type} (m : JsMap V) (k : string) (v v' : V) :
  Map_set (if negb (Map_has m k) then Map_set m k v else m) k v' = Map_set m k v'.
Proof. destruct (Map_has m k); simpl; [reflexivity | apply Map_set_set]. Qed.

Lemma sumModelUsage_touch (g : ModelUsage -> ModelUsage) (d : TokenUsageDelta)
    (u0 : ModelUsage) (m : string) :
  (forall u, mu_usage (g u) = addUsage (mu_usage u) d) ->
  mu_usage u0 = createEmptyUsage ->
  forall ms,
    sumModelUsage
      (Map_set ms m (g (match Map_get ms m with Some u => u | None => u0 end))) =
    addUsage (sumModelUsage ms) d.
Proof.
intros Hg H0 ms. induction ms as [|[k0 v0] ms IH]; simpl.
- rewrite Hg, H0, addUsage_empty_l, addUsage_empty_r. reflexivity.
- destruct (String.eqb k0 m) eqn:E; simpl.
  + rewrite Hg, !addUsage_assoc. f_equal. apply addUsage_comm.
  + rewrite IH, addUsage_assoc. reflexivity.
Qed.

Lemma addModelUsage_sum (ms : JsMap ModelUsage) (m : string) (e : TokenUsageEvent) :
  sumModelUsage (Reports.addModelUsage ms m e) =
  addUsage (sumModelUsage ms) (ev_usage e).
Proof.
unfold Reports.addModelUsage. cbv zeta. rewrite Map_set_after_ensure.
apply (sumModelUsage_touch
  (fun u =>
     match isFallbackModel e with
     | Some true =>
         {| mu_usage := addUsage (mu_usage u) (ev_usage e); isFallback := Some true;
            mu_pricingResolution := mu_pricingResolution u;
            mu_pricingModel := mu_pricingModel u |}
     | _ =>
         {| mu_usage := addUsage (mu_usage u) (ev_usage e); isFallback := isFallback u;
            mu_pricingResolution := mu_pricingResolution u;
            mu_pricingModel := mu_pricingModel u |}
     end)).
- intros u. destruct (isFallbackModel e) as [[|]|]; reflexivity.
- reflexivity.
Qed.

Lemma addModelUsage_keys (ms : JsMap ModelUsage) (m : string) (e : TokenUsageEvent) :
  Map_keys (Reports.addModelUsage ms m e) =
  if Map_has ms m then Map_keys ms else (Map_keys ms ++ [m])%list.
Proof.
unfold Reports.addModelUsage. cbv zeta. rewrite Map_set_after_ensure.
apply Map_keys_set.
Qed.

Lemma addModelUsage_NoDup (ms : JsMap ModelUsage) (m : string) (e : TokenUsageEvent) :
  NoDup (Map_keys ms) -> NoDup (Map_keys (Reports.addModelUsage ms m e)).
Proof.
unfold Reports.addModelUsage. cbv zeta. rewrite Map_set_after_ensure.
apply Map_set_NoDup.
Qed.

Lemma addModelUsage_In (ms : JsMap ModelUsage) (m x : string) (e : TokenUsageEvent) :
  In x (Map_keys (Reports.addModelUsage ms m e)) <-> In x (Map_keys ms) \/ x = m.
Proof.
rewrite addModelUsage_keys. destruct (Map_has ms m) eqn:E.
- apply Map_has_In in E. split; [tauto|]. intros [Hx| ->]; assumption.
- rewrite in_app_iff. simpl. intuition.
Qed.

Section EngineModels.
Context {S : Type}.
Variable classify : TokenUsageEvent -> option (string * string).
Variable create : string -> string -> S.
Variable bump : S -> TokenUsageEvent -> string -> S.
Variable smodels : S -> JsMap ModelUsage.
Hypothesis create_models : forall k t, smodels (create k t) = [].
Hypothesis bump_models :
  forall s e m, smodels (bump s e m) = Reports.addModelUsage (smodels s) m e.

Local Abbreviation modelOf := (Engine.modelOf classify).
Local Abbreviation replayFrom := (Engine.replayFrom classify bump).
Local Abbreviation replay := (Engine.replay classify create bump).

Lemma replayFrom_models_sum (s : S) (es : list TokenUsageEvent) :
  sumModelUsage (smodels (replayFrom s es)) =
  addUsage (sumModelUsage (smodels s)) (sumUsage es).
Proof.
revert s. induction es as [|e es IH]; intros s; simpl.
- rewrite addUsage_empty_r. reflexivity.
- rewrite IH, bump_models, addModelUsage_sum, addUsage_assoc. reflexivity.
Qed.

Lemma replayFrom_models_NoDup (s : S) (es : list TokenUsageEvent) :
  NoDup (Map_keys (smodels s)) -> NoDup (Map_keys (smodels (replayFrom s es))).
Proof.
revert s. induction es as [|e es IH]; intros s Hs; simpl; [exact Hs|].
apply IH. rewrite bump_models. apply addModelUsage_NoDup, Hs.
Qed.

Lemma replayFrom_models_In (s : S) (es : list TokenUsageEvent) (x : string) :
  In x (Map_keys (smodels (replayFrom s es))) <->
  In x (Map_keys (smodels s)) \/ exists e, In e es /\ modelOf e = x.
Proof.
revert s. induction es as [|e es IH]; intros s; simpl.
- split; [tauto|]. intros [Hx|(e & [] & _)]. exact Hx.
- rewrite IH, bump_models, addModelUsage_In. split.
  + intros [[Hx| ->]|(e' & He' & Hm)]; eauto.
  + intros [Hx|(e' & [<-|He'] & Hm)]; eauto.
Qed.

Lemma replay_models (k : string) (es : list TokenUsageEvent) (s : S) :
  replay k es = Some s ->
  sumModelUsage (smodels s) = sumUsage es /\
  NoDup (Map_keys (smodels s)) /\
  forall x, In x (Map_keys (smodels s)) <-> exists e, In e es /\ modelOf e = x.
Proof.
destruct es as [|e es]; [discriminate|]. intros Hs.
assert (Es : s = replayFrom (create k (timestamp e)) (e :: es))
  by (unfold Engine.replay in Hs; congruence).
rewrite Es. split; [|split].
- rewrite replayFrom_models_sum, create_models. simpl.
  rewrite addUsage_empty_l. reflexivity.
- apply replayFrom_models_NoDup. rewrite create_models. constructor.
- intros x. rewrite replayFrom_models_In, create_models. simpl. tauto.
Qed.

End EngineModels.

(** ** The three loops are the engine *)

Lemma fold_left_ext_eq {A B : Type} (f g : A -> B -> A) (l : list B) (a : A) :
  (forall x y, f x y = g x y) -> fold_left f l a = fold_left g l a.
Proof.
intros Hfg. revert a. induction l as [|y l IH]; intros a; simpl; [reflexivity|].
rewrite Hfg. apply IH.
Qed.

Section ReportProps.
Context {F : Type} `{Number F} `{Host}.
Import Reports Instances.

Local Abbreviation dailyEngine options :=
  (Engine.accumulate (classifyDaily options) createDailySummary bumpDaily).
Local Abbreviation monthlyEngine options :=
  (Engine.accumulate (classifyMonthly options) createMonthlySummary bumpMonthly).
Local Abbreviation sessionEngine options :=
  (Engine.accumulate (classifySession options) createSessionSummary bumpSession).

Lemma dailyStep_engine (options : ReportOptions F) (st : JsMap (DailyUsageSummary F))
    (e : TokenUsageEvent) :
  dailyStep options st e =
  Engine.step (classifyDaily options) createDailySummary bumpDaily st e.
Proof.
unfold dailyStep, Engine.step, classifyDaily, contributes, nonBlank, inRange, dayKey, trimmed.
destruct (model e) as [m|]; simpl; [|reflexivity].
destruct (String.eqb (JsString.trim m) ""); simpl; [reflexivity|].
destruct (isWithinRange _ _ _); simpl; [|reflexivity].
apply Map_set_after_ensure.
Qed.

Lemma monthlyStep_engine (options : ReportOptions F) (st : JsMap (MonthlyUsageSummary F))
    (e : TokenUsageEvent) :
  monthlyStep options st e =
  Engine.step (classifyMonthly options) createMonthlySummary bumpMonthly st e.
Proof.
unfold monthlyStep, Engine.step, classifyMonthly, contributes, nonBlank, inRange,
  monthKey, trimmed.
destruct (model e) as [m|]; simpl; [|reflexivity].
destruct (String.eqb (JsString.trim m) ""); simpl; [reflexivity|].
destruct (isWithinRange _ _ _); simpl; [|reflexivity].
apply Map_set_after_ensure.
Qed.

Lemma sessionStep_engine (options : ReportOptions F) (st : JsMap (SessionUsageSummary F))
    (e : TokenUsageEvent) :
  sessionStep options st e =
  Engine.step (classifySession options) createSessionSummary bumpSession st e.
Proof.
unfold sessionStep, Engine.step, classifySession, contributesSession, nonBlank, inRange,
  sessionKey, trimmed.
destruct (sessionId e) as [sid|]; simpl; [|reflexivity].
destruct (String.eqb (JsString.trim sid) ""); simpl; [reflexivity|].
destruct (model e) as [m|]; simpl; [|reflexivity].
destruct (String.eqb (JsString.trim m) ""); simpl; [reflexivity|].
destruct (isWithinRange _ _ _); simpl; [|reflexivity].
apply Map_set_after_ensure.
Qed.

Lemma dailySummaries_engine (options : ReportOptions F) (events : list TokenUsageEvent) :
  dailySummaries events options = dailyEngine options events.
Proof. apply fold_left_ext_eq, dailyStep_engine. Qed.

Lemma monthlySummaries_engine (options : ReportOptions F) (events : list TokenUsageEvent) :
  monthlySummaries events options = monthlyEngine options events.
Proof. apply fold_left_ext_eq, monthlyStep_engine. Qed.

Lemma sessionSummaries_engine (options : ReportOptions F) (events : list TokenUsageEvent) :
  sessionSummaries events options = sessionEngine options events.
Proof. apply fold_left_ext_eq, sessionStep_engine. Qed.

Lemma inGroup_daily (options : ReportOptions F) (k : string) (e : TokenUsageEvent) :
  Engine.inGroup (classifyDaily options) k e =
  contributes options e && String.eqb (dayKey options e) k.
Proof. unfold Engine.inGroup, classifyDaily. destruct (contributes options e); reflexivity. Qed.

Lemma inGroup_monthly (options : ReportOptions F) (k : string) (e : TokenUsageEvent) :
  Engine.inGroup (classifyMonthly options) k e =
  contributes options e && String.eqb (monthKey options e) k.
Proof. unfold Engine.inGroup, classifyMonthly. destruct (contributes options e); reflexivity. Qed.

Lemma inGroup_session (options : ReportOptions F) (k : string) (e : TokenUsageEvent) :
  Engine.inGroup (classifySession options) k e =
  contributesSession options e && String.eqb (sessionKey e) k.
Proof.
unfold Engine.inGroup, classifySession. destruct (contributesSession options e); reflexivity.
Qed.

(** What the accumulated map holds under a key: nothing when no event of
    the group counts, and otherwise a summary with the given projections of
    the replayed group. *)
Lemma engine_lookup {S : Type} (classify : TokenUsageEvent -> option (string * string))
    (create : string -> string -> S) (bump : S -> TokenUsageEvent -> string -> S)
    (skey : S -> string) (susage : S -> TokenUsageDelta)
    (evs : list TokenUsageEvent) (k : string) :
  (forall k t, skey (create k t) = k) ->
  (forall s e m, skey (bump s e m) = skey s) ->
  (forall k t, susage (create k t) = createEmptyUsage) ->
  (forall s e m, susage (bump s e m) = addUsage (susage s) (ev_usage e)) ->
  match Map_get (Engine.accumulate classify create bump evs) k with
  | Some s =>
      filter (Engine.inGroup classify k) evs <> [] /\
      skey s = k /\
      susage s = sumUsage (filter (Engine.inGroup classify k) evs)
  | None => filter (Engine.inGroup classify k) evs = []
  end.
Proof.
intros H1 H2 H3 H4. rewrite accumulate_get.
destruct (Engine.replay classify create bump k (filter (Engine.inGroup classify k) evs))
  as [s|] eqn:E.
- destruct (replay_key_usage classify create bump skey susage H1 H2 H3 H4 _ _ _ E).
  repeat split; auto. intros Hnil. rewrite Hnil in E. discriminate.
- destruct (filter (Engine.inGroup classify k) evs); [reflexivity | discriminate].
Qed.

(** C5.  An event is added to a summary exactly when its model name is
    present and not blank after trimming, (session grouping) its session id
    is present and not blank after trimming, and its day key passes the
    inclusive [since, until] filter.  An event that fails the test leaves
    the summaries as they are; one that passes adds its delta to the summary
    of its group.  For day, month and session grouping alike, the summary of
    a group holds the sum of exactly the events of that group that pass the
    test, and a group none of whose events passes has no summary. *)
Theorem events_contribute_iff (options : ReportOptions F)
    (events : list TokenUsageEvent) :
  (forall e,
      contributes options e =
        nonBlank (model e)
        && isWithinRange (toDateKey (timestamp e) (timezone options))
                         (since options) (until options)
      /\ contributesSession options e =
           nonBlank (sessionId e) && nonBlank (model e)
           && isWithinRange (toDateKey (timestamp e) (timezone options))
                            (since options) (until options))
  /\ (forall e st, contributes options e = false -> dailyStep options st e = st)
  /\ (forall e st, contributes options e = false -> monthlyStep options st e = st)
  /\ (forall e st, contributesSession options e = false -> sessionStep options st e = st)
  /\ (forall e st, contributes options e = true ->
        exists s, Map_get (dailyStep options st e) (dayKey options e) = Some s /\
          ds_usage s =
            addUsage (match Map_get st (dayKey options e) with
                      | Some s0 => ds_usage s0
                      | None => createEmptyUsage
                      end) (ev_usage e))
  /\ (forall e st, contributes options e = true ->
        exists s, Map_get (monthlyStep options st e) (monthKey options e) = Some s /\
          ms_usage s =
            addUsage (match Map_get st (monthKey options e) with
                      | Some s0 => ms_usage s0
                      | None => createEmptyUsage
                      end) (ev_usage e))
  /\ (forall e st, contributesSession options e = true ->
        exists s, Map_get (sessionStep options st e) (sessionKey e) = Some s /\
          ss_usage s =
            addUsage (match Map_get st (sessionKey e) with
                      | Some s0 => ss_usage s0
                      | None => createEmptyUsage
                      end) (ev_usage e))
  /\ (forall k,
        let group :=
          filter (fun e => contributes options e && String.eqb (dayKey options e) k)
                 events in
        match Map_get (dailySummaries events options) k with
        | Some s => group <> [] /\ date s = k /\ ds_usage s = sumUsage group
        | None => group = []
        end)
  /\ (forall k,
        let group :=
          filter (fun e => contributes options e && String.eqb (monthKey options e) k)
                 events in
        match Map_get (monthlySummaries events options) k with
        | Some s => group <> [] /\ month s = k /\ ms_usage s = sumUsage group
        | None => group = []
        end)
  /\ (forall k,
        let group :=
          filter (fun e => contributesSession options e && String.eqb (sessionKey e) k)
                 events in
        match Map_get (sessionSummaries events options) k with
        | Some s => group <> [] /\ ss_sessionId s = k /\ ss_usage s = sumUsage group
        | None => group = []
        end).
Proof.
split; [intros e; split; reflexivity|].
split. { intros e st He. rewrite dailyStep_engine. apply step_skip.
         unfold classifyDaily. rewrite He. reflexivity. }
split. { intros e st He. rewrite monthlyStep_engine. apply step_skip.
         unfold classifyMonthly. rewrite He. reflexivity. }
split. { intros e st He. rewrite sessionStep_engine. apply step_skip.
         unfold classifySession. rewrite He. reflexivity. }
split. { intros e st He. rewrite dailyStep_engine, step_get, inGroup_daily, He.
         rewrite String.eqb_refl. simpl. eexists. split; [reflexivity|].
         destruct (Map_get st (dayKey options e)); reflexivity. }
split. { intros e st He. rewrite monthlyStep_engine, step_get, inGroup_monthly, He.
         rewrite String.eqb_refl. simpl. eexists. split; [reflexivity|].
         destruct (Map_get st (monthKey options e)); reflexivity. }
split. { intros e st He. rewrite sessionStep_engine, step_get, inGroup_session, He.
         rewrite String.eqb_refl. simpl. eexists. split; [reflexivity|].
         destruct (Map_get st (sessionKey e)); reflexivity. }
split; [|split].
- intros k group. rewrite dailySummaries_engine.
  unfold group. rewrite <- (filter_ext _ _ (inGroup_daily options k)).
  apply (engine_lookup _ _ _ date ds_usage); reflexivity.
- intros k group. rewrite monthlySummaries_engine.
  unfold group. rewrite <- (filter_ext _ _ (inGroup_monthly options k)).
  apply (engine_lookup _ _ _ month ms_usage); reflexivity.
- intros k group. rewrite sessionSummaries_engine.
  unfold group. rewrite <- (filter_ext _ _ (inGroup_session options k)).
  apply (engine_lookup _ _ _ ss_sessionId ss_usage); reflexivity.
Qed.

End ReportProps.

(** ** Pricing of the models of a report *)

Lemma Set_add_In (s : list string) (x y : string) :
  In y (Set_add s x) <-> In y s \/ y = x.
Proof.
unfold Set_add. destruct (existsb (String.eqb x) s) eqn:E.
- apply existsb_exists in E. destruct E as (z & Hz & Ez).
  apply String.eqb_eq in Ez. subst z. split; [tauto|]. intros [Hy| ->]; assumption.
- rewrite in_app_iff. simpl. intuition.
Qed.

Lemma fold_Set_add_In (l acc : list string) (y : string) :
  In y (fold_left Set_add l acc) <-> In y acc \/ In y l.
Proof.
revert acc. induction l as [|x l IH]; intros acc; simpl; [tauto|].
rewrite IH, Set_add_In. intuition.
Qed.

Lemma uniqueModelsOf_In {S : Type} (modelsOf : S -> JsMap ModelUsage)
    (summaries : JsMap S) (y : string) :
  In y (Reports.uniqueModelsOf modelsOf summaries) <->
  exists s, In s (Map_values summaries) /\ In y (Map_keys (modelsOf s)).
Proof.
unfold Reports.uniqueModelsOf.
assert (Hg : forall l acc,
  In y (fold_left (fun u s => fold_left Set_add (Map_keys (modelsOf s)) u) l acc) <->
  In y acc \/ exists s, In s l /\ In y (Map_keys (modelsOf s))).
{ induction l as [|s l IH]; intros acc; simpl.
  - split; [tauto|]. intros [Hy|(s & [] & _)]. exact Hy.
  - rewrite IH, fold_Set_add_In. split.
    + intros [[Hy|Hy]|(s' & Hs' & Hy)]; eauto.
    + intros [Hy|(s' & [<-|Hs'] & Hy)]; eauto. }
rewrite Hg. simpl. tauto.
Qed.

Section ResolveProps.
Context {F : Type}.
Variable source : PricingSource F.

Lemma resolveModels_spec (names : list string) :
  forall acc mp,
    (forall m p, Map_get acc m = Some p -> source m = Ok p) ->
    Reports.resolveModels source names acc = Ok mp ->
    (forall m p, Map_get mp m = Some p -> source m = Ok p) /\
    (forall m, In m names -> Map_get mp m <> None) /\
    (forall m, Map_get acc m <> None -> Map_get mp m <> None).
Proof.
induction names as [|n names IH]; intros acc mp Hacc; simpl.
- intros [= <-]. repeat split; auto.
- destruct (source n) as [p|msg] eqn:En; [|discriminate]. intros Hres.
  assert (Hacc' : forall m q, Map_get (Map_set acc n p) m = Some q -> source m = Ok q).
  { intros m q. destruct (string_dec n m) as [<-|Hne].
    - rewrite Map_get_set_same. congruence.
    - rewrite (Map_get_set_other _ _ _ _ Hne). apply Hacc. }
  destruct (IH _ _ Hacc' Hres) as (H1 & H2 & H3). repeat split; auto.
  + intros m [<-|Hm]; [|auto]. apply H3. rewrite Map_get_set_same. discriminate.
  + intros m Hm. apply H3. destruct (string_dec n m) as [<-|Hne].
    * rewrite Map_get_set_same. discriminate.
    * rewrite (Map_get_set_other _ _ _ _ Hne). exact Hm.
Qed.

Lemma resolveModels_get (names : list string) (mp : JsMap (ModelPricing F)) (m : string) :
  Reports.resolveModels source names [] = Ok mp -> In m names ->
  exists p, source m = Ok p /\ Map_get mp m = Some p.
Proof.
intros Hres Hm.
destruct (resolveModels_spec names [] mp) as (H1 & H2 & _); auto; [discriminate|].
specialize (H2 m Hm). destruct (Map_get mp m) as [p|] eqn:E; [|congruence].
exists p. auto.
Qed.

Lemma resolveModels_ok (names : list string) :
  forall acc,
    (forall m, In m names -> exists p, source m = Ok p) ->
    exists mp, Reports.resolveModels source names acc = Ok mp.
Proof.
induction names as [|n names IH]; intros acc Hall; simpl; [eauto|].
destruct (Hall n (or_introl eq_refl)) as (p & ->). apply IH.
intros m Hm. apply Hall. right. exact Hm.
Qed.

End ResolveProps.

(** ** Plain objects *)

Section ObjectProps.
Context {V : Type}.
Implicit Types (o : JsMap V) (k : string) (v : V).

Lemma Object_insertIndex_get_other o i k k' v :
  k <> k' -> Map_get (Object_insertIndex o i k v) k' = Map_get o k'.
Proof.
intros Hne. apply String.eqb_neq in Hne.
induction o as [|[k0 v0] o IH]; simpl.
- rewrite Hne. reflexivity.
- destruct (arrayIndex k0) as [j|]; [destruct (i <? j)%N|]; simpl.
  + rewrite Hne. reflexivity.
  + rewrite IH. reflexivity.
  + rewrite Hne. reflexivity.
Qed.

Lemma Object_insertIndex_get_same o i k v :
  Map_get o k = None -> Map_get (Object_insertIndex o i k v) k = Some v.
Proof.
induction o as [|[k0 v0] o IH]; simpl.
- intros _. rewrite String.eqb_refl. reflexivity.
- destruct (String.eqb k0 k) eqn:E; [discriminate|]. intros Hnone.
  destruct (arrayIndex k0) as [j|]; [destruct (i <? j)%N|]; simpl.
  + rewrite String.eqb_refl. reflexivity.
  + rewrite E. apply IH, Hnone.
  + rewrite String.eqb_refl. reflexivity.
Qed.

Lemma Object_insertIndex_perm o i k v :
  Permutation ((k, v) :: o) (Object_insertIndex o i k v).
Proof.
induction o as [|[k0 v0] o IH]; simpl; [apply Permutation_refl|].
destruct (arrayIndex k0) as [j|]; [destruct (i <? j)%N|]; try apply Permutation_refl.
eapply perm_trans; [apply perm_swap|]. apply perm_skip, IH.
Qed.

(** Reading a property after an assignment. *)
Lemma Object_set_get o k v k' :
  Map_get (Object_set o k v) k' =
  if String.eqb k "__proto__" then Map_get o k'
  else if String.eqb k k' then Some v else Map_get o k'.
Proof.
unfold Object_set. destruct (String.eqb k "__proto__"); [reflexivity|].
destruct (String.eqb k k') eqn:E.
- apply String.eqb_eq in E. subst k'.
  destruct (Map_has o k) eqn:Eh; [apply Map_get_set_same|].
  destruct (arrayIndex k) as [i|].
  + apply Object_insertIndex_get_same. unfold Map_has in Eh.
    destruct (Map_get o k); [discriminate | reflexivity].
  + rewrite <- (Map_set_fresh _ _ _ Eh). apply Map_get_set_same.
- apply String.eqb_neq in E.
  destruct (Map_has o k) eqn:Eh; [apply Map_get_set_other, E|].
  destruct (arrayIndex k) as [i|].
  + apply Object_insertIndex_get_other, E.
  + rewrite <- (Map_set_fresh _ _ _ Eh). apply Map_get_set_other, E.
Qed.

(** A name that is new to the object adds one property. *)
Lemma Object_set_perm o k v :
  String.eqb k "__proto__" = false -> Map_has o k = false ->
  Permutation ((k, v) :: o) (Object_set o k v).
Proof.
intros Hp Hh. unfold Object_set. rewrite Hp, Hh.
destruct (arrayIndex k) as [i|].
- apply Object_insertIndex_perm.
- apply Permutation_cons_append.
Qed.

Lemma Object_set_NoDup o k v :
  NoDup (Map_keys o) -> NoDup (Map_keys (Object_set o k v)).
Proof.
intros Hnd. destruct (String.eqb k "__proto__") eqn:Hp.
- unfold Object_set. rewrite Hp. exact Hnd.
- destruct (Map_has o k) eqn:Hh.
  + unfold Object_set. rewrite Hp, Hh. apply Map_set_NoDup, Hnd.
  + apply (Permutation_NoDup (l := k :: Map_keys o)).
    * apply (Permutation_map fst (Object_set_perm o k v Hp Hh)).
    * constructor; [|exact Hnd]. intros Hin. apply Map_has_In in Hin. congruence.
Qed.

End ObjectProps.

Lemma sumModelUsage_perm (ms ms' : JsMap ModelUsage) :
  Permutation ms ms' -> sumModelUsage ms = sumModelUsage ms'.
Proof.
induction 1 as [|x l l' _ IH|x y l|l l' l'' _ IH1 _ IH2]; simpl.
- reflexivity.
- rewrite IH. reflexivity.
- rewrite <- !addUsage_assoc. f_equal. apply addUsage_comm.
- congruence.
Qed.

(** The entries of a summary's [Map] split into the model named
    [__proto__] and the others. *)
Lemma sumModelUsage_split (ms : JsMap ModelUsage) :
  NoDup (Map_keys ms) ->
  sumModelUsage ms =
  addUsage
    (sumModelUsage (filter (fun entry => negb (String.eqb (fst entry) "__proto__")) ms))
    (usageOrEmpty (Map_get ms "__proto__")).
Proof.
induction ms as [|[k u] ms IH]; simpl; intros Hnd.
- reflexivity.
- inversion Hnd as [|? ? Hk Hnd']; subst. specialize (IH Hnd').
  destruct (String.eqb k "__proto__") eqn:E; simpl.
  + apply String.eqb_eq in E. subst k.
    assert (Hnone : Map_get ms "__proto__" = None) by (apply Map_get_None, Hk).
    rewrite Hnone in IH. simpl in IH. rewrite addUsage_empty_r in IH.
    rewrite IH. apply addUsage_comm.
  + rewrite IH, addUsage_assoc. reflexivity.
Qed.

Section RowProps.
Context {F : Type} `{Number F}.
Variable modelPricing : JsMap (ModelPricing F).

Local Abbreviation assign :=
  (fun (rowModels : JsMap ModelUsage) (entry : string * ModelUsage) =>
     Object_set rowModels (fst entry)
       (Reports.withPricing (snd entry) (Map_get modelPricing (fst entry)))).

Lemma rowModels_fold_get (m : string) (models acc : JsMap ModelUsage) :
  NoDup (Map_keys models) ->
  Map_get (fold_left assign models acc) m =
  if String.eqb m "__proto__" then Map_get acc m
  else
    match Map_get models m with
    | Some u => Some (Reports.withPricing u (Map_get modelPricing m))
    | None => Map_get acc m
    end.
Proof.
revert acc. induction models as [|[k u] ms IH]; intros acc Hnd; simpl.
- destruct (String.eqb m "__proto__"); reflexivity.
- inversion Hnd as [|? ? Hk Hnd']; subst. rewrite (IH _ Hnd'). simpl.
  rewrite Object_set_get.
  destruct (String.eqb m "__proto__") eqn:Em.
  + apply String.eqb_eq in Em. subst m.
    destruct (String.eqb k "__proto__"); reflexivity.
  + destruct (String.eqb k m) eqn:Ekm.
    * apply String.eqb_eq in Ekm. subst k. rewrite Em.
      assert (Hnone : Map_get ms m = None) by (apply Map_get_None, Hk).
      rewrite Hnone. reflexivity.
    * destruct (Map_get ms m); [reflexivity|].
      destruct (String.eqb k "__proto__"); reflexivity.
Qed.

(** The entry of a model in the object of a row: none under [__proto__],
    the entry of the summary with the pricing attached under any other
    name. *)
Lemma rowModelsOf_get (models : JsMap ModelUsage) (m : string) :
  NoDup (Map_keys models) ->
  Map_get (Reports.rowModelsOf modelPricing models) m =
  if String.eqb m "__proto__" then None
  else option_map (fun u => Reports.withPricing u (Map_get modelPricing m))
                  (Map_get models m).
Proof.
intros Hnd. unfold Reports.rowModelsOf. rewrite rowModels_fold_get by exact Hnd.
destruct (String.eqb m "__proto__"); [reflexivity|].
destruct (Map_get models m); reflexivity.
Qed.

Lemma rowModelsOf_NoDup (models : JsMap ModelUsage) :
  NoDup (Map_keys (Reports.rowModelsOf modelPricing models)).
Proof.
unfold Reports.rowModelsOf.
assert (Hg : forall ms acc, NoDup (Map_keys acc) ->
                            NoDup (Map_keys (fold_left assign ms acc))).
{ induction ms as [|e ms IH]; intros acc Hacc; simpl; [exact Hacc|].
  apply IH, Object_set_NoDup, Hacc. }
apply Hg. constructor.
Qed.

Lemma rowModelsOf_perm (models : JsMap ModelUsage) :
  NoDup (Map_keys models) ->
  Permutation
    (Reports.rowModelsOf modelPricing models)
    (map (fun entry =>
            (fst entry, Reports.withPricing (snd entry) (Map_get modelPricing (fst entry))))
         (filter (fun entry => negb (String.eqb (fst entry) "__proto__")) models)).
Proof.
unfold Reports.rowModelsOf.
assert (Hg : forall ms acc,
  NoDup (Map_keys ms) ->
  (forall k, In k (Map_keys ms) -> Map_get acc k = None) ->
  Permutation
    (fold_left assign ms acc)
    (acc ++ map (fun entry =>
                   (fst entry,
                    Reports.withPricing (snd entry) (Map_get modelPricing (fst entry))))
                (filter (fun entry => negb (String.eqb (fst entry) "__proto__")) ms))%list).
{ induction ms as [|[k u] ms IH]; intros acc Hnd Hfresh; simpl.
  - rewrite app_nil_r. apply Permutation_refl.
  - inversion Hnd as [|? ? Hk Hnd']; subst.
    destruct (String.eqb k "__proto__") eqn:Ek; simpl.
    + unfold Object_set. rewrite Ek. apply IH; [exact Hnd'|].
      intros k' Hk'. apply Hfresh. right. exact Hk'.
    + eapply perm_trans.
      * apply IH; [exact Hnd'|]. intros k' Hk'. rewrite Object_set_get, Ek.
        destruct (String.eqb k k') eqn:Ekk.
        -- apply String.eqb_eq in Ekk. subst k'. contradiction.
        -- apply Hfresh. right. exact Hk'.
      * eapply perm_trans; [|apply Permutation_middle].
        apply (Permutation_app_tail _ (l := Object_set acc k _) (l' := _ :: acc)).
        apply Permutation_sym, Object_set_perm; [exact Ek|].
        unfold Map_has. rewrite (Hfresh k (or_introl eq_refl)). reflexivity. }
intros Hnd. apply (Hg models [] Hnd). reflexivity.
Qed.

(** The sums over the entries of the object of a row, next to those over the
    entries of the summary's [Map]. *)
Lemma rowModelsOf_sum (models : JsMap ModelUsage) :
  NoDup (Map_keys models) ->
  sumModelUsage models =
  addUsage (sumModelUsage (Reports.rowModelsOf modelPricing models))
           (usageOrEmpty (Map_get models "__proto__")).
Proof.
intros Hnd. rewrite (sumModelUsage_perm _ _ (rowModelsOf_perm models Hnd)).
rewrite (sumModelUsage_split models Hnd). f_equal.
clear Hnd. induction models as [|[k u] ms IH]; simpl; [reflexivity|].
destruct (String.eqb k "__proto__"); simpl; rewrite IH; reflexivity.
Qed.


End RowProps.

(** ** Rows of the reports *)

Lemma usage_eta (u : TokenUsageDelta) :
  {| inputTokens := inputTokens u; cachedInputTokens := cachedInputTokens u;
     outputTokens := outputTokens u; reasoningOutputTokens := reasoningOutputTokens u;
     totalTokens := totalTokens u |} = u.
Proof. destruct u. reflexivity. Qed.

Lemma engine_summary_facts {S : Type}
    (classify : TokenUsageEvent -> option (string * string))
    (create : string -> string -> S) (bump : S -> TokenUsageEvent -> string -> S)
    (skey : S -> string) (susage : S -> TokenUsageDelta) (smodels : S -> JsMap ModelUsage)
    (evs : list TokenUsageEvent) (s : S) :
  (forall k t, skey (create k t) = k) ->
  (forall s e m, skey (bump s e m) = skey s) ->
  (forall k t, susage (create k t) = createEmptyUsage) ->
  (forall s e m, susage (bump s e m) = addUsage (susage s) (ev_usage e)) ->
  (forall k t, smodels (create k t) = []) ->
  (forall s e m, smodels (bump s e m) = Reports.addModelUsage (smodels s) m e) ->
  In s (Map_values (Engine.accumulate classify create bump evs)) ->
  Engine.replay classify create bump (skey s)
    (filter (Engine.inGroup classify (skey s)) evs) = Some s /\
  susage s = sumModelUsage (smodels s) /\
  NoDup (Map_keys (smodels s)).
Proof.
intros H1 H2 H3 H4 H5 H6 Hin.
apply in_map_iff in Hin. destruct Hin as ([k s'] & Es & Hin). simpl in Es. subst s'.
apply accumulate_In in Hin.
destruct (replay_key_usage classify create bump skey susage H1 H2 H3 H4 _ _ _ Hin)
  as [Hk Hu].
destruct (replay_models classify create bump smodels H5 H6 _ _ _ Hin) as (Hm & Hnd & _).
rewrite Hk. repeat split; auto. congruence.
Qed.

Section ReportRows.
Context {F : Type} `{Number F} `{Host}.
Import Reports Instances.

Lemma daily_report_rows (options : ReportOptions F) (events : list TokenUsageEvent)
    (rows : list (DailyReportRow F)) :
  buildDailyReport events options = Ok rows ->
  exists mp,
    resolveModels (pricingSource options)
      (uniqueModelsOf ds_models (dailySummaries events options)) [] = Ok mp /\
    rows = map (dailyRow options mp)
             (Array_sort (fun a b => localeCompare (date a) (date b))
                         (Map_values (dailySummaries events options))).
Proof.
unfold buildDailyReport. destruct (resolveModels _ _ _) as [mp|msg]; [|discriminate].
intros [= <-]. eauto.
Qed.

Lemma monthly_report_rows (options : ReportOptions F) (events : list TokenUsageEvent)
    (rows : list (MonthlyReportRow F)) :
  buildMonthlyReport events options = Ok rows ->
  exists mp,
    resolveModels (pricingSource options)
      (uniqueModelsOf ms_models (monthlySummaries events options)) [] = Ok mp /\
    rows = map (monthlyRow options mp)
             (Array_sort (fun a b => localeCompare (month a) (month b))
                         (Map_values (monthlySummaries events options))).
Proof.
unfold buildMonthlyReport. destruct (resolveModels _ _ _) as [mp|msg]; [|discriminate].
intros [= <-]. eauto.
Qed.

Lemma session_report_rows (options : ReportOptions F) (events : list TokenUsageEvent)
    (rows : list (SessionReportRow F)) :
  buildSessionReport events options = Ok rows ->
  exists mp,
    resolveModels (pricingSource options)
      (uniqueModelsOf ss_models (sessionSummaries events options)) [] = Ok mp /\
    rows = map (sessionRow mp)
             (Array_sort (fun a b => localeCompare (lastTimestamp a) (lastTimestamp b))
                         (Map_values (sessionSummaries events options))).
Proof.
unfold buildSessionReport.
destruct (sessionSummaries events options) as [|x l] eqn:E; simpl.
- intros [= <-]. exists []. split; reflexivity.
- destruct (resolveModels _ _ _) as [mp|msg]; [|discriminate].
  intros [= <-]. eauto.
Qed.

Lemma daily_summary_facts (options : ReportOptions F) (events : list TokenUsageEvent)
    (s : DailyUsageSummary F) :
  In s (Map_values (dailySummaries events options)) ->
  ds_usage s = sumModelUsage (ds_models s) /\ NoDup (Map_keys (ds_models s)).
Proof.
rewrite dailySummaries_engine. intros Hin.
apply (engine_summary_facts _ _ _ date ds_usage ds_models) in Hin; try reflexivity.
tauto.
Qed.

Lemma monthly_summary_facts (options : ReportOptions F) (events : list TokenUsageEvent)
    (s : MonthlyUsageSummary F) :
  In s (Map_values (monthlySummaries events options)) ->
  ms_usage s = sumModelUsage (ms_models s) /\ NoDup (Map_keys (ms_models s)).
Proof.
rewrite monthlySummaries_engine. intros Hin.
apply (engine_summary_facts _ _ _ month ms_usage ms_models) in Hin; try reflexivity.
tauto.
Qed.

Lemma session_summary_facts (options : ReportOptions F) (events : list TokenUsageEvent)
    (s : SessionUsageSummary F) :
  In s (Map_values (sessionSummaries events options)) ->
  ss_usage s = sumModelUsage (ss_models s) /\ NoDup (Map_keys (ss_models s)).
Proof.
rewrite sessionSummaries_engine. intros Hin.
apply (engine_summary_facts _ _ _ ss_sessionId ss_usage ss_models) in Hin; try reflexivity.
tauto.
Qed.

Lemma priced_models {S : Type} (modelsOf : S -> JsMap ModelUsage)
    (source : PricingSource F) (summaries : JsMap S) (mp : JsMap (ModelPricing F))
    (s : S) :
  resolveModels source (uniqueModelsOf modelsOf summaries) [] = Ok mp ->
  In s (Map_values summaries) ->
  forall m, In m (Map_keys (modelsOf s)) ->
            exists p, source m = Ok p /\ Map_get mp m = Some p.
Proof.
intros Hres Hs m Hm. apply (resolveModels_get source _ _ _ Hres).
apply uniqueModelsOf_In. eauto.
Qed.

End ReportRows.

(** ** Splitting a session id on its last separator *)

Lemma length_app (a b : string) :
  String.length (a ++ b) = (String.length a + String.length b)%nat.
Proof. induction a as [|x a IH]; simpl; [reflexivity | rewrite IH; reflexivity]. Qed.

Lemma substring_0_0 (s : string) : substring 0 0 s = "".
Proof. destruct s; reflexivity. Qed.

Lemma substring_0_app (a b : string) : substring 0 (String.length a) (a ++ b) = a.
Proof.
induction a as [|x a IH]; simpl; [apply substring_0_0 | rewrite IH; reflexivity].
Qed.

Lemma substring_0_full (s : string) : substring 0 (String.length s) s = s.
Proof. induction s as [|x s IH]; simpl; [reflexivity | rewrite IH; reflexivity]. Qed.

Lemma substring_skip_app (a s : string) (n : nat) :
  substring (String.length a) n (a ++ s) = substring 0 n s.
Proof. induction a as [|x a IH]; simpl; [reflexivity | exact IH]. Qed.

Lemma lastIndexOf_range (s : string) (c : ascii) :
  JsString.lastIndexOf s c = -1 \/
  0 <= JsString.lastIndexOf s c < JsString.len s.
Proof.
unfold JsString.len. induction s as [|x s IH]; simpl; [left; reflexivity|].
destruct (0 <=? JsString.lastIndexOf s c) eqn:E.
- apply Z.leb_le in E. right. lia.
- destruct (Ascii.eqb x c); [right; lia | left; reflexivity].
Qed.

Lemma lastIndexOf_absent (s : string) (c : ascii) :
  JsString.lastIndexOf s c = -1 <-> ~ In c (list_ascii_of_string s).
Proof.
induction s as [|x s IH]; simpl; [tauto|].
destruct (lastIndexOf_range s c) as [Hk|Hk].
- rewrite Hk. simpl. destruct (Ascii.eqb x c) eqn:E.
  + apply Ascii.eqb_eq in E. split; [discriminate|]. intros Hn. exfalso. auto.
  + apply Ascii.eqb_neq in E. split; [|reflexivity]. intros _ [Hx|Hin]; [auto|].
    apply IH in Hk. auto.
- destruct (0 <=? JsString.lastIndexOf s c) eqn:E; [|apply Z.leb_gt in E; lia].
  split; [lia|]. intros Hn. exfalso. apply Hn. right.
  destruct (in_dec ascii_dec c (list_ascii_of_string s)) as [Hin|Hnin]; [exact Hin|].
  apply IH in Hnin. lia.
Qed.

Lemma lastIndexOf_split (s : string) (c : ascii) :
  0 <= JsString.lastIndexOf s c ->
  exists a b, s = a ++ String c b /\
              JsString.lastIndexOf b c = -1 /\
              JsString.lastIndexOf s c = JsString.len a.
Proof.
unfold JsString.len. induction s as [|x s IH]; simpl; [lia|].
destruct (0 <=? JsString.lastIndexOf s c) eqn:E.
- apply Z.leb_le in E. intros _. destruct (IH E) as (a & b & -> & Hb & Hk).
  exists (String x a), b. simpl. repeat split; auto. lia.
- apply Z.leb_gt in E. destruct (Ascii.eqb x c) eqn:Ex; [|lia].
  apply Ascii.eqb_eq in Ex. subst x. intros _. exists "", s. repeat split.
  destruct (lastIndexOf_range s c); lia.
Qed.

Lemma slice_prefix (a b : string) : JsString.slice (a ++ b) 0 (JsString.len a) = a.
Proof.
unfold JsString.slice, JsString.clampIndex, JsString.len. rewrite length_app.
replace (0 <? 0) with false by reflexivity.
destruct (Z.of_nat (String.length a) <? 0) eqn:E; [apply Z.ltb_lt in E; lia|].
replace (Z.to_nat (Z.min 0 _)) with 0%nat by lia.
replace (Z.to_nat _) with (String.length a) by lia.
apply substring_0_app.
Qed.

Lemma sliceFrom_suffix (a b : string) (c : ascii) :
  JsString.sliceFrom (a ++ String c b) (JsString.len a + 1) = b.
Proof.
unfold JsString.sliceFrom, JsString.slice, JsString.clampIndex, JsString.len.
rewrite length_app. simpl String.length.
destruct (Z.of_nat (String.length a) + 1 <? 0) eqn:E; [apply Z.ltb_lt in E; lia|].
destruct (Z.of_nat (String.length a + S (String.length b)) <? 0) eqn:E';
  [apply Z.ltb_lt in E'; lia|].
replace (Z.to_nat (Z.min (Z.of_nat (String.length a) + 1) _))
  with (String.length (a ++ String c "")) by (rewrite length_app; simpl; lia).
replace (Z.to_nat _) with (String.length b) by lia.
assert (Ea : a ++ String c b = (a ++ String c "") ++ b).
{ clear. induction a as [|x a IH]; simpl; [reflexivity | rewrite IH; reflexivity]. }
rewrite Ea, substring_skip_app. apply substring_0_full.
Qed.

Lemma StronglySorted_map_impl {A B : Type} (f : A -> B) (R : A -> A -> Prop)
    (R' : B -> B -> Prop) (l : list A) :
  (forall a b, R a b -> R' (f a) (f b)) ->
  StronglySorted R l -> StronglySorted R' (map f l).
Proof.
intros Himp. induction 1 as [|x l Hs IH Hall]; simpl; constructor; [exact IH|].
apply Forall_map. eapply Forall_impl; [|exact Hall]. intros y. apply Himp.
Qed.

(** ** Order of strings by code units *)

Lemma String_leb_trans (a b c : string) :
  String.leb a b = true -> String.leb b c = true -> String.leb a c = true.
Proof.
unfold String.leb. revert b c.
induction a as [|x a IH]; intros [|y b] [|z c]; simpl; try (intros; reflexivity || discriminate).
unfold Ascii.compare.
destruct (N.compare_spec (N_of_ascii x) (N_of_ascii y)) as [Exy|Lxy|Lxy];
destruct (N.compare_spec (N_of_ascii y) (N_of_ascii z)) as [Eyz|Lyz|Lyz];
destruct (N.compare_spec (N_of_ascii x) (N_of_ascii z)) as [Exz|Lxz|Lxz];
  try (intros; reflexivity || discriminate); try lia.
apply IH.
Qed.

Lemma String_leb_refl (a : string) : String.leb a a = true.
Proof. destruct (String.leb_total a a); assumption. Qed.

Lemma gtb_false_leb (a b : string) : JsString.gtb a b = false <-> String.leb a b = true.
Proof.
unfold JsString.gtb, String.ltb, String.leb. rewrite (String.compare_antisym a b).
destruct (String.compare b a); simpl; split; congruence.
Qed.

(** ** Order of the rows *)

Section ReportOrder.
Context {F : Type} `{Number F} `{Host}.
Import Reports Instances.

Lemma dailyView_row (options : ReportOptions F) (mp : JsMap (ModelPricing F))
    (s : DailyUsageSummary F) :
  dailyView (dailyRow options mp s) =
  (formatDisplayDate (date s) (locale options) (timezone options), ds_usage s).
Proof. unfold dailyView, dailyRow. simpl. rewrite usage_eta. reflexivity. Qed.

Lemma monthlyView_row (options : ReportOptions F) (mp : JsMap (ModelPricing F))
    (s : MonthlyUsageSummary F) :
  monthlyView (monthlyRow options mp s) =
  (formatDisplayMonth (month s) (locale options) (timezone options), ms_usage s).
Proof. unfold monthlyView, monthlyRow. simpl. rewrite usage_eta. reflexivity. Qed.

Lemma session_split (mp : JsMap (ModelPricing F)) (s : SessionUsageSummary F) :
  let r := sessionRow mp s in
  (~ In "/"%char (list_ascii_of_string (sr_sessionId r)) ->
     directory r = "" /\ sessionFile r = sr_sessionId r) /\
  (In "/"%char (list_ascii_of_string (sr_sessionId r)) ->
     sr_sessionId r = directory r ++ "/" ++ sessionFile r /\
     ~ In "/"%char (list_ascii_of_string (sessionFile r))).
Proof.
unfold sessionRow. simpl. split.
- intros Hn. apply lastIndexOf_absent in Hn. rewrite Hn. simpl. auto.
- intros Hin.
  assert (Hk : 0 <= JsString.lastIndexOf (ss_sessionId s) "/").
  { destruct (lastIndexOf_range (ss_sessionId s) "/") as [Hk|Hk]; [|lia].
    apply lastIndexOf_absent in Hk. contradiction. }
  destruct (lastIndexOf_split _ _ Hk) as (a & b & Es & Hb & Hi).
  rewrite Hi. replace (0 <=? JsString.len a) with true
    by (symmetry; apply Z.leb_le; unfold JsString.len; lia).
  rewrite Es, slice_prefix, sliceFrom_suffix. split; [reflexivity|].
  apply lastIndexOf_absent, Hb.
Qed.

(** C9.  Rows come out in ascending order of the group key (daily and
    monthly: the day or month key under [localeCompare], each row showing
    the formatted key and the totals of its group) and of the last-activity
    timestamp (session).  A session row whose id has no '/' has an empty
    directory and the id as file; otherwise the id is directory, '/', file
    with no '/' in the file. *)
Theorem rows_sorted_and_split (options : ReportOptions F)
    (events : list TokenUsageEvent) :
  (forall a b, localeCompare a b <= 0 \/ localeCompare b a <= 0) ->
  (forall a b c, localeCompare a b <= 0 -> localeCompare b c <= 0 ->
                 localeCompare a c <= 0) ->
  (forall rows, buildDailyReport events options = Ok rows ->
     exists sorted,
       Permutation sorted (Map_values (dailySummaries events options)) /\
       StronglySorted (fun a b => localeCompare (date a) (date b) <= 0) sorted /\
       map dailyView rows =
         map (fun s => (formatDisplayDate (date s) (locale options) (timezone options),
                        ds_usage s)) sorted)
  /\ (forall rows, buildMonthlyReport events options = Ok rows ->
     exists sorted,
       Permutation sorted (Map_values (monthlySummaries events options)) /\
       StronglySorted (fun a b => localeCompare (month a) (month b) <= 0) sorted /\
       map monthlyView rows =
         map (fun s => (formatDisplayMonth (month s) (locale options) (timezone options),
                        ms_usage s)) sorted)
  /\ (forall rows, buildSessionReport events options = Ok rows ->
     StronglySorted
       (fun r r' => localeCompare (lastActivity r) (lastActivity r') <= 0) rows /\
     Permutation (map sr_sessionId rows) (Map_keys (sessionSummaries events options)) /\
     forall r, In r rows ->
       (~ In "/"%char (list_ascii_of_string (sr_sessionId r)) ->
          directory r = "" /\ sessionFile r = sr_sessionId r) /\
       (In "/"%char (list_ascii_of_string (sr_sessionId r)) ->
          sr_sessionId r = directory r ++ "/" ++ sessionFile r /\
          ~ In "/"%char (list_ascii_of_string (sessionFile r)))).
Proof.
intros Htot Htrans. split; [|split]; intros rows Hb.
- destruct (daily_report_rows _ _ _ Hb) as (mp & _ & ->).
  eexists. split; [symmetry; apply Array_sort_perm|]. split.
  + apply (Array_sort_sorted (fun a b => localeCompare (date a) (date b))); eauto.
  + rewrite map_map. apply map_ext. intros s. apply dailyView_row.
- destruct (monthly_report_rows _ _ _ Hb) as (mp & _ & ->).
  eexists. split; [symmetry; apply Array_sort_perm|]. split.
  + apply (Array_sort_sorted (fun a b => localeCompare (month a) (month b))); eauto.
  + rewrite map_map. apply map_ext. intros s. apply monthlyView_row.
- destruct (session_report_rows _ _ _ Hb) as (mp & _ & ->). split; [|split].
  + apply (StronglySorted_map_impl (sessionRow mp)
             (fun a b => localeCompare (lastTimestamp a) (lastTimestamp b) <= 0)).
    * intros a b Hab. exact Hab.
    * apply (Array_sort_sorted
               (fun a b => localeCompare (lastTimestamp a) (lastTimestamp b))); eauto.
  + rewrite map_map. simpl.
    rewrite <- (Array_sort_perm _ (Map_values (sessionSummaries events options))).
    rewrite sessionSummaries_engine.
    rewrite (accumulate_values_keys _ _ _ ss_sessionId ss_usage); try reflexivity.
  + intros r Hr. apply in_map_iff in Hr. destruct Hr as (s & <- & _).
    apply session_split.
Qed.

End ReportOrder.

(** ** Reordering the events *)

Section EnginePerm.
Context {S : Type}.
Variable classify : TokenUsageEvent -> option (string * string).
Variable create : string -> string -> S.
Variable bump : S -> TokenUsageEvent -> string -> S.
Variable skey : S -> string.
Variable susage : S -> TokenUsageDelta.
Variable smodels : S -> JsMap ModelUsage.
(** What the rows are sorted by. *)
Variable aux : S -> string.
Hypothesis create_key : forall k t, skey (create k t) = k.
Hypothesis bump_key : forall s e m, skey (bump s e m) = skey s.
Hypothesis create_usage : forall k t, susage (create k t) = createEmptyUsage.
Hypothesis bump_usage :
  forall s e m, susage (bump s e m) = addUsage (susage s) (ev_usage e).
Hypothesis create_models : forall k t, smodels (create k t) = [].
Hypothesis bump_models :
  forall s e m, smodels (bump s e m) = Reports.addModelUsage (smodels s) m e.

Local Abbreviation accumulate := (Engine.accumulate classify create bump).
Local Abbreviation inGroup := (Engine.inGroup classify).
Local Abbreviation modelOf := (Engine.modelOf classify).
Local Abbreviation replay := (Engine.replay classify create bump).
Local Abbreviation view := (fun s : S => (skey s, aux s, susage s)).

Hypothesis aux_perm :
  forall k es es' s s',
    Permutation es es' -> replay k es = Some s -> replay k es' = Some s' ->
    aux s = aux s'.

Lemma replay_view_perm (k : string) (es es' : list TokenUsageEvent) :
  Permutation es es' ->
  option_map view (replay k es) = option_map view (replay k es').
Proof.
intros Hp.
destruct (replay k es) as [s|] eqn:E; destruct (replay k es') as [s'|] eqn:E'; simpl.
- destruct (replay_key_usage classify create bump skey susage
              create_key bump_key create_usage bump_usage _ _ _ E) as [Hk Hu].
  destruct (replay_key_usage classify create bump skey susage
              create_key bump_key create_usage bump_usage _ _ _ E') as [Hk' Hu'].
  rewrite Hk, Hk', Hu, Hu', (sumUsage_perm _ _ Hp), (aux_perm _ _ _ _ _ Hp E E').
  reflexivity.
- destruct es' as [|e' es']; [|discriminate].
  apply Permutation_sym, Permutation_nil in Hp. subst es. discriminate.
- destruct es as [|e es]; [|discriminate].
  apply Permutation_nil in Hp. subst es'. discriminate.
- reflexivity.
Qed.

Lemma lookup_view_perm (evs evs' : list TokenUsageEvent) (k : string) :
  Permutation evs evs' ->
  option_map view (Map_get (accumulate evs) k) =
  option_map view (Map_get (accumulate evs') k).
Proof.
intros Hp. rewrite !accumulate_get. apply replay_view_perm, filter_perm, Hp.
Qed.

Lemma values_lookup (evs : list TokenUsageEvent) (s : S) :
  In s (Map_values (accumulate evs)) <-> Map_get (accumulate evs) (skey s) = Some s.
Proof.
split.
- intros Hin. apply in_map_iff in Hin. destruct Hin as ([k s'] & Es & Hin).
  simpl in Es. subst s'. pose proof Hin as Hin'. apply accumulate_In in Hin'.
  destruct (replay_key_usage classify create bump skey susage
              create_key bump_key create_usage bump_usage _ _ _ Hin') as [Hk _].
  rewrite Hk. apply In_Map_get; [apply accumulate_NoDup | exact Hin].
- intros Hg. apply Map_get_In in Hg. apply in_map_iff. exists (skey s, s). auto.
Qed.

Lemma views_NoDup (evs : list TokenUsageEvent) :
  NoDup (map view (Map_values (accumulate evs))).
Proof.
apply (NoDup_map_inv (fun v : string * string * TokenUsageDelta => fst (fst v))).
rewrite map_map. simpl.
rewrite (accumulate_values_keys classify create bump skey susage
           create_key bump_key create_usage bump_usage).
apply accumulate_NoDup.
Qed.

Lemma views_In (evs : list TokenUsageEvent) (v : string * string * TokenUsageDelta) :
  In v (map view (Map_values (accumulate evs))) <->
  exists k, option_map view (Map_get (accumulate evs) k) = Some v.
Proof.
rewrite in_map_iff. split.
- intros (s & <- & Hs). exists (skey s). apply values_lookup in Hs. rewrite Hs. reflexivity.
- intros (k & Hk). destruct (Map_get (accumulate evs) k) as [s|] eqn:E; [|discriminate].
  injection Hk as <-. exists s. split; [reflexivity|].
  apply Map_get_In in E. apply in_map_iff. exists (k, s). auto.
Qed.

Lemma views_perm (evs evs' : list TokenUsageEvent) :
  Permutation evs evs' ->
  Permutation (map view (Map_values (accumulate evs)))
              (map view (Map_values (accumulate evs'))).
Proof.
intros Hp. apply NoDup_Permutation; try apply views_NoDup.
intros v. rewrite !views_In. split; intros (k & Hk); exists k.
- rewrite <- (lookup_view_perm evs evs' k Hp). exact Hk.
- rewrite (lookup_view_perm evs evs' k Hp). exact Hk.
Qed.

Lemma group_of_value (evs : list TokenUsageEvent) (s : S) :
  In s (Map_values (accumulate evs)) ->
  replay (skey s) (filter (inGroup (skey s)) evs) = Some s /\
  exists e, In e evs /\ inGroup (skey s) e = true.
Proof.
intros Hs. apply values_lookup in Hs. rewrite accumulate_get in Hs. split; [exact Hs|].
destruct (filter (inGroup (skey s)) evs) as [|e es] eqn:E; [discriminate|].
exists e. apply filter_In. rewrite E. left. reflexivity.
Qed.

Lemma models_In (evs : list TokenUsageEvent) (m : string) :
  In m (Reports.uniqueModelsOf smodels (accumulate evs)) <->
  exists e, In e evs /\ classify e <> None /\ modelOf e = m.
Proof.
rewrite uniqueModelsOf_In. split.
- intros (s & Hs & Hm). apply group_of_value in Hs. destruct Hs as [Hr _].
  destruct (replay_models classify create bump smodels create_models bump_models
              _ _ _ Hr) as (_ & _ & Hin).
  apply Hin in Hm. destruct Hm as (e & He & Hmo). apply filter_In in He.
  destruct He as [He Hg]. exists e. repeat split; auto.
  unfold Engine.inGroup in Hg. destruct (classify e); [discriminate | discriminate].
- intros (e & He & Hc & Hmo).
  destruct (classify e) as [[k m']|] eqn:Ec; [|congruence].
  assert (Hg : inGroup k e = true).
  { unfold Engine.inGroup. rewrite Ec. apply String.eqb_refl. }
  assert (Hin : In e (filter (inGroup k) evs)) by (apply filter_In; auto).
  destruct (replay k (filter (inGroup k) evs)) as [s|] eqn:Er.
  + exists s. split.
    * apply in_map_iff. exists (k, s). split; [reflexivity|]. apply accumulate_In, Er.
    * destruct (replay_models classify create bump smodels create_models bump_models
                  _ _ _ Er) as (_ & _ & Hkeys).
      apply Hkeys. eauto.
  + destruct (filter (inGroup k) evs); [destruct Hin | discriminate].
Qed.

Lemma models_perm (evs evs' : list TokenUsageEvent) (m : string) :
  Permutation evs evs' ->
  In m (Reports.uniqueModelsOf smodels (accumulate evs)) ->
  In m (Reports.uniqueModelsOf smodels (accumulate evs')).
Proof.
intros Hp. rewrite !models_In. intros (e & He & Hc). exists e. split; [|exact Hc].
eapply Permutation_in; eassumption.
Qed.

Lemma resolve_perm {F : Type} (source : PricingSource F)
    (evs evs' : list TokenUsageEvent) (mp : JsMap (ModelPricing F)) :
  Permutation evs evs' ->
  Reports.resolveModels source (Reports.uniqueModelsOf smodels (accumulate evs)) [] = Ok mp ->
  exists mp',
    Reports.resolveModels source (Reports.uniqueModelsOf smodels (accumulate evs')) []
    = Ok mp'.
Proof.
intros Hp Hres. apply resolveModels_ok. intros m Hm.
apply (models_perm evs' evs m (Permutation_sym Hp)) in Hm.
destruct (resolveModels_get source _ _ _ Hres Hm) as (p & Hs & _). eauto.
Qed.

Variable cmp : string -> string -> Z.
Hypothesis cmp_total : forall a b, cmp a b <= 0 \/ cmp b a <= 0.
Hypothesis cmp_trans : forall a b c, cmp a b <= 0 -> cmp b c <= 0 -> cmp a c <= 0.

Lemma sorted_views_eq (evs evs' : list TokenUsageEvent) :
  (forall s1 s2,
      In s1 (Map_values (accumulate evs)) -> In s2 (Map_values (accumulate evs)) ->
      cmp (aux s1) (aux s2) <= 0 -> cmp (aux s2) (aux s1) <= 0 -> skey s1 = skey s2) ->
  Permutation evs evs' ->
  map view (Array_sort (fun a b => cmp (aux a) (aux b)) (Map_values (accumulate evs))) =
  map view (Array_sort (fun a b => cmp (aux a) (aux b)) (Map_values (accumulate evs'))).
Proof.
intros Hties Hp.
pose (cmpV := fun v v' : string * string * TokenUsageDelta =>
                cmp (snd (fst v)) (snd (fst v'))).
change (fun a b : S => cmp (aux a) (aux b))
  with (fun a b : S => cmpV (view a) (view b)).
rewrite !Array_sort_map.
apply Array_sort_perm_unique.
- intros a b. apply cmp_total.
- intros a b c. apply cmp_trans.
- intros v1 v2 H1 H2 H12 H21.
  apply in_map_iff in H1. destruct H1 as (s1 & <- & Hs1).
  apply in_map_iff in H2. destruct H2 as (s2 & <- & Hs2).
  assert (Hk : skey s1 = skey s2) by (apply Hties; assumption).
  apply values_lookup in Hs1. apply values_lookup in Hs2.
  rewrite Hk in Hs1. rewrite Hs1 in Hs2. injection Hs2 as ->. reflexivity.
- apply views_perm, Hp.
Qed.

Lemma sorted_views_perm (evs evs' : list TokenUsageEvent) :
  Permutation evs evs' ->
  Permutation
    (map view (Array_sort (fun a b => cmp (aux a) (aux b)) (Map_values (accumulate evs))))
    (map view (Array_sort (fun a b => cmp (aux a) (aux b)) (Map_values (accumulate evs')))).
Proof.
intros Hp. rewrite <- !Array_sort_perm. apply views_perm, Hp.
Qed.

End EnginePerm.

Section EngineOrder.
Context {S : Type}.
Variable classify : TokenUsageEvent -> option (string * string).
Variable create : string -> string -> S.
Variable bump : S -> TokenUsageEvent -> string -> S.

(** The [Map] of the summaries lists the groups in the order in which their
    first counted events arrive. *)
Lemma accumulate_keys (evs : list TokenUsageEvent) :
  Map_keys (Engine.accumulate classify create bump evs) =
  fold_left Set_add
    (map (fun e => match classify e with Some (k, _) => k | None => "" end)
         (filter (fun e => match classify e with Some _ => true | None => false end) evs))
    [].
Proof.
unfold Engine.accumulate.
assert (Hg : forall st : JsMap S,
  Map_keys (fold_left (Engine.step classify create bump) evs st) =
  fold_left Set_add
    (map (fun e => match classify e with Some (k, _) => k | None => "" end)
         (filter (fun e => match classify e with Some _ => true | None => false end) evs))
    (Map_keys st)).
{ induction evs as [|e evs IH]; intros st; simpl; [reflexivity|].
  rewrite IH. unfold Engine.step. destruct (classify e) as [[k m]|] eqn:Ec; simpl.
  - rewrite Ec, Map_keys_Set_add. reflexivity.
  - reflexivity. }
apply Hg.
Qed.

End EngineOrder.

Section ReportPerm.
Context {F : Type} `{Number F} `{Host}.
Import Reports Instances.

Lemma String_ltb_leb (a b : string) : String.ltb a b = true -> String.leb a b = true.
Proof. unfold String.ltb, String.leb. destruct (String.compare a b); congruence. Qed.

Lemma replayFrom_last (options : ReportOptions F) (es : list TokenUsageEvent) :
  forall s : SessionUsageSummary F,
    let t := lastTimestamp (Engine.replayFrom (classifySession options) bumpSession s es) in
    (t = lastTimestamp s \/ exists e, In e es /\ timestamp e = t) /\
    String.leb (lastTimestamp s) t = true /\
    forall e, In e es -> String.leb (timestamp e) t = true.
Proof.
induction es as [|e es IH]; intros s; simpl.
- split; [left; reflexivity|]. split; [apply String_leb_refl|]. intros e [].
- specialize (IH (bumpSession s e (Engine.modelOf (classifySession options) e))).
  simpl in IH. destruct IH as (Hin & Hlo & Hall).
  set (t := lastTimestamp (Engine.replayFrom (classifySession options) bumpSession
              (bumpSession s e (Engine.modelOf (classifySession options) e)) es)) in *.
  destruct (JsString.gtb (timestamp e) (lastTimestamp s)) eqn:Eg.
  + split; [|split].
    * right. destruct Hin as [Ht|(e' & He' & Ht)]; eauto.
    * eapply String_leb_trans; [|exact Hlo]. apply String_ltb_leb. exact Eg.
    * intros e' [<-|He']; [exact Hlo | auto].
  + split; [|split].
    * destruct Hin as [Ht|(e' & He' & Ht)]; eauto.
    * exact Hlo.
    * intros e' [<-|He']; [|auto].
      eapply String_leb_trans; [|exact Hlo]. apply gtb_false_leb, Eg.
Qed.

Lemma session_last (options : ReportOptions F) (k : string)
    (es : list TokenUsageEvent) (s : SessionUsageSummary F) :
  Engine.replay (classifySession options) createSessionSummary bumpSession k es = Some s ->
  (exists e, In e es /\ timestamp e = lastTimestamp s) /\
  forall e, In e es -> String.leb (timestamp e) (lastTimestamp s) = true.
Proof.
destruct es as [|e0 es]; [discriminate|]. intros Hs.
assert (Es : s = Engine.replayFrom (classifySession options) bumpSession
                   (createSessionSummary k (timestamp e0)) (e0 :: es))
  by (unfold Engine.replay in Hs; congruence).
destruct (replayFrom_last options (e0 :: es) (createSessionSummary k (timestamp e0)))
  as (Hin & _ & Hall).
rewrite <- Es in Hin, Hall. split; [|exact Hall].
destruct Hin as [Ht|Hex]; [|exact Hex].
exists e0. split; [left; reflexivity | symmetry; exact Ht].
Qed.

Lemma session_aux_perm (options : ReportOptions F) (k : string)
    (es es' : list TokenUsageEvent) (s s' : SessionUsageSummary F) :
  Permutation es es' ->
  Engine.replay (classifySession options) createSessionSummary bumpSession k es = Some s ->
  Engine.replay (classifySession options) createSessionSummary bumpSession k es' = Some s' ->
  lastTimestamp s = lastTimestamp s'.
Proof.
intros Hp Hs Hs'.
destruct (session_last _ _ _ _ Hs) as ((e & He & Ht) & Hall).
destruct (session_last _ _ _ _ Hs') as ((e' & He' & Ht') & Hall').
apply String.leb_antisym.
- rewrite <- Ht. apply Hall'. eapply Permutation_in; eassumption.
- rewrite <- Ht'. apply Hall. eapply Permutation_in; [symmetry|]; eassumption.
Qed.

Lemma daily_aux_perm (options : ReportOptions F) (k : string)
    (es es' : list TokenUsageEvent) (s s' : DailyUsageSummary F) :
  Permutation es es' ->
  Engine.replay (classifyDaily options) createDailySummary bumpDaily k es = Some s ->
  Engine.replay (classifyDaily options) createDailySummary bumpDaily k es' = Some s' ->
  date s = date s'.
Proof.
intros _ Hs Hs'.
apply (replay_key_usage _ _ _ date ds_usage) in Hs; try reflexivity.
apply (replay_key_usage _ _ _ date ds_usage) in Hs'; try reflexivity.
destruct Hs, Hs'. congruence.
Qed.

Lemma monthly_aux_perm (options : ReportOptions F) (k : string)
    (es es' : list TokenUsageEvent) (s s' : MonthlyUsageSummary F) :
  Permutation es es' ->
  Engine.replay (classifyMonthly options) createMonthlySummary bumpMonthly k es = Some s ->
  Engine.replay (classifyMonthly options) createMonthlySummary bumpMonthly k es' = Some s' ->
  month s = month s'.
Proof.
intros _ Hs Hs'.
apply (replay_key_usage _ _ _ month ms_usage) in Hs; try reflexivity.
apply (replay_key_usage _ _ _ month ms_usage) in Hs'; try reflexivity.
destruct Hs, Hs'. congruence.
Qed.

Lemma daily_views (options : ReportOptions F) (mp : JsMap (ModelPricing F))
    (l : list (DailyUsageSummary F)) :
  map dailyView (map (dailyRow options mp) l) =
  map (fun v : string * string * TokenUsageDelta =>
         (formatDisplayDate (fst (fst v)) (locale options) (timezone options), snd v))
      (map (fun s => (date s, date s, ds_usage s)) l).
Proof. rewrite !map_map. apply map_ext. intros s. apply dailyView_row. Qed.

Lemma monthly_views (options : ReportOptions F) (mp : JsMap (ModelPricing F))
    (l : list (MonthlyUsageSummary F)) :
  map monthlyView (map (monthlyRow options mp) l) =
  map (fun v : string * string * TokenUsageDelta =>
         (formatDisplayMonth (fst (fst v)) (locale options) (timezone options), snd v))
      (map (fun s => (month s, month s, ms_usage s)) l).
Proof. rewrite !map_map. apply map_ext. intros s. apply monthlyView_row. Qed.

Lemma session_views (mp : JsMap (ModelPricing F)) (l : list (SessionUsageSummary F)) :
  map sessionView (map (sessionRow mp) l) =
  map (fun v : string * string * TokenUsageDelta =>
         let id := fst (fst v) in
         let i := JsString.lastIndexOf id "/"%char in
         (id, snd (fst v),
          if 0 <=? i then JsString.sliceFrom id (i + 1) else id,
          if 0 <=? i then JsString.slice id 0 i else "",
          snd v))
      (map (fun s => (ss_sessionId s, lastTimestamp s, ss_usage s)) l).
Proof.
rewrite !map_map. apply map_ext. intros s.
unfold sessionView, sessionRow. simpl. rewrite usage_eta. reflexivity.
Qed.

Lemma buildDailyReport_ok (options : ReportOptions F) (events : list TokenUsageEvent)
    (mp : JsMap (ModelPricing F)) :
  resolveModels (pricingSource options)
    (uniqueModelsOf ds_models (dailySummaries events options)) [] = Ok mp ->
  buildDailyReport events options =
  Ok (map (dailyRow options mp)
        (Array_sort (fun a b => localeCompare (date a) (date b))
                    (Map_values (dailySummaries events options)))).
Proof. unfold buildDailyReport. intros ->. reflexivity. Qed.

Lemma buildMonthlyReport_ok (options : ReportOptions F) (events : list TokenUsageEvent)
    (mp : JsMap (ModelPricing F)) :
  resolveModels (pricingSource options)
    (uniqueModelsOf ms_models (monthlySummaries events options)) [] = Ok mp ->
  buildMonthlyReport events options =
  Ok (map (monthlyRow options mp)
        (Array_sort (fun a b => localeCompare (month a) (month b))
                    (Map_values (monthlySummaries events options)))).
Proof. unfold buildMonthlyReport. intros ->. reflexivity. Qed.

Lemma buildSessionReport_ok (options : ReportOptions F) (events : list TokenUsageEvent)
    (mp : JsMap (ModelPricing F)) :
  resolveModels (pricingSource options)
    (uniqueModelsOf ss_models (sessionSummaries events options)) [] = Ok mp ->
  buildSessionReport events options =
  Ok (map (sessionRow mp)
        (Array_sort (fun a b => localeCompare (lastTimestamp a) (lastTimestamp b))
                    (Map_values (sessionSummaries events options)))).
Proof.
unfold buildSessionReport. intros Hres.
destruct (sessionSummaries events options) as [|x l] eqn:E; simpl.
- reflexivity.
- simpl in Hres. rewrite Hres. reflexivity.
Qed.

Lemma sessionSummaries_keys (options : ReportOptions F) (events : list TokenUsageEvent) :
  Map_keys (sessionSummaries events options) = sessionsByArrival options events.
Proof.
rewrite sessionSummaries_engine, accumulate_keys. unfold sessionsByArrival. f_equal.
rewrite (filter_ext _ (contributesSession options)).
- apply map_ext_in. intros e He. apply filter_In in He. destruct He as [_ Hc].
  unfold classifySession. rewrite Hc. reflexivity.
- intros e. unfold classifySession. destruct (contributesSession options e); reflexivity.
Qed.

(** Among the session rows whose last activity ties with [t], the order is
    that of the first arrivals. *)
Lemma session_tie_order (options : ReportOptions F) (events : list TokenUsageEvent)
    (mp : JsMap (ModelPricing F)) (t : string) :
  (forall a b c, localeCompare a b <= 0 -> localeCompare b c <= 0 ->
                 localeCompare a c <= 0) ->
  map sr_sessionId
    (filter (fun r => tied (lastActivity r) t)
       (map (sessionRow mp)
          (Array_sort (fun a b => localeCompare (lastTimestamp a) (lastTimestamp b))
                      (Map_values (sessionSummaries events options))))) =
  filter (fun k => match Map_get (sessionSummaries events options) k with
                   | Some s => tied (lastTimestamp s) t
                   | None => false
                   end)
         (sessionsByArrival options events).
Proof.
intros Htrans.
rewrite filter_map_comm, map_map.
change (fun x : SessionUsageSummary F => tied (lastActivity (sessionRow mp x)) t)
  with (fun x : SessionUsageSummary F => tied (lastTimestamp x) t).
rewrite (map_ext (fun x => sr_sessionId (sessionRow mp x)) ss_sessionId)
  by reflexivity.
rewrite Array_sort_filter.
- unfold Map_values. rewrite filter_map_comm, map_map.
  rewrite <- sessionSummaries_keys.
  rewrite <- (Map_filter_keys (fun s => tied (lastTimestamp s) t)).
  + unfold Map_keys. apply map_ext_in. intros [k s] Hin. simpl.
    apply filter_In in Hin. destruct Hin as [Hin _].
    rewrite sessionSummaries_engine in Hin. apply accumulate_In in Hin.
    apply (replay_key_usage _ _ _ ss_sessionId ss_usage) in Hin; try reflexivity.
    tauto.
  + rewrite sessionSummaries_engine. apply accumulate_NoDup.
- intros a b Ha Hb. unfold tied in Ha, Hb.
  apply andb_true_iff in Ha, Hb. destruct Ha as [Ha _], Hb as [_ Hb].
  apply Z.leb_le in Ha, Hb. exact (Htrans _ _ _ Ha Hb).
Qed.

End ReportPerm.

Section ReportInvariance.
Context {F : Type} `{Number F} `{Host}.
Import Reports Instances.

(** C4 (amended).  Let [events'] be a reordering of [events].  A report
    that is produced for [events] is produced for [events'] too.  The rows
    of the two show the same groups with the same five token sums, and the
    same last-activity timestamp for a session; that timestamp is the
    largest, by code units, among the timestamps of the session's counted
    events.  The rows are in the same order whenever no two distinct groups
    tie under [localeCompare]: no two distinct day keys (month keys) compare
    as equal, and no two sessions have last-activity timestamps that compare
    as equal.  Sessions that tie on last activity come out in the order in
    which their first counted events arrive: for every timestamp [t], the
    rows whose last activity ties with [t] are the sessions of
    [sessionsByArrival] whose last activity ties with [t], in that order. *)
Theorem reports_invariant_under_reordering (options : ReportOptions F)
    (events events' : list TokenUsageEvent) :
  Permutation events events' ->
  (forall a b, localeCompare a b <= 0 \/ localeCompare b a <= 0) ->
  (forall a b c, localeCompare a b <= 0 -> localeCompare b c <= 0 ->
                 localeCompare a c <= 0) ->
  (forall rows, buildDailyReport events options = Ok rows ->
     exists rows',
       buildDailyReport events' options = Ok rows' /\
       Permutation (map dailyView rows) (map dailyView rows') /\
       ((forall e1 e2,
            In e1 events -> In e2 events ->
            contributes options e1 = true -> contributes options e2 = true ->
            localeCompare (dayKey options e1) (dayKey options e2) <= 0 ->
            localeCompare (dayKey options e2) (dayKey options e1) <= 0 ->
            dayKey options e1 = dayKey options e2) ->
        map dailyView rows = map dailyView rows'))
  /\ (forall rows, buildMonthlyReport events options = Ok rows ->
     exists rows',
       buildMonthlyReport events' options = Ok rows' /\
       Permutation (map monthlyView rows) (map monthlyView rows') /\
       ((forall e1 e2,
            In e1 events -> In e2 events ->
            contributes options e1 = true -> contributes options e2 = true ->
            localeCompare (monthKey options e1) (monthKey options e2) <= 0 ->
            localeCompare (monthKey options e2) (monthKey options e1) <= 0 ->
            monthKey options e1 = monthKey options e2) ->
        map monthlyView rows = map monthlyView rows'))
  /\ (forall rows, buildSessionReport events options = Ok rows ->
     exists rows',
       buildSessionReport events' options = Ok rows' /\
       Permutation (map sessionView rows) (map sessionView rows') /\
       ((forall r1 r2,
            In r1 rows -> In r2 rows ->
            localeCompare (lastActivity r1) (lastActivity r2) <= 0 ->
            localeCompare (lastActivity r2) (lastActivity r1) <= 0 ->
            sr_sessionId r1 = sr_sessionId r2) ->
        map sessionView rows = map sessionView rows') /\
       (forall r, In r rows ->
          (exists e, In e events /\ contributesSession options e = true /\
                     sessionKey e = sr_sessionId r /\ timestamp e = lastActivity r) /\
          (forall e, In e events -> contributesSession options e = true ->
                     sessionKey e = sr_sessionId r ->
                     String.leb (timestamp e) (lastActivity r) = true)) /\
       (forall t,
          map sr_sessionId (filter (fun r => tied (lastActivity r) t) rows) =
          filter (fun k => match Map_get (sessionSummaries events options) k with
                           | Some s => tied (lastTimestamp s) t
                           | None => false
                           end)
                 (sessionsByArrival options events))).
Proof.
intros Hp Htot Htrans. split; [|split]; intros rows Hb.
- destruct (daily_report_rows _ _ _ Hb) as (mp & Hres & ->).
  assert (Hres' : exists mp',
    resolveModels (pricingSource options)
      (uniqueModelsOf ds_models (dailySummaries events' options)) [] = Ok mp').
  { rewrite dailySummaries_engine in *.
    apply (resolve_perm _ _ _ date ds_usage ds_models) with (evs := events) (mp := mp);
      try reflexivity; assumption. }
  destruct Hres' as (mp' & Hres').
  eexists. split; [apply buildDailyReport_ok, Hres'|].
  rewrite !daily_views, !dailySummaries_engine. split.
  + apply Permutation_map.
    apply (sorted_views_perm _ _ _ date ds_usage date); try reflexivity;
      [apply daily_aux_perm | exact Hp].
  + intros Hties. f_equal.
    apply (sorted_views_eq _ _ _ date ds_usage date); try reflexivity;
      [apply daily_aux_perm | exact Htot | exact Htrans | | exact Hp].
    intros s1 s2 Hs1 Hs2 H12 H21.
    apply (group_of_value _ _ _ date ds_usage) in Hs1; try reflexivity.
    apply (group_of_value _ _ _ date ds_usage) in Hs2; try reflexivity.
    destruct Hs1 as (_ & e1 & He1 & Hg1). destruct Hs2 as (_ & e2 & He2 & Hg2).
    rewrite inGroup_daily in Hg1, Hg2.
    apply andb_true_iff in Hg1, Hg2. destruct Hg1 as [Hc1 Hk1], Hg2 as [Hc2 Hk2].
    apply String.eqb_eq in Hk1, Hk2. rewrite <- Hk1, <- Hk2 in *.
    apply Hties; assumption.
- destruct (monthly_report_rows _ _ _ Hb) as (mp & Hres & ->).
  assert (Hres' : exists mp',
    resolveModels (pricingSource options)
      (uniqueModelsOf ms_models (monthlySummaries events' options)) [] = Ok mp').
  { rewrite monthlySummaries_engine in *.
    apply (resolve_perm _ _ _ month ms_usage ms_models) with (evs := events) (mp := mp);
      try reflexivity; assumption. }
  destruct Hres' as (mp' & Hres').
  eexists. split; [apply buildMonthlyReport_ok, Hres'|].
  rewrite !monthly_views, !monthlySummaries_engine. split.
  + apply Permutation_map.
    apply (sorted_views_perm _ _ _ month ms_usage month); try reflexivity;
      [apply monthly_aux_perm | exact Hp].
  + intros Hties. f_equal.
    apply (sorted_views_eq _ _ _ month ms_usage month); try reflexivity;
      [apply monthly_aux_perm | exact Htot | exact Htrans | | exact Hp].
    intros s1 s2 Hs1 Hs2 H12 H21.
    apply (group_of_value _ _ _ month ms_usage) in Hs1; try reflexivity.
    apply (group_of_value _ _ _ month ms_usage) in Hs2; try reflexivity.
    destruct Hs1 as (_ & e1 & He1 & Hg1). destruct Hs2 as (_ & e2 & He2 & Hg2).
    rewrite inGroup_monthly in Hg1, Hg2.
    apply andb_true_iff in Hg1, Hg2. destruct Hg1 as [Hc1 Hk1], Hg2 as [Hc2 Hk2].
    apply String.eqb_eq in Hk1, Hk2. rewrite <- Hk1, <- Hk2 in *.
    apply Hties; assumption.
- destruct (session_report_rows _ _ _ Hb) as (mp & Hres & ->).
  assert (Hres' : exists mp',
    resolveModels (pricingSource options)
      (uniqueModelsOf ss_models (sessionSummaries events' options)) [] = Ok mp').
  { rewrite sessionSummaries_engine in *.
    apply (resolve_perm _ _ _ ss_sessionId ss_usage ss_models)
      with (evs := events) (mp := mp); try reflexivity; assumption. }
  destruct Hres' as (mp' & Hres').
  eexists. split; [apply buildSessionReport_ok, Hres'|].
  split; [|split; [|split]]; [| | |intros t; apply session_tie_order, Htrans].
  + rewrite !session_views, !sessionSummaries_engine. apply Permutation_map.
    apply (sorted_views_perm _ _ _ ss_sessionId ss_usage lastTimestamp); try reflexivity;
      [apply session_aux_perm | exact Hp].
  + intros Hties. rewrite !session_views. f_equal.
    rewrite !sessionSummaries_engine.
    apply (sorted_views_eq _ _ _ ss_sessionId ss_usage lastTimestamp); try reflexivity;
      [apply session_aux_perm | exact Htot | exact Htrans | | exact Hp].
    intros s1 s2 Hs1 Hs2 H12 H21.
    rewrite <- sessionSummaries_engine in Hs1, Hs2.
    apply (Hties (sessionRow mp s1) (sessionRow mp s2)); try assumption;
      apply in_map, Array_sort_In; assumption.
  + intros r Hr. apply in_map_iff in Hr. destruct Hr as (s & <- & Hs).
    apply Array_sort_In in Hs. rewrite sessionSummaries_engine in Hs.
    apply (group_of_value _ _ _ ss_sessionId ss_usage) in Hs; try reflexivity.
    destruct Hs as (Hr & _). apply session_last in Hr.
    destruct Hr as ((e & He & Ht) & Hall). simpl. split.
    * apply filter_In in He. destruct He as [He Hg]. rewrite inGroup_session in Hg.
      apply andb_true_iff in Hg. destruct Hg as [Hc Hk]. apply String.eqb_eq in Hk.
      exists e. auto.
    * intros e2 He2 Hc Hk. apply Hall. apply filter_In. split; [exact He2|].
      rewrite inGroup_session, Hc, Hk. apply String.eqb_refl.
Qed.

End ReportInvariance.

(** ** The reports on the sample events *)

Lemma utc_localeCompare_le (a b : string) :
  localeCompare a b <= 0 <-> String.leb a b = true.
Proof.
unfold localeCompare, Samples.utcHost, String.leb.
destruct (String.compare a b); split; intros; try reflexivity; try lia; discriminate.
Qed.

Lemma utc_localeCompare_total (a b : string) :
  localeCompare a b <= 0 \/ localeCompare b a <= 0.
Proof. rewrite !utc_localeCompare_le. apply String.leb_total. Qed.

Lemma utc_localeCompare_trans (a b c : string) :
  localeCompare a b <= 0 -> localeCompare b c <= 0 -> localeCompare a c <= 0.
Proof. rewrite !utc_localeCompare_le. apply String_leb_trans. Qed.

(** The expectations of the test of [buildDailyReport]: two rows, the first
    with the totals of 2025-09-11 and the cost of its two models. *)
Example daily_report_test :
  exists r1 r2,
    Reports.buildDailyReport Samples.events Samples.options = Ok [r1; r2] /\
    Reports.dr_date r1 = "2025-09-11" /\
    Reports.dr_inputTokens r1 = 1400 /\
    Reports.dr_cachedInputTokens r1 = 300 /\
    Reports.dr_outputTokens r1 = 700 /\
    Reports.dr_reasoningOutputTokens r1 = 50 /\
    (Reports.dr_costUSD r1 ==
       (800 # 1000000) * (125 # 100) + (200 # 1000000) * (125 # 1000)
       + (500 # 1000000) * 10 + (300 # 1000000) * (6 # 10)
       + (100 # 1000000) * (6 # 100) + (200 # 1000000) * 2)%Q.
Proof.
do 2 eexists. split; [vm_compute; reflexivity|]. repeat split.
Qed.

(** The expectations of the test of [buildSessionReport] on the same
    events: the session last active on 2025-09-11 comes first. *)
Example session_report_test :
  exists r1 r2,
    Reports.buildSessionReport Samples.events Samples.options = Ok [r1; r2] /\
    Reports.sr_sessionId r1 = "session-1" /\
    Reports.lastActivity r1 = "2025-09-11T05:00:00.000Z" /\
    Reports.sr_totalTokens r1 = 2250 /\
    Reports.sr_sessionId r2 = "session-2".
Proof.
do 2 eexists. split; [vm_compute; reflexivity|]. repeat split.
Qed.

(** The test of pricing.ts: "gpt-5-codex" is priced through its alias. *)
Example pricing_alias_test :
  exists p,
    Pricing.getPricing (Samples.source false None [("gpt-5", Samples.gpt5)]) "gpt-5-codex"
      = ([], Ok p) /\
    pricingResolution p = alias /\ pricingModel p = "gpt-5" /\
    (inputCostPerMToken p == 125 # 100)%Q /\
    (outputCostPerMToken p == 10)%Q /\
    (cachedInputCostPerMToken p == 125 # 1000)%Q.
Proof.
eexists. split; [vm_compute; reflexivity|]. repeat split.
Qed.

(** ** Instances of the report properties on the sample events *)

Lemma events_contribute_iff_witness :
  Reports.dailyStep Samples.options [] Samples.eBlank = []
  /\ Reports.sessionStep Samples.options [] Samples.eLate = [].
Proof.
pose proof (events_contribute_iff Samples.options Samples.events) as Hc.
split.
- apply (proj1 (proj2 Hc)). reflexivity.
- apply (proj1 (proj2 (proj2 (proj2 Hc)))). reflexivity.
Defined.

Lemma rows_sorted_and_split_witness :
  exists rows,
    Reports.buildSessionReport [Samples.eA; Samples.e3] Samples.options = Ok rows /\
    StronglySorted
      (fun r r' => localeCompare (Reports.lastActivity r) (Reports.lastActivity r') <= 0)
      rows /\
    forall r, In r rows ->
      In "/"%char (list_ascii_of_string (Reports.sr_sessionId r)) ->
      Reports.sr_sessionId r = Reports.directory r ++ "/" ++ Reports.sessionFile r.
Proof.
pose proof (proj2 (proj2 (rows_sorted_and_split Samples.options
  [Samples.eA; Samples.e3] utc_localeCompare_total utc_localeCompare_trans))) as Hc.
eexists. split; [reflexivity|].
destruct (Hc _ eq_refl) as (Hs & _ & Hsplit). split; [exact Hs|].
intros r Hr Hin. exact (proj1 (proj2 (Hsplit r Hr) Hin)).
Defined.

Lemma reports_invariant_under_reordering_witness :
  exists rows rows',
    Reports.buildDailyReport Samples.events Samples.options = Ok rows /\
    Reports.buildDailyReport (rev Samples.events) Samples.options = Ok rows' /\
    Permutation (map Instances.dailyView rows) (map Instances.dailyView rows').
Proof.
pose proof (proj1 (reports_invariant_under_reordering Samples.options
  Samples.events (rev Samples.events) (Permutation_rev Samples.events)
  utc_localeCompare_total utc_localeCompare_trans)) as Hc.
destruct (Hc _ eq_refl) as (rows' & Hb & Hp & _).
eexists. exists rows'. split; [reflexivity|]. split; [exact Hb | exact Hp].
Defined.

(** C4, as stated, fails for the order of session rows: two sessions whose
    last activity has the same timestamp come out in the order in which
    their first events arrive. *)
Lemma session_order_counterexample :
  Permutation [Samples.eA; Samples.eB] [Samples.eB; Samples.eA]
  /\ exists rows rows',
       Reports.buildSessionReport [Samples.eA; Samples.eB] Samples.options = Ok rows /\
       Reports.buildSessionReport [Samples.eB; Samples.eA] Samples.options = Ok rows' /\
       map Reports.sr_sessionId rows = ["dir/a/session-1"; "session-2"] /\
       map Reports.sr_sessionId rows' = ["session-2"; "dir/a/session-1"] /\
       map Instances.sessionView rows <> map Instances.sessionView rows'.
Proof.
split; [apply perm_swap|].
do 2 eexists. split; [vm_compute; reflexivity|]. split; [vm_compute; reflexivity|].
split; [reflexivity|]. split; [reflexivity|]. discriminate.
Qed.

(** The split of the ids of the two rows above. *)
Example session_split_test :
  exists r1 r2,
    Reports.buildSessionReport [Samples.eA; Samples.eB] Samples.options = Ok [r1; r2] /\
    Reports.directory r1 = "dir/a" /\ Reports.sessionFile r1 = "session-1" /\
    Reports.directory r2 = "" /\ Reports.sessionFile r2 = "session-2".
Proof.
do 2 eexists. split; [vm_compute; reflexivity|]. repeat split.
Qed.

(** * Further properties of pricing.ts *)

Section PricingMore.
Context {F : Type} `{Number F}.
Import Pricing PricingCases.

Lemma normalize_Err (m : string) (r : ResolvedPricing F) (msg : string) :
  normalizeModelPricing m r = Err msg -> msg = incompleteMessage m.
Proof.
unfold normalizeModelPricing.
destruct (input_cost_per_token (pricing r)), (output_cost_per_token (pricing r));
  simpl; congruence.
Qed.

Lemma normalize_Ok (m : string) (r : ResolvedPricing F) (p : ModelPricing F) :
  normalizeModelPricing m r = Ok p ->
  exists ic oc,
    input_cost_per_token (pricing r) = Some ic /\
    output_cost_per_token (pricing r) = Some oc /\
    p = {| inputCostPerMToken := num_mul ic MILLION;
           cachedInputCostPerMToken :=
             num_mul (match cache_read_input_token_cost (pricing r) with
                      | Some c => c
                      | None => ic
                      end) MILLION;
           outputCostPerMToken := num_mul oc MILLION;
           pricingResolution := resolution r;
           pricingModel := key r |}.
Proof.
unfold normalizeModelPricing.
destruct (input_cost_per_token (pricing r)) as [ic|]; [|discriminate].
destruct (output_cost_per_token (pricing r)) as [oc|]; [|discriminate].
simpl. intros [= <-]. eauto.
Qed.

Lemma findDirectPricing_Some (pm : JsMap (LiteLLMModelPricing F)) (m : string)
    (r : ResolvedPricing F) :
  findDirectPricing pm m = Some r ->
  In (key r) (directCandidates m) /\ Map_get pm (key r) = Some (pricing r) /\
  resolution r = direct.
Proof.
intros Hr. apply findDirectLoop_first in Hr.
destruct Hr as (pre & c & post & p & Hc & _ & Hg & ->).
split; [rewrite Hc; apply in_elt | split; [exact Hg | reflexivity]].
Qed.

Lemma findAliasPricing_Some (pm : JsMap (LiteLLMModelPricing F)) (m : string)
    (r : ResolvedPricing F) :
  findAliasPricing pm m = Some r ->
  exists target,
    Map_get CODEX_MODEL_ALIASES_MAP m = Some target /\
    In (key r) (directCandidates target) /\ Map_get pm (key r) = Some (pricing r) /\
    resolution r = alias.
Proof.
unfold findAliasPricing.
destruct (Map_get CODEX_MODEL_ALIASES_MAP m) as [target|]; [|discriminate].
destruct (findDirectPricing pm target) as [r0|] eqn:E; [|discriminate].
intros [= <-]. apply findDirectPricing_Some in E. destruct E as (H1 & H2 & _).
exists target. simpl. auto.
Qed.

Lemma single_match_lookup {V : Type} (f : string -> bool) (pm : JsMap V)
    (k : string) (v : V) :
  filter (fun entry => f (fst entry)) pm = [(k, v)] -> Map_get pm k = Some v.
Proof.
induction pm as [|[k0 v0] pm IH]; simpl; [discriminate|].
destruct (f k0) eqn:E.
- intros [= -> -> _]. rewrite String.eqb_refl. reflexivity.
- intros Hf. destruct (String.eqb k0 k) eqn:Ek; [|auto].
  apply String.eqb_eq in Ek. subst k0. exfalso.
  assert (Hin : In (k, v) (filter (fun entry => f (fst entry)) pm))
    by (rewrite Hf; left; reflexivity).
  apply filter_In in Hin. simpl in Hin. destruct Hin. congruence.
Qed.

Lemma getPricing_Ok_inv (self : CodexPricingSource)
    (pm : JsMap (LiteLLMModelPricing F)) (m : string) (w : list string)
    (p : ModelPricing F) :
  fetcher self = Ok pm -> getPricing self m = (w, Ok p) ->
  exists r, Resolves self pm m w r /\ normalizeModelPricing m r = Ok p.
Proof.
intros Hf. unfold getPricing, getPricingMap. rewrite Hf.
destruct (findDirectPricing pm m) as [r|] eqn:Ed; simpl.
{ intros [= <- Hn]. exists r. split; [apply by_direct; auto | exact Hn]. }
destruct (findAliasPricing pm m) as [r|] eqn:Ea; simpl.
{ intros [= <- Hn]. exists r. split; [apply by_alias; auto | exact Hn]. }
assert (Hfb : forall (Hz : allowFuzzyPricing self = true -> fuzzyMatches pm m = []),
  match fallbackStep self pm m None with
  | (w0, Err e) => (w0, Err e)
  | (w0, Ok None) =>
      if negb (allowFuzzyPricing self)
      then (w0, Err (notFoundDisabledMessage m))
      else (w0, Err (notFoundMessage m))
  | (w0, Ok (Some r)) => (w0, normalizeModelPricing m r)
  end = (w, Ok p) ->
  exists r, Resolves self pm m w r /\ normalizeModelPricing m r = Ok p).
{ intros Hz. unfold fallbackStep.
  destruct (unknownModelFallback self) as [raw|] eqn:Eraw;
    [|destruct (negb (allowFuzzyPricing self)); discriminate].
  destruct (String.eqb (JsString.trim raw) "") eqn:Et;
    [destruct (negb (allowFuzzyPricing self)); discriminate|].
  apply String.eqb_neq in Et.
  destruct (findDirectPricing pm (JsString.trim raw)) as [r0|] eqn:Ed0.
  - intros [= <- Hn]. eexists. split; [|exact Hn].
    eapply by_fallback; eauto.
  - destruct (findAliasPricing pm (JsString.trim raw)) as [r0|] eqn:Ea0; [|discriminate].
    intros [= <- Hn]. eexists. split; [|exact Hn].
    eapply by_fallback; eauto. }
destruct (allowFuzzyPricing self) eqn:Ez; simpl.
- unfold findFuzzyPricing.
  destruct (fuzzyMatches pm m) as [|[k v] [|b l]] eqn:Em; simpl.
  + apply Hfb. auto.
  + intros [= <- Hn]. eexists. split; [|exact Hn]. eapply by_fuzzy; eauto.
  + discriminate.
- apply Hfb. discriminate.
Qed.

Lemma Resolves_lookup (self : CodexPricingSource)
    (pm : JsMap (LiteLLMModelPricing F)) (m : string) (w : list string)
    (r : ResolvedPricing F) :
  Resolves self pm m w r -> Map_get pm (key r) = Some (pricing r).
Proof.
intros [_ Hd|_ _ Ha|k v _ _ _ _ Hm ->|raw r0 _ _ _ _ _ Hr -> _]; simpl.
- apply findDirectPricing_Some in Hd. tauto.
- apply findAliasPricing_Some in Ha. destruct Ha as (? & ? & ? & ? & ?). assumption.
- unfold fuzzyMatches in Hm.
  exact (single_match_lookup
           (fun k0 => JsString.includes (JsString.toLowerCase k0) (JsString.toLowerCase m)
                      || JsString.includes (JsString.toLowerCase m) (JsString.toLowerCase k0))
           pm k v Hm).
- destruct Hr as [Hd|[_ Ha]].
  + apply findDirectPricing_Some in Hd. tauto.
  + apply findAliasPricing_Some in Ha. destruct Ha as (? & ? & ? & ? & ?). assumption.
Qed.

End PricingMore.

Section PricingOutcome.
Context {F : Type} `{Number F}.
Import Pricing PricingCases.

Lemma getPricing_inv (self : CodexPricingSource)
    (pm : JsMap (LiteLLMModelPricing F)) (m : string) (w : list string)
    (res : result (ModelPricing F)) :
  fetcher self = Ok pm -> getPricing self m = (w, res) ->
  (exists r, Resolves self pm m w r /\ res = normalizeModelPricing m r)
  \/ (w = [] /\
      findDirectPricing pm m = None /\ findAliasPricing pm m = None /\
      ((allowFuzzyPricing self = true /\
        (2 <= List.length (fuzzyMatches pm m))%nat /\
        res = Err (ambiguousMessage m (fuzzyMatches pm m)))
       \/ ((allowFuzzyPricing self = true -> fuzzyMatches pm m = []) /\
           ((exists raw,
               unknownModelFallback self = Some raw /\ JsString.trim raw <> "" /\
               findDirectPricing pm (JsString.trim raw) = None /\
               findAliasPricing pm (JsString.trim raw) = None /\
               res = Err (fallbackFailedMessage (JsString.trim raw) m))
            \/ ((forall raw, unknownModelFallback self = Some raw ->
                             JsString.trim raw = "") /\
                res = Err (if allowFuzzyPricing self then notFoundMessage m
                           else notFoundDisabledMessage m)))))).
Proof.
intros Hf. unfold getPricing, getPricingMap. rewrite Hf.
destruct (findDirectPricing pm m) as [r|] eqn:Ed; simpl.
{ intros [= <- <-]. left. exists r. split; [apply by_direct; auto | reflexivity]. }
destruct (findAliasPricing pm m) as [r|] eqn:Ea; simpl.
{ intros [= <- <-]. left. exists r. split; [apply by_alias; auto | reflexivity]. }
assert (Hfb : forall (Hz : allowFuzzyPricing self = true -> fuzzyMatches pm m = []),
  match fallbackStep self pm m None with
  | (w0, Err e) => (w0, Err e)
  | (w0, Ok None) =>
      if negb (allowFuzzyPricing self)
      then (w0, Err (notFoundDisabledMessage m))
      else (w0, Err (notFoundMessage m))
  | (w0, Ok (Some r)) => (w0, normalizeModelPricing m r)
  end = (w, res) ->
  (exists r, Resolves self pm m w r /\ res = normalizeModelPricing m r)
  \/ (w = [] /\ None = (None : option (ResolvedPricing F)) /\
      None = (None : option (ResolvedPricing F)) /\
      ((allowFuzzyPricing self = true /\
        (2 <= List.length (fuzzyMatches pm m))%nat /\
        res = Err (ambiguousMessage m (fuzzyMatches pm m)))
       \/ ((allowFuzzyPricing self = true -> fuzzyMatches pm m = []) /\
           ((exists raw,
               unknownModelFallback self = Some raw /\ JsString.trim raw <> "" /\
               findDirectPricing pm (JsString.trim raw) = None /\
               findAliasPricing pm (JsString.trim raw) = None /\
               res = Err (fallbackFailedMessage (JsString.trim raw) m))
            \/ ((forall raw, unknownModelFallback self = Some raw ->
                             JsString.trim raw = "") /\
                res = Err (if allowFuzzyPricing self then notFoundMessage m
                           else notFoundDisabledMessage m))))))).
{ intros Hz. unfold fallbackStep.
  destruct (unknownModelFallback self) as [raw|] eqn:Eraw.
  - destruct (String.eqb (JsString.trim raw) "") eqn:Et.
    + apply String.eqb_eq in Et. intros Hres.
      assert (Hw : w = [] /\ res = Err (if allowFuzzyPricing self then notFoundMessage m
                                        else notFoundDisabledMessage m))
        by (destruct (allowFuzzyPricing self); simpl in Hres;
            injection Hres as <- <-; auto).
      destruct Hw as [-> ->]. right. split; [reflexivity|]. split; [reflexivity|].
      split; [reflexivity|]. right. split; [exact Hz|]. right. split; [|reflexivity].
      intros raw' [= <-]. exact Et.
    + apply String.eqb_neq in Et.
      destruct (findDirectPricing pm (JsString.trim raw)) as [r0|] eqn:Ed0.
      * intros [= <- <-]. left. eexists. split; [|reflexivity].
        eapply by_fallback; eauto.
      * destruct (findAliasPricing pm (JsString.trim raw)) as [r0|] eqn:Ea0.
        -- intros [= <- <-]. left. eexists. split; [|reflexivity].
           eapply by_fallback; eauto.
        -- intros [= <- <-]. right. split; [reflexivity|]. split; [reflexivity|].
           split; [reflexivity|]. right. split; [exact Hz|].
           left. exists raw. auto.
  - intros Hres.
    assert (Hw : w = [] /\ res = Err (if allowFuzzyPricing self then notFoundMessage m
                                      else notFoundDisabledMessage m))
      by (destruct (allowFuzzyPricing self); simpl in Hres;
          injection Hres as <- <-; auto).
    destruct Hw as [-> ->]. right. split; [reflexivity|]. split; [reflexivity|].
    split; [reflexivity|]. right. split; [exact Hz|]. right. split; [|reflexivity].
    discriminate. }
destruct (allowFuzzyPricing self) eqn:Ez; simpl.
- unfold findFuzzyPricing.
  destruct (fuzzyMatches pm m) as [|[k v] [|b l]] eqn:Em; simpl.
  + apply Hfb. auto.
  + intros [= <- <-]. left. eexists. split; [|reflexivity]. eapply by_fuzzy; eauto.
  + intros [= <- <-]. right. split; [reflexivity|]. split; [reflexivity|].
    split; [reflexivity|]. left. split; [reflexivity|]. split; [simpl; lia | reflexivity].
- apply Hfb. discriminate.
Qed.

End PricingOutcome.

Section PricingExtras.
Context {F : Type} `{Number F}.
Import Pricing PricingCases.

Lemma Resolves_tag (self : CodexPricingSource)
    (pm : JsMap (LiteLLMModelPricing F)) (m : string) (w : list string)
    (r : ResolvedPricing F) :
  Resolves self pm m w r -> (resolution r = fallback <-> w <> []).
Proof.
intros [ -> Hd| -> _ Ha|k v -> _ _ _ _ -> |raw r0 _ _ _ _ _ _ -> -> ]; simpl.
- apply findDirectPricing_Some in Hd. destruct Hd as (_ & _ & ->).
  split; [discriminate | congruence].
- apply findAliasPricing_Some in Ha. destruct Ha as (? & _ & _ & _ & ->).
  split; [discriminate | congruence].
- split; [discriminate | congruence].
- split; [discriminate | reflexivity].
Qed.

(** X1.  The errors of [getPricing].  A failed fetch of the price list is
    thrown as it is.  With a price list, the only errors are: the ambiguity
    error (fuzzy enabled, two or more matches), the fallback error (a
    non-blank fallback that the direct and alias tiers cannot resolve), the
    two not-found errors, and the incomplete-record error; the error
    "Missing required pricing value" of [toPerMillion] is never thrown. *)
Theorem getPricing_error_kinds (self : CodexPricingSource) (model_ : string)
    (w : list string) (msg : string) :
  getPricing self model_ = (w, Err msg) ->
  (fetcher self = Err msg /\ w = [])
  \/ exists pm,
       fetcher self = Ok pm /\
       msg <> "Missing required pricing value" /\
       ((allowFuzzyPricing self = true /\
         (2 <= List.length (fuzzyMatches pm model_))%nat /\
         msg = ambiguousMessage model_ (fuzzyMatches pm model_))
        \/ (exists raw,
              unknownModelFallback self = Some raw /\ JsString.trim raw <> "" /\
              msg = fallbackFailedMessage (JsString.trim raw) model_)
        \/ (allowFuzzyPricing self = false /\ msg = notFoundDisabledMessage model_)
        \/ (allowFuzzyPricing self = true /\ msg = notFoundMessage model_)
        \/ msg = incompleteMessage model_).
Proof.
intros Hg. destruct (fetcher self) as [pm|e] eqn:Ef.
- right. exists pm. split; [reflexivity|].
  assert (Hk :
    (allowFuzzyPricing self = true /\
     (2 <= List.length (fuzzyMatches pm model_))%nat /\
     msg = ambiguousMessage model_ (fuzzyMatches pm model_))
    \/ (exists raw,
          unknownModelFallback self = Some raw /\ JsString.trim raw <> "" /\
          msg = fallbackFailedMessage (JsString.trim raw) model_)
    \/ (allowFuzzyPricing self = false /\ msg = notFoundDisabledMessage model_)
    \/ (allowFuzzyPricing self = true /\ msg = notFoundMessage model_)
    \/ msg = incompleteMessage model_).
  { destruct (getPricing_inv self pm model_ w _ Ef Hg)
      as [(r & _ & Hn)|(_ & _ & _ & [(Hz & Hl & Hm)|(_ & [Hfb|(_ & Hm)])])].
    - symmetry in Hn. apply normalize_Err in Hn. tauto.
    - injection Hm as ->. tauto.
    - destruct Hfb as (raw & Hr & Ht & _ & _ & Hm). injection Hm as ->.
      right. left. eauto.
    - injection Hm as ->. destruct (allowFuzzyPricing self); tauto. }
  split; [|exact Hk].
  destruct Hk as [(_ & _ & ->)|[(raw & _ & _ & ->)|[(_ & ->)|[(_ & ->)| ->]]]];
    discriminate.
- unfold getPricing, getPricingMap in Hg. rewrite Ef in Hg. injection Hg as <- <-.
  left. auto.
Qed.

(** X2.  A priced model is in the price list.  When [getPricing] returns a
    pricing, the key it reports as [pricingModel] is a key of the price
    list, the record stored under that key has both required costs, and the
    three per-million costs returned are those of that record times
    1,000,000 (the cached one from the cache-read cost, or from the input
    cost when the record has none). *)
Theorem getPricing_priced_key (self : CodexPricingSource)
    (pm : JsMap (LiteLLMModelPricing F)) (model_ : string) (w : list string)
    (p : ModelPricing F) :
  fetcher self = Ok pm -> getPricing self model_ = (w, Ok p) ->
  exists rec ic oc,
    Map_get pm (pricingModel p) = Some rec /\
    input_cost_per_token rec = Some ic /\
    output_cost_per_token rec = Some oc /\
    inputCostPerMToken p = num_mul ic (num_ofZ 1000000) /\
    outputCostPerMToken p = num_mul oc (num_ofZ 1000000) /\
    cachedInputCostPerMToken p =
      num_mul (match cache_read_input_token_cost rec with
               | Some c => c
               | None => ic
               end) (num_ofZ 1000000).
Proof.
intros Hf Hg.
destruct (getPricing_inv self pm model_ w _ Hf Hg)
  as [(r & Hr & Hn)|(_ & _ & _ & [(_ & _ & Hm)|(_ & [Hfb|(_ & Hm)])])];
  try discriminate.
- symmetry in Hn. apply normalize_Ok in Hn. destruct Hn as (ic & oc & Hi & Ho & ->).
  exists (pricing r), ic, oc. simpl. repeat split; auto.
  exact (Resolves_lookup self pm model_ w r Hr).
- destruct Hfb as (? & _ & _ & _ & _ & Hm). discriminate.
Qed.

(** X3.  What the resolution tag of a returned pricing means.  [direct]:
    the priced key is the name or the name behind a provider prefix.
    [alias]: no such key is listed, the alias table maps the name to a
    target, and the priced key is the target or the target behind a
    prefix.  [fuzzy]: fuzzy matching is enabled, the direct and alias tiers
    found nothing, and the priced key is the only listed key that contains
    the name or is contained in it, ignoring case.  [fallback]: the direct,
    alias and (if enabled) fuzzy tiers found nothing and the priced key
    comes from the direct or alias tier on the trimmed fallback name. *)
Theorem getPricing_tag_meaning (self : CodexPricingSource)
    (pm : JsMap (LiteLLMModelPricing F)) (model_ : string) (w : list string)
    (p : ModelPricing F) :
  fetcher self = Ok pm -> getPricing self model_ = (w, Ok p) ->
  match pricingResolution p with
  | direct => In (pricingModel p) (directCandidates model_)
  | alias =>
      findDirectPricing pm model_ = None /\
      exists target,
        Map_get CODEX_MODEL_ALIASES_MAP model_ = Some target /\
        In (pricingModel p) (directCandidates target)
  | fuzzy =>
      allowFuzzyPricing self = true /\
      findDirectPricing pm model_ = None /\ findAliasPricing pm model_ = None /\
      map fst (fuzzyMatches pm model_) = [pricingModel p]
  | fallback =>
      findDirectPricing pm model_ = None /\ findAliasPricing pm model_ = None /\
      (allowFuzzyPricing self = true -> fuzzyMatches pm model_ = []) /\
      exists raw,
        unknownModelFallback self = Some raw /\ JsString.trim raw <> "" /\
        (In (pricingModel p) (directCandidates (JsString.trim raw)) \/
         exists target,
           Map_get CODEX_MODEL_ALIASES_MAP (JsString.trim raw) = Some target /\
           In (pricingModel p) (directCandidates target))
  end.
Proof.
intros Hf Hg.
destruct (getPricing_inv self pm model_ w _ Hf Hg)
  as [(r & Hr & Hn)|(_ & _ & _ & [(_ & _ & Hm)|(_ & [Hfb|(_ & Hm)])])];
  try discriminate.
- symmetry in Hn. apply normalize_Ok in Hn. destruct Hn as (ic & oc & _ & _ & ->).
  simpl.
  destruct Hr as [_ Hd|_ Hd Ha|k v _ Hd Ha Hz Hm ->|raw r0 Hd Ha Hz Hraw Ht Hr0 -> _];
    simpl.
  + apply findDirectPricing_Some in Hd. destruct Hd as (Hin & _ & ->). exact Hin.
  + apply findAliasPricing_Some in Ha. destruct Ha as (target & Ht & Hin & _ & ->).
    split; [exact Hd|]. eauto.
  + repeat split; auto. rewrite Hm. reflexivity.
  + repeat split; auto. exists raw. repeat split; auto.
    destruct Hr0 as [Hd0|[_ Ha0]].
    * left. apply findDirectPricing_Some in Hd0. tauto.
    * right. apply findAliasPricing_Some in Ha0.
      destruct Ha0 as (target & ? & ? & _). eauto.
- destruct Hfb as (? & _ & _ & _ & _ & Hm). discriminate.
Qed.

(** X4.  The warning goes with the fallback.  [getPricing] logs at most one
    warning, the one of the fallback tier, and a returned pricing is tagged
    [fallback] exactly when that warning was logged. *)
Theorem getPricing_warning_iff_fallback (self : CodexPricingSource)
    (model_ : string) (w : list string) (res : result (ModelPricing F)) :
  getPricing self model_ = (w, res) ->
  (w = [] \/
   exists raw, unknownModelFallback self = Some raw /\
               w = [fallbackWarning model_ (JsString.trim raw)])
  /\ forall p, res = Ok p -> (pricingResolution p = fallback <-> w <> []).
Proof.
intros Hg. destruct (fetcher self) as [pm|e] eqn:Ef.
- destruct (getPricing_inv self pm model_ w _ Ef Hg)
    as [(r & Hr & Hn)|(-> & _ & _ & Hres)].
  + split.
    * destruct Hr as [ -> _| -> _ _|k v -> _ _ _ _ _|raw r0 _ _ _ Hraw _ _ _ -> ]; eauto.
    * intros p ->. symmetry in Hn. apply normalize_Ok in Hn.
      destruct Hn as (ic & oc & _ & _ & ->). simpl.
      exact (Resolves_tag self pm model_ w r Hr).
  + split; [left; reflexivity|]. intros p ->.
    destruct Hres as [(_ & _ & Hm)|(_ & [(? & _ & _ & _ & _ & Hm)|(_ & Hm)])];
      discriminate.
- unfold getPricing, getPricingMap in Hg. rewrite Ef in Hg. injection Hg as <- <-.
  split; [left; reflexivity|]. discriminate.
Qed.

(** X5.  Options matter only to unresolved names.  When the direct or the
    alias tier resolves a name, [getPricing] returns the same thing for
    every setting of the fuzzy flag and of the fallback name. *)
Theorem getPricing_options_irrelevant (self self' : CodexPricingSource)
    (pm : JsMap (LiteLLMModelPricing F)) (model_ : string) :
  fetcher self = Ok pm -> fetcher self' = Ok pm ->
  findDirectPricing pm model_ <> None \/ findAliasPricing pm model_ <> None ->
  getPricing self model_ = getPricing self' model_.
Proof.
intros Hf Hf' Hr. unfold getPricing, getPricingMap. rewrite Hf, Hf'.
destruct (findDirectPricing pm model_) as [r|] eqn:Ed; simpl; [reflexivity|].
destruct (findAliasPricing pm model_) as [r|] eqn:Ea; simpl; [reflexivity|].
destruct Hr; congruence.
Qed.

Lemma fuzzy_self (k : string) :
  JsString.includes (JsString.toLowerCase k) (JsString.toLowerCase k) = true.
Proof. apply includes_refl. Qed.

Lemma includes_empty (s : string) : JsString.includes s "" = true.
Proof. destruct s; reflexivity. Qed.

(** X6.  Fuzzy matching ignores case, always matches a listed key against
    itself, and matches the empty name against every key: names that agree
    up to case have the same matches, an entry of the price list is among
    the matches of its own key, and the matches of the empty name are the
    whole price list, so with fuzzy matching enabled the empty name is
    ambiguous on every price list of two or more entries that does not list
    the empty name or a bare provider prefix. *)
Theorem fuzzyMatches_facts (pm : JsMap (LiteLLMModelPricing F)) :
  (forall m m', JsString.toLowerCase m = JsString.toLowerCase m' ->
                fuzzyMatches pm m = fuzzyMatches pm m')
  /\ (forall k v, In (k, v) pm -> In (k, v) (fuzzyMatches pm k))
  /\ fuzzyMatches pm "" = pm
  /\ (forall self,
        fetcher self = Ok pm -> allowFuzzyPricing self = true ->
        findDirectPricing pm "" = None ->
        (2 <= List.length pm)%nat ->
        getPricing self "" = ([], Err (ambiguousMessage "" pm))).
Proof.
assert (Hall : fuzzyMatches pm "" = pm).
{ unfold fuzzyMatches. simpl. induction pm as [|[k v] l IH]; simpl; [reflexivity|].
  rewrite includes_empty. simpl. rewrite IH. reflexivity. }
split; [|split; [|split]].
- intros m m' Hl. unfold fuzzyMatches. rewrite Hl. reflexivity.
- intros k v Hin. unfold fuzzyMatches. apply filter_In. split; [exact Hin|].
  simpl. rewrite fuzzy_self. reflexivity.
- exact Hall.
- intros self Hf Hz Hd Hlen.
  unfold getPricing, getPricingMap. rewrite Hf, Hd. simpl. rewrite Hz.
  unfold findFuzzyPricing. rewrite Hall.
  destruct pm as [|a [|b l]]; simpl in Hlen; try lia. reflexivity.
Qed.

End PricingExtras.

(** ** The further pricing properties on the sample price list *)

Lemma getPricing_error_kinds_witness :
  exists pm,
    Pricing.fetcher (Samples.source true None Samples.priceList) = Ok pm /\
    "Ambiguous fuzzy pricing resolution for model gpt; 3 candidates found: gpt-5-codex, gpt-5, azure/gpt-4o"
      <> "Missing required pricing value".
Proof.
destruct (getPricing_error_kinds (Samples.source true None Samples.priceList) "gpt" []
  "Ambiguous fuzzy pricing resolution for model gpt; 3 candidates found: gpt-5-codex, gpt-5, azure/gpt-4o"
  eq_refl) as [[Hf _]|(pm & Hf & Hne & _)].
- discriminate Hf.
- exists pm. split; [exact Hf | exact Hne].
Defined.

Lemma getPricing_priced_key_witness :
  exists w p,
    Pricing.getPricing (Samples.source false None Samples.priceList) "gpt-4o" = (w, Ok p) /\
    exists rec ic oc,
      Map_get Samples.priceList (pricingModel p) = Some rec /\
      input_cost_per_token rec = Some ic /\
      output_cost_per_token rec = Some oc /\
      inputCostPerMToken p = num_mul ic (num_ofZ 1000000) /\
      outputCostPerMToken p = num_mul oc (num_ofZ 1000000) /\
      cachedInputCostPerMToken p =
        num_mul (match cache_read_input_token_cost rec with
                 | Some c => c
                 | None => ic
                 end) (num_ofZ 1000000).
Proof.
do 2 eexists. split; [vm_compute; reflexivity|].
apply (getPricing_priced_key (Samples.source false None Samples.priceList)
         Samples.priceList "gpt-4o" []); reflexivity.
Defined.

Lemma getPricing_tag_meaning_witness :
  exists w p,
    Pricing.getPricing (Samples.source true None Samples.priceList) "GPT-4O" = (w, Ok p) /\
    pricingResolution p = fuzzy /\
    map fst (Pricing.fuzzyMatches Samples.priceList "GPT-4O") = [pricingModel p].
Proof.
do 2 eexists. split; [vm_compute; reflexivity|]. split; [reflexivity|].
exact (proj2 (proj2 (proj2
  (getPricing_tag_meaning (Samples.source true None Samples.priceList)
     Samples.priceList "GPT-4O" [] _ eq_refl eq_refl)))).
Defined.

Lemma getPricing_warning_iff_fallback_witness :
  exists w p,
    Pricing.getPricing (Samples.source false (Some "gpt-5") Samples.priceList) "o9"
      = (w, Ok p) /\
    (pricingResolution p = fallback <-> w <> []).
Proof.
do 2 eexists. split; [vm_compute; reflexivity|].
exact (proj2 (getPricing_warning_iff_fallback
  (Samples.source false (Some "gpt-5") Samples.priceList) "o9" _ _ eq_refl) _ eq_refl).
Defined.

Lemma getPricing_options_irrelevant_witness :
  Pricing.getPricing (Samples.source false None Samples.priceList) "gpt-4o" =
  Pricing.getPricing (Samples.source true (Some "gpt-5") Samples.priceList) "gpt-4o".
Proof.
apply (getPricing_options_irrelevant
         (Samples.source false None Samples.priceList)
         (Samples.source true (Some "gpt-5") Samples.priceList)
         Samples.priceList "gpt-4o" eq_refl eq_refl).
left. discriminate.
Defined.

Lemma fuzzyMatches_facts_witness :
  Pricing.getPricing (Samples.source true None Samples.priceList) "" =
  ([], Err "Ambiguous fuzzy pricing resolution for model ; 3 candidates found: gpt-5-codex, gpt-5, azure/gpt-4o").
Proof.
apply (proj2 (proj2 (proj2 (fuzzyMatches_facts Samples.priceList)))
         (Samples.source true None Samples.priceList) eq_refl eq_refl eq_refl).
vm_compute. lia.
Defined.

(** * Further properties of the report builders *)

Lemma filter_filter {A : Type} (f g : A -> bool) (l : list A) :
  filter f (filter g l) = filter (fun x => g x && f x) l.
Proof.
induction l as [|x l IH]; simpl; [reflexivity|].
destruct (g x); simpl; [destruct (f x); rewrite IH; reflexivity | exact IH].
Qed.

Lemma sumUsage_sumDeltas (es : list TokenUsageEvent) :
  sumUsage es = sumDeltas (map ev_usage es).
Proof. induction es as [|e es IH]; simpl; [reflexivity | rewrite IH; reflexivity]. Qed.

Lemma sumDeltas_perm (l l' : list TokenUsageDelta) :
  Permutation l l' -> sumDeltas l = sumDeltas l'.
Proof.
induction 1 as [|x l l' _ IH|x y l|l l' l'' _ IH1 _ IH2]; simpl.
- reflexivity.
- rewrite IH. reflexivity.
- rewrite <- !addUsage_assoc. f_equal. apply addUsage_comm.
- congruence.
Qed.

Lemma fold_Set_add_NoDup (l acc : list string) :
  NoDup acc -> NoDup (fold_left Set_add l acc).
Proof.
revert acc. induction l as [|x l IH]; intros acc Hacc; simpl; [exact Hacc|].
apply IH. unfold Set_add. destruct (existsb (String.eqb x) acc) eqn:E; [exact Hacc|].
apply NoDup_app; [exact Hacc | repeat constructor; simpl; tauto |].
intros y Hy [<-|[]].
assert (Hex : existsb (String.eqb x) acc = true).
{ apply existsb_exists. exists x. split; [exact Hy | apply String.eqb_refl]. }
congruence.
Qed.

Lemma uniqueModelsOf_NoDup {S : Type} (modelsOf : S -> JsMap ModelUsage)
    (summaries : JsMap S) :
  NoDup (Reports.uniqueModelsOf modelsOf summaries).
Proof.
unfold Reports.uniqueModelsOf.
assert (Hg : forall l acc, NoDup acc ->
  NoDup (fold_left (fun u s => fold_left Set_add (Map_keys (modelsOf s)) u) l acc)).
{ induction l as [|s l IH]; intros acc Hacc; simpl; [exact Hacc|].
  apply IH, fold_Set_add_NoDup, Hacc. }
apply Hg. constructor.
Qed.

Lemma resolveModels_Err {F : Type} (source : PricingSource F) (names : list string) :
  forall acc msg,
    Reports.resolveModels source names acc = Err msg ->
    exists m, In m names /\ source m = Err msg.
Proof.
induction names as [|n names IH]; intros acc msg; simpl; [discriminate|].
destruct (source n) as [p|e] eqn:En.
- intros Hres. destruct (IH _ _ Hres) as (m & Hm & Hs). eauto.
- intros [= <-]. eauto.
Qed.

(** ** Per-model entries *)

Lemma addModelUsage_get_same (ms : JsMap ModelUsage) (m : string) (e : TokenUsageEvent) :
  exists u,
    Map_get (Reports.addModelUsage ms m e) m = Some u /\
    mu_usage u = addUsage (usageOrEmpty (Map_get ms m)) (ev_usage e) /\
    isFallback u = if fallbackMarked e then Some true else flagOrFalse (Map_get ms m).
Proof.
unfold Reports.addModelUsage. cbv zeta. rewrite Map_set_after_ensure, Map_get_set_same.
eexists. split; [reflexivity|]. unfold fallbackMarked, usageOrEmpty, flagOrFalse.
destruct (isFallbackModel e) as [[|]|]; destruct (Map_get ms m); simpl; auto.
Qed.

Lemma addModelUsage_get_other (ms : JsMap ModelUsage) (m m' : string)
    (e : TokenUsageEvent) :
  m' <> m -> Map_get (Reports.addModelUsage ms m' e) m = Map_get ms m.
Proof.
intros Hne. unfold Reports.addModelUsage. cbv zeta.
rewrite Map_set_after_ensure. apply Map_get_set_other, Hne.
Qed.

Section EngineDetails.
Context {S : Type}.
Variable classify : TokenUsageEvent -> option (string * string).
Variable create : string -> string -> S.
Variable bump : S -> TokenUsageEvent -> string -> S.
Variable susage : S -> TokenUsageDelta.
Variable smodels : S -> JsMap ModelUsage.
Variable sfirst : S -> string.
Hypothesis create_usage : forall k t, susage (create k t) = createEmptyUsage.
Hypothesis bump_usage :
  forall s e m, susage (bump s e m) = addUsage (susage s) (ev_usage e).
Hypothesis create_models : forall k t, smodels (create k t) = [].
Hypothesis bump_models :
  forall s e m, smodels (bump s e m) = Reports.addModelUsage (smodels s) m e.
Hypothesis create_first : forall k t, sfirst (create k t) = t.
Hypothesis bump_first : forall s e m, sfirst (bump s e m) = sfirst s.

Local Abbreviation step := (Engine.step classify create bump).
Local Abbreviation accumulate := (Engine.accumulate classify create bump).
Local Abbreviation modelOf := (Engine.modelOf classify).
Local Abbreviation replayFrom := (Engine.replayFrom classify bump).
Local Abbreviation replay := (Engine.replay classify create bump).

Lemma accumulate_none (evs : list TokenUsageEvent) :
  (forall e, In e evs -> classify e = None) -> accumulate evs = [].
Proof.
unfold Engine.accumulate. generalize (@nil (string * S)).
induction evs as [|e evs IH]; intros st Hall; simpl.
- reflexivity.
- rewrite step_skip by (apply Hall; left; reflexivity).
  apply IH. intros e' He'. apply Hall. right. exact He'.
Qed.

Lemma replayFrom_first (s : S) (es : list TokenUsageEvent) :
  sfirst (replayFrom s es) = sfirst s.
Proof.
revert s. induction es as [|e es IH]; intros s; simpl; [reflexivity|].
rewrite IH. apply bump_first.
Qed.

Lemma replay_first (k : string) (es : list TokenUsageEvent) (s : S) :
  replay k es = Some s ->
  exists e0 rest, es = e0 :: rest /\ sfirst s = timestamp e0.
Proof.
destruct es as [|e0 es]; [discriminate|]. intros Hs.
assert (Es : s = replayFrom (create k (timestamp e0)) (e0 :: es))
  by (unfold Engine.replay in Hs; congruence).
exists e0, es. split; [reflexivity|].
rewrite Es, replayFrom_first. apply create_first.
Qed.

Lemma replayFrom_model (m : string) (es : list TokenUsageEvent) :
  forall s,
    let o0 := Map_get (smodels s) m in
    let o := Map_get (smodels (replayFrom s es)) m in
    let esm := filter (fun e => String.eqb (modelOf e) m) es in
    (esm = [] -> o = o0) /\
    (esm <> [] ->
     exists u, o = Some u /\
       mu_usage u = addUsage (usageOrEmpty o0) (sumUsage esm) /\
       isFallback u = if existsb fallbackMarked esm then Some true else flagOrFalse o0).
Proof.
induction es as [|e es IH]; intros s; simpl.
- split; [reflexivity | congruence].
- specialize (IH (bump s e (modelOf e))). simpl in IH. rewrite bump_models in IH.
  destruct IH as [IHnil IHcons].
  destruct (String.eqb (modelOf e) m) eqn:Em.
  + apply String.eqb_eq in Em. split; [discriminate|]. intros _.
    destruct (addModelUsage_get_same (smodels s) (modelOf e) e) as (u1 & Hu1 & Hus & Hfl).
    rewrite Em in *. rewrite Hu1 in IHnil, IHcons. simpl in IHcons.
    destruct (filter (fun e0 => String.eqb (modelOf e0) m) es) as [|e' esm] eqn:Ef.
    * exists u1. split; [apply IHnil; reflexivity|]. simpl.
      rewrite addUsage_empty_r, orb_false_r. split; [exact Hus|].
      rewrite Hfl. destruct (fallbackMarked e); reflexivity.
    * destruct IHcons as (u & Ho & Husage & Hflag); [discriminate|].
      exists u. split; [exact Ho|]. split.
      -- rewrite Husage, Hus, addUsage_assoc. reflexivity.
      -- rewrite Hflag, Hfl.
         change (existsb fallbackMarked (e :: e' :: esm))
           with (fallbackMarked e || existsb fallbackMarked (e' :: esm)).
         destruct (existsb fallbackMarked (e' :: esm)), (fallbackMarked e); reflexivity.
  + apply String.eqb_neq in Em.
    rewrite (addModelUsage_get_other _ _ _ _ Em) in IHnil, IHcons.
    split; assumption.
Qed.

Lemma replay_model (k m : string) (es : list TokenUsageEvent) (s : S) :
  replay k es = Some s ->
  let esm := filter (fun e => String.eqb (modelOf e) m) es in
  match Map_get (smodels s) m with
  | None => esm = []
  | Some u =>
      esm <> [] /\ mu_usage u = sumUsage esm /\
      isFallback u = Some (existsb fallbackMarked esm)
  end.
Proof.
destruct es as [|e0 es]; [discriminate|]. intros Hs.
assert (Es : s = replayFrom (create k (timestamp e0)) (e0 :: es))
  by (unfold Engine.replay in Hs; congruence).
intros esm. rewrite Es.
pose proof (replayFrom_model m (e0 :: es) (create k (timestamp e0))) as Hm.
cbv zeta in Hm.
replace (Map_get (smodels (create k (timestamp e0))) m) with (@None ModelUsage) in Hm
  by (rewrite create_models; reflexivity).
fold esm in Hm. destruct Hm as [Hnil Hcons].
destruct esm as [|e' esm'] eqn:Ee.
- rewrite Hnil; reflexivity.
- destruct Hcons as (u & Ho & Hu & Hf); [discriminate|]. rewrite Ho.
  split; [discriminate|]. split.
  + rewrite Hu. apply addUsage_empty_l.
  + rewrite Hf. simpl. destruct (fallbackMarked e' || existsb fallbackMarked esm');
      reflexivity.
Qed.

Lemma sum_values_touch (g : S -> S) (d : TokenUsageDelta) (k : string) (v0 : S) :
  (forall s, susage (g s) = addUsage (susage s) d) ->
  susage v0 = createEmptyUsage ->
  forall st : JsMap S,
    sumDeltas (map susage
      (Map_values (Map_set st k (g (match Map_get st k with
                                     | Some s => s
                                     | None => v0
                                     end))))) =
    addUsage (sumDeltas (map susage (Map_values st))) d.
Proof.
intros Hg H0 st. unfold sumDeltas, Map_values.
induction st as [|[k0 s0] st IH]; simpl.
- rewrite Hg, H0, addUsage_empty_l, addUsage_empty_r. reflexivity.
- destruct (String.eqb k0 k) eqn:E; simpl.
  + rewrite Hg, !addUsage_assoc. f_equal. apply addUsage_comm.
  + rewrite IH, addUsage_assoc. reflexivity.
Qed.

Lemma accumulate_total (evs : list TokenUsageEvent) :
  sumDeltas (map susage (Map_values (accumulate evs))) =
  sumUsage (filter (fun e => match classify e with Some _ => true | None => false end)
                   evs).
Proof.
unfold Engine.accumulate.
assert (Hg : forall st,
  sumDeltas (map susage (Map_values (fold_left step evs st))) =
  addUsage (sumDeltas (map susage (Map_values st)))
    (sumUsage (filter (fun e => match classify e with Some _ => true | None => false end)
                      evs))).
{ induction evs as [|e evs IH]; intros st; simpl.
  - rewrite addUsage_empty_r. reflexivity.
  - rewrite IH. unfold Engine.step.
    destruct (classify e) as [[k m]|]; simpl; [|reflexivity].
    rewrite (sum_values_touch (fun s => bump s e m) (ev_usage e) k (create k (timestamp e)));
      auto.
    apply addUsage_assoc. }
rewrite Hg. simpl. apply addUsage_empty_l.
Qed.

End EngineDetails.

Lemma Map_get_map {V W : Type} (f : string -> V -> W) (m : JsMap V) (k : string) :
  Map_get (map (fun entry => (fst entry, f (fst entry) (snd entry))) m) k =
  option_map (f k) (Map_get m k).
Proof.
induction m as [|[k0 v0] m IH]; simpl; [reflexivity|].
destruct (String.eqb k0 k) eqn:E; [|exact IH].
apply String.eqb_eq in E. subst. reflexivity.
Qed.

Section ReportFacts.
Context {F : Type} `{Number F} `{Host}.
Import Reports Instances.

Lemma nonBlank_trimmed (o : option string) : nonBlank o = true -> trimmed o <> "".
Proof.
unfold nonBlank, trimmed. destruct o as [s|]; [|discriminate].
intros Hn. apply negb_true_iff in Hn. apply String.eqb_neq, Hn.
Qed.

Lemma contributes_model (options : ReportOptions F) (e : TokenUsageEvent) :
  contributes options e = true -> trimmed (model e) <> "".
Proof.
unfold contributes. intros Hc. apply andb_true_iff in Hc. apply nonBlank_trimmed. tauto.
Qed.

Lemma contributesSession_model (options : ReportOptions F) (e : TokenUsageEvent) :
  contributesSession options e = true -> trimmed (model e) <> "".
Proof.
unfold contributesSession. intros Hc. apply andb_true_iff in Hc. destruct Hc as [Hc _].
apply andb_true_iff in Hc. apply nonBlank_trimmed. tauto.
Qed.

Lemma counted_daily (options : ReportOptions F) (e : TokenUsageEvent) :
  match classifyDaily options e with Some _ => true | None => false end =
  contributes options e.
Proof. unfold classifyDaily. destruct (contributes options e); reflexivity. Qed.

Lemma counted_monthly (options : ReportOptions F) (e : TokenUsageEvent) :
  match classifyMonthly options e with Some _ => true | None => false end =
  contributes options e.
Proof. unfold classifyMonthly. destruct (contributes options e); reflexivity. Qed.

Lemma counted_session (options : ReportOptions F) (e : TokenUsageEvent) :
  match classifySession options e with Some _ => true | None => false end =
  contributesSession options e.
Proof. unfold classifySession. destruct (contributesSession options e); reflexivity. Qed.

Lemma counted_iff (c : TokenUsageEvent -> option (string * string)) (b : bool)
    (e : TokenUsageEvent) :
  match c e with Some _ => true | None => false end = b ->
  (c e <> None <-> b = true).
Proof. destruct (c e); intros <-; split; congruence. Qed.

Lemma modelOf_daily (options : ReportOptions F) (e : TokenUsageEvent) :
  contributes options e = true ->
  Engine.modelOf (classifyDaily options) e = trimmed (model e).
Proof. unfold Engine.modelOf, classifyDaily. intros ->. reflexivity. Qed.

Lemma modelOf_monthly (options : ReportOptions F) (e : TokenUsageEvent) :
  contributes options e = true ->
  Engine.modelOf (classifyMonthly options) e = trimmed (model e).
Proof. unfold Engine.modelOf, classifyMonthly. intros ->. reflexivity. Qed.

Lemma modelOf_session (options : ReportOptions F) (e : TokenUsageEvent) :
  contributesSession options e = true ->
  Engine.modelOf (classifySession options) e = trimmed (model e).
Proof. unfold Engine.modelOf, classifySession. intros ->. reflexivity. Qed.

Lemma buildDailyReport_Err (options : ReportOptions F) (events : list TokenUsageEvent)
    (msg : string) :
  buildDailyReport events options = Err msg ->
  resolveModels (pricingSource options)
    (uniqueModelsOf ds_models (dailySummaries events options)) [] = Err msg.
Proof.
unfold buildDailyReport. cbv zeta. destruct (resolveModels _ _ _) as [mp|e0]; intros Hb; [discriminate Hb | congruence].
Qed.

Lemma buildMonthlyReport_Err (options : ReportOptions F) (events : list TokenUsageEvent)
    (msg : string) :
  buildMonthlyReport events options = Err msg ->
  resolveModels (pricingSource options)
    (uniqueModelsOf ms_models (monthlySummaries events options)) [] = Err msg.
Proof.
unfold buildMonthlyReport. cbv zeta. destruct (resolveModels _ _ _) as [mp|e0]; intros Hb; [discriminate Hb | congruence].
Qed.

Lemma buildSessionReport_Err (options : ReportOptions F) (events : list TokenUsageEvent)
    (msg : string) :
  buildSessionReport events options = Err msg ->
  resolveModels (pricingSource options)
    (uniqueModelsOf ss_models (sessionSummaries events options)) [] = Err msg.
Proof.
unfold buildSessionReport.
destruct (sessionSummaries events options); simpl; [discriminate|].
cbv zeta. destruct (resolveModels _ _ _) as [mp|e0]; intros Hb; [discriminate Hb | congruence].
Qed.

(** The models of the counted events, through the engine. *)
Lemma daily_models_In (options : ReportOptions F) (events : list TokenUsageEvent)
    (m : string) :
  In m (uniqueModelsOf ds_models (dailySummaries events options)) <->
  exists e, In e events /\ contributes options e = true /\ trimmed (model e) = m.
Proof.
rewrite dailySummaries_engine.
rewrite (models_In _ _ _ date ds_usage ds_models) by reflexivity.
split; intros (e & He & Hc & Hm); exists e.
- apply (counted_iff _ _ _ (counted_daily options e)) in Hc.
  rewrite modelOf_daily in Hm by exact Hc. auto.
- split; [exact He|]. split.
  + apply (counted_iff _ _ _ (counted_daily options e)). exact Hc.
  + rewrite modelOf_daily by exact Hc. exact Hm.
Qed.

Lemma monthly_models_In (options : ReportOptions F) (events : list TokenUsageEvent)
    (m : string) :
  In m (uniqueModelsOf ms_models (monthlySummaries events options)) <->
  exists e, In e events /\ contributes options e = true /\ trimmed (model e) = m.
Proof.
rewrite monthlySummaries_engine.
rewrite (models_In _ _ _ month ms_usage ms_models) by reflexivity.
split; intros (e & He & Hc & Hm); exists e.
- apply (counted_iff _ _ _ (counted_monthly options e)) in Hc.
  rewrite modelOf_monthly in Hm by exact Hc. auto.
- split; [exact He|]. split.
  + apply (counted_iff _ _ _ (counted_monthly options e)). exact Hc.
  + rewrite modelOf_monthly by exact Hc. exact Hm.
Qed.

Lemma session_models_In (options : ReportOptions F) (events : list TokenUsageEvent)
    (m : string) :
  In m (uniqueModelsOf ss_models (sessionSummaries events options)) <->
  exists e, In e events /\ contributesSession options e = true /\ trimmed (model e) = m.
Proof.
rewrite sessionSummaries_engine.
rewrite (models_In _ _ _ ss_sessionId ss_usage ss_models) by reflexivity.
split; intros (e & He & Hc & Hm); exists e.
- apply (counted_iff _ _ _ (counted_session options e)) in Hc.
  rewrite modelOf_session in Hm by exact Hc. auto.
- split; [exact He|]. split.
  + apply (counted_iff _ _ _ (counted_session options e)). exact Hc.
  + rewrite modelOf_session by exact Hc. exact Hm.
Qed.

End ReportFacts.

Section ReportExtras.
Context {F : Type} `{Number F} `{Host}.
Import Reports Instances.

(** X7.  A report with nothing to count is empty and needs no pricing.
    When no event passes the test of the loop (in particular for the empty
    list of events), each builder returns the empty list of rows, whatever
    the pricing source would answer. *)
Theorem no_counted_events_empty_report (options : ReportOptions F)
    (events : list TokenUsageEvent) :
  ((forall e, In e events -> contributes options e = false) ->
   buildDailyReport events options = Ok [] /\
   buildMonthlyReport events options = Ok [])
  /\ ((forall e, In e events -> contributesSession options e = false) ->
      buildSessionReport events options = Ok []).
Proof.
split.
- intros Hall. split.
  + assert (Hs : dailySummaries events options = []).
    { rewrite dailySummaries_engine. apply accumulate_none. intros e He.
      unfold classifyDaily. rewrite (Hall e He). reflexivity. }
    unfold buildDailyReport. rewrite Hs. reflexivity.
  + assert (Hs : monthlySummaries events options = []).
    { rewrite monthlySummaries_engine. apply accumulate_none. intros e He.
      unfold classifyMonthly. rewrite (Hall e He). reflexivity. }
    unfold buildMonthlyReport. rewrite Hs. reflexivity.
- intros Hall.
  assert (Hs : sessionSummaries events options = []).
  { rewrite sessionSummaries_engine. apply accumulate_none. intros e He.
    unfold classifySession. rewrite (Hall e He). reflexivity. }
  unfold buildSessionReport. rewrite Hs. reflexivity.
Qed.

(** X8.  A report is produced exactly when the pricing source prices the
    trimmed model name of every counted event; when a builder fails, it
    fails with the error the pricing source gave for the model of one of
    the counted events. *)
Theorem report_succeeds_iff_priced (options : ReportOptions F)
    (events : list TokenUsageEvent) :
  (((exists rows, buildDailyReport events options = Ok rows) <->
    (forall e, In e events -> contributes options e = true ->
               exists p, pricingSource options (trimmed (model e)) = Ok p))
   /\ (forall msg, buildDailyReport events options = Err msg ->
         exists e, In e events /\ contributes options e = true /\
                   pricingSource options (trimmed (model e)) = Err msg))
  /\ (((exists rows, buildMonthlyReport events options = Ok rows) <->
       (forall e, In e events -> contributes options e = true ->
                  exists p, pricingSource options (trimmed (model e)) = Ok p))
      /\ (forall msg, buildMonthlyReport events options = Err msg ->
            exists e, In e events /\ contributes options e = true /\
                      pricingSource options (trimmed (model e)) = Err msg))
  /\ (((exists rows, buildSessionReport events options = Ok rows) <->
       (forall e, In e events -> contributesSession options e = true ->
                  exists p, pricingSource options (trimmed (model e)) = Ok p))
      /\ (forall msg, buildSessionReport events options = Err msg ->
            exists e, In e events /\ contributesSession options e = true /\
                      pricingSource options (trimmed (model e)) = Err msg)).
Proof.
split; [|split]; (split; [split|]).
- intros (rows & Hb) e He Hc. destruct (daily_report_rows _ _ _ Hb) as (mp & Hres & _).
  destruct (resolveModels_get _ _ _ (trimmed (model e)) Hres) as (p & Hp & _); eauto.
  apply daily_models_In. eauto.
- intros Hall.
  destruct (resolveModels_ok (pricingSource options)
              (uniqueModelsOf ds_models (dailySummaries events options)) [])
    as (mp & Hres).
  { intros m Hm. apply daily_models_In in Hm. destruct Hm as (e & He & Hc & <-). eauto. }
  eexists. apply buildDailyReport_ok, Hres.
- intros msg Hb. apply buildDailyReport_Err, resolveModels_Err in Hb.
  destruct Hb as (m & Hm & Hs). apply daily_models_In in Hm.
  destruct Hm as (e & He & Hc & <-). eauto.
- intros (rows & Hb) e He Hc. destruct (monthly_report_rows _ _ _ Hb) as (mp & Hres & _).
  destruct (resolveModels_get _ _ _ (trimmed (model e)) Hres) as (p & Hp & _); eauto.
  apply monthly_models_In. eauto.
- intros Hall.
  destruct (resolveModels_ok (pricingSource options)
              (uniqueModelsOf ms_models (monthlySummaries events options)) [])
    as (mp & Hres).
  { intros m Hm. apply monthly_models_In in Hm. destruct Hm as (e & He & Hc & <-). eauto. }
  eexists. apply buildMonthlyReport_ok, Hres.
- intros msg Hb. apply buildMonthlyReport_Err, resolveModels_Err in Hb.
  destruct Hb as (m & Hm & Hs). apply monthly_models_In in Hm.
  destruct Hm as (e & He & Hc & <-). eauto.
- intros (rows & Hb) e He Hc. destruct (session_report_rows _ _ _ Hb) as (mp & Hres & _).
  destruct (resolveModels_get _ _ _ (trimmed (model e)) Hres) as (p & Hp & _); eauto.
  apply session_models_In. eauto.
- intros Hall.
  destruct (resolveModels_ok (pricingSource options)
              (uniqueModelsOf ss_models (sessionSummaries events options)) [])
    as (mp & Hres).
  { intros m Hm. apply session_models_In in Hm. destruct Hm as (e & He & Hc & <-). eauto. }
  eexists. apply buildSessionReport_ok, Hres.
- intros msg Hb. apply buildSessionReport_Err, resolveModels_Err in Hb.
  destruct Hb as (m & Hm & Hs). apply session_models_In in Hm.
  destruct Hm as (e & He & Hc & <-). eauto.
Qed.

(** X14.  Pricing is looked up once per model.  The names the builders pass
    to the pricing source are pairwise distinct; they are exactly the
    trimmed model names of the counted events, and none of them is empty. *)
Theorem models_priced_once (options : ReportOptions F)
    (events : list TokenUsageEvent) :
  (NoDup (uniqueModelsOf ds_models (dailySummaries events options)) /\
   forall m, In m (uniqueModelsOf ds_models (dailySummaries events options)) <->
             m <> "" /\
             exists e, In e events /\ contributes options e = true /\
                       trimmed (model e) = m)
  /\ (NoDup (uniqueModelsOf ms_models (monthlySummaries events options)) /\
      forall m, In m (uniqueModelsOf ms_models (monthlySummaries events options)) <->
                m <> "" /\
                exists e, In e events /\ contributes options e = true /\
                          trimmed (model e) = m)
  /\ (NoDup (uniqueModelsOf ss_models (sessionSummaries events options)) /\
      forall m, In m (uniqueModelsOf ss_models (sessionSummaries events options)) <->
                m <> "" /\
                exists e, In e events /\ contributesSession options e = true /\
                          trimmed (model e) = m).
Proof.
split; [|split]; (split; [apply uniqueModelsOf_NoDup|]); intros m.
- rewrite daily_models_In. split; [|tauto].
  intros (e & He & Hc & <-). split; [apply (contributes_model options), Hc | eauto].
- rewrite monthly_models_In. split; [|tauto].
  intros (e & He & Hc & <-). split; [apply (contributes_model options), Hc | eauto].
- rewrite session_models_In. split; [|tauto].
  intros (e & He & Hc & <-). split; [apply (contributesSession_model options), Hc | eauto].
Qed.

End ReportExtras.

Section ReportGroups.
Context {F : Type} `{Number F} `{Host}.
Import Reports Instances.

Lemma daily_keys (options : ReportOptions F) (events : list TokenUsageEvent) :
  NoDup (Map_keys (dailySummaries events options)) /\
  forall k, In k (Map_keys (dailySummaries events options)) <->
            exists e, In e events /\ contributes options e = true /\
                      dayKey options e = k.
Proof.
rewrite dailySummaries_engine. split; [apply accumulate_NoDup|]. intros k.
rewrite accumulate_key_iff. split; intros (e & He & Hg); exists e.
- rewrite inGroup_daily in Hg. apply andb_true_iff in Hg. destruct Hg as [Hc Hk].
  apply String.eqb_eq in Hk. auto.
- destruct Hg as [Hc <-]. rewrite inGroup_daily, Hc, String.eqb_refl. auto.
Qed.

Lemma monthly_keys (options : ReportOptions F) (events : list TokenUsageEvent) :
  NoDup (Map_keys (monthlySummaries events options)) /\
  forall k, In k (Map_keys (monthlySummaries events options)) <->
            exists e, In e events /\ contributes options e = true /\
                      monthKey options e = k.
Proof.
rewrite monthlySummaries_engine. split; [apply accumulate_NoDup|]. intros k.
rewrite accumulate_key_iff. split; intros (e & He & Hg); exists e.
- rewrite inGroup_monthly in Hg. apply andb_true_iff in Hg. destruct Hg as [Hc Hk].
  apply String.eqb_eq in Hk. auto.
- destruct Hg as [Hc <-]. rewrite inGroup_monthly, Hc, String.eqb_refl. auto.
Qed.

Lemma session_keys (options : ReportOptions F) (events : list TokenUsageEvent) :
  NoDup (Map_keys (sessionSummaries events options)) /\
  forall k, In k (Map_keys (sessionSummaries events options)) <->
            exists e, In e events /\ contributesSession options e = true /\
                      sessionKey e = k.
Proof.
rewrite sessionSummaries_engine. split; [apply accumulate_NoDup|]. intros k.
rewrite accumulate_key_iff. split; intros (e & He & Hg); exists e.
- rewrite inGroup_session in Hg. apply andb_true_iff in Hg. destruct Hg as [Hc Hk].
  apply String.eqb_eq in Hk. auto.
- destruct Hg as [Hc <-]. rewrite inGroup_session, Hc, String.eqb_refl. auto.
Qed.

Lemma sorted_keys {S : Type} (skey : S -> string) (cmp : S -> S -> Z)
    (summaries : JsMap S) (keys : list string) :
  map skey (Map_values summaries) = keys -> NoDup keys ->
  NoDup (map skey (Array_sort cmp (Map_values summaries))) /\
  forall k, In k (map skey (Array_sort cmp (Map_values summaries))) <-> In k keys.
Proof.
intros Hk Hnd.
assert (Hp : Permutation keys (map skey (Array_sort cmp (Map_values summaries)))).
{ rewrite <- Hk. apply Permutation_map, Array_sort_perm. }
split.
- exact (Permutation_NoDup Hp Hnd).
- intros k. split; apply Permutation_in; [symmetry|]; exact Hp.
Qed.

(** X9.  One row per group.  A report has one row for each group key that
    some counted event has and no other row: the keys behind the rows are
    pairwise distinct (day keys and month keys are shown formatted, session
    ids as they are). *)
Theorem one_row_per_group (options : ReportOptions F)
    (events : list TokenUsageEvent) :
  (forall rows, buildDailyReport events options = Ok rows ->
     exists keys,
       NoDup keys /\
       (forall k, In k keys <->
                  exists e, In e events /\ contributes options e = true /\
                            dayKey options e = k) /\
       map dr_date rows =
         map (fun k => formatDisplayDate k (locale options) (timezone options)) keys)
  /\ (forall rows, buildMonthlyReport events options = Ok rows ->
     exists keys,
       NoDup keys /\
       (forall k, In k keys <->
                  exists e, In e events /\ contributes options e = true /\
                            monthKey options e = k) /\
       map mr_month rows =
         map (fun k => formatDisplayMonth k (locale options) (timezone options)) keys)
  /\ (forall rows, buildSessionReport events options = Ok rows ->
     NoDup (map sr_sessionId rows) /\
     forall k, In k (map sr_sessionId rows) <->
               exists e, In e events /\ contributesSession options e = true /\
                         sessionKey e = k).
Proof.
split; [|split]; intros rows Hb.
- destruct (daily_report_rows _ _ _ Hb) as (mp & _ & ->).
  destruct (daily_keys options events) as [Hnd Hin].
  destruct (sorted_keys date (fun a b => localeCompare (date a) (date b))
              (dailySummaries events options) (Map_keys (dailySummaries events options)))
    as [Hnd' Hin']; auto.
  { rewrite dailySummaries_engine.
    apply (accumulate_values_keys _ _ _ date ds_usage); reflexivity. }
  eexists. split; [exact Hnd'|]. split.
  + intros k. rewrite Hin'. apply Hin.
  + rewrite !map_map. reflexivity.
- destruct (monthly_report_rows _ _ _ Hb) as (mp & _ & ->).
  destruct (monthly_keys options events) as [Hnd Hin].
  destruct (sorted_keys month (fun a b => localeCompare (month a) (month b))
              (monthlySummaries events options)
              (Map_keys (monthlySummaries events options)))
    as [Hnd' Hin']; auto.
  { rewrite monthlySummaries_engine.
    apply (accumulate_values_keys _ _ _ month ms_usage); reflexivity. }
  eexists. split; [exact Hnd'|]. split.
  + intros k. rewrite Hin'. apply Hin.
  + rewrite !map_map. reflexivity.
- destruct (session_report_rows _ _ _ Hb) as (mp & _ & ->).
  destruct (session_keys options events) as [Hnd Hin].
  destruct (sorted_keys ss_sessionId
              (fun a b => localeCompare (lastTimestamp a) (lastTimestamp b))
              (sessionSummaries events options)
              (Map_keys (sessionSummaries events options)))
    as [Hnd' Hin']; auto.
  { rewrite sessionSummaries_engine.
    apply (accumulate_values_keys _ _ _ ss_sessionId ss_usage); reflexivity. }
  rewrite map_map. simpl. split; [exact Hnd'|].
  intros k. rewrite Hin'. apply Hin.
Qed.

Lemma dailyTotals_usage (rows : list (DailyReportRow F)) :
  Commands.totalsUsage (Commands.dailyTotals rows) =
  sumDeltas (map (fun r => snd (dailyView r)) rows).
Proof.
unfold Commands.dailyTotals.
assert (Hg : forall acc,
  Commands.totalsUsage
    (fold_left
       (fun acc row =>
          {| Commands.t_inputTokens := Commands.t_inputTokens acc + dr_inputTokens row;
             Commands.t_cachedInputTokens :=
               Commands.t_cachedInputTokens acc + dr_cachedInputTokens row;
             Commands.t_outputTokens := Commands.t_outputTokens acc + dr_outputTokens row;
             Commands.t_reasoningOutputTokens :=
               Commands.t_reasoningOutputTokens acc + dr_reasoningOutputTokens row;
             Commands.t_totalTokens := Commands.t_totalTokens acc + dr_totalTokens row;
             Commands.t_costUSD := num_add (Commands.t_costUSD acc) (dr_costUSD row) |})
       rows acc) =
  addUsage (Commands.totalsUsage acc) (sumDeltas (map (fun r => snd (dailyView r)) rows))).
{ induction rows as [|r rows IH]; intros acc; simpl.
  - rewrite addUsage_empty_r. reflexivity.
  - rewrite IH, <- addUsage_assoc. reflexivity. }
rewrite Hg. apply addUsage_empty_l.
Qed.

Lemma sessionTotals_usage (rows : list (SessionReportRow F)) :
  Commands.totalsUsage (Commands.sessionTotals rows) =
  sumDeltas (map (fun r => snd (sessionView r)) rows).
Proof.
unfold Commands.sessionTotals.
assert (Hg : forall acc,
  Commands.totalsUsage
    (fold_left
       (fun acc row =>
          {| Commands.t_inputTokens := Commands.t_inputTokens acc + sr_inputTokens row;
             Commands.t_cachedInputTokens :=
               Commands.t_cachedInputTokens acc + sr_cachedInputTokens row;
             Commands.t_outputTokens := Commands.t_outputTokens acc + sr_outputTokens row;
             Commands.t_reasoningOutputTokens :=
               Commands.t_reasoningOutputTokens acc + sr_reasoningOutputTokens row;
             Commands.t_totalTokens := Commands.t_totalTokens acc + sr_totalTokens row;
             Commands.t_costUSD := num_add (Commands.t_costUSD acc) (sr_costUSD row) |})
       rows acc) =
  addUsage (Commands.totalsUsage acc)
    (sumDeltas (map (fun r => snd (sessionView r)) rows))).
{ induction rows as [|r rows IH]; intros acc; simpl.
  - rewrite addUsage_empty_r. reflexivity.
  - rewrite IH, <- addUsage_assoc. reflexivity. }
rewrite Hg. apply addUsage_empty_l.
Qed.

(** X12.  The totals of the commands are the totals of the counted events.
    The five token totals that the daily and the session command add up
    over the rows of a report equal the sums of the five fields over the
    events that passed the test of the loop: no counted event is lost or
    counted twice on the way through grouping and sorting. *)
Theorem command_totals_conserve_tokens (options : ReportOptions F)
    (events : list TokenUsageEvent) :
  (forall rows, buildDailyReport events options = Ok rows ->
     Commands.totalsUsage (Commands.dailyTotals rows) =
     sumUsage (filter (contributes options) events))
  /\ (forall rows, buildSessionReport events options = Ok rows ->
     Commands.totalsUsage (Commands.sessionTotals rows) =
     sumUsage (filter (contributesSession options) events)).
Proof.
split; intros rows Hb.
- destruct (daily_report_rows _ _ _ Hb) as (mp & _ & ->).
  rewrite dailyTotals_usage, map_map.
  rewrite (map_ext _ ds_usage)
    by (intros s; unfold dailyView, dailyRow; simpl; apply usage_eta).
  rewrite <- (sumDeltas_perm _ _
    (Permutation_map ds_usage (Array_sort_perm _ (Map_values (dailySummaries events options))))).
  rewrite dailySummaries_engine, (accumulate_total _ _ _ ds_usage) by reflexivity.
  f_equal. apply filter_ext, counted_daily.
- destruct (session_report_rows _ _ _ Hb) as (mp & _ & ->).
  rewrite sessionTotals_usage, map_map.
  rewrite (map_ext _ ss_usage)
    by (intros s; unfold sessionView, sessionRow; simpl; apply usage_eta).
  rewrite <- (sumDeltas_perm _ _
    (Permutation_map ss_usage
       (Array_sort_perm _ (Map_values (sessionSummaries events options))))).
  rewrite sessionSummaries_engine, (accumulate_total _ _ _ ss_usage) by reflexivity.
  f_equal. apply filter_ext, counted_session.
Qed.

(** X13.  First seen is first to arrive.  The [firstTimestamp] of a summary
    is the timestamp of the first counted event of its group in the order
    of the input (not the smallest timestamp of the group); for a session
    it is not later, by code units, than the session's [lastTimestamp]. *)
Theorem first_timestamp_is_first_arrival (options : ReportOptions F)
    (events : list TokenUsageEvent) :
  (forall k s, Map_get (dailySummaries events options) k = Some s ->
     exists e0 rest,
       filter (fun e => contributes options e && String.eqb (dayKey options e) k) events
         = e0 :: rest /\
       ds_firstTimestamp s = timestamp e0)
  /\ (forall k s, Map_get (monthlySummaries events options) k = Some s ->
     exists e0 rest,
       filter (fun e => contributes options e && String.eqb (monthKey options e) k) events
         = e0 :: rest /\
       ms_firstTimestamp s = timestamp e0)
  /\ (forall k s, Map_get (sessionSummaries events options) k = Some s ->
     (exists e0 rest,
        filter (fun e => contributesSession options e && String.eqb (sessionKey e) k)
               events = e0 :: rest /\
        ss_firstTimestamp s = timestamp e0) /\
     String.leb (ss_firstTimestamp s) (lastTimestamp s) = true).
Proof.
split; [|split]; intros k s Hs.
- rewrite dailySummaries_engine, accumulate_get in Hs.
  rewrite (filter_ext _ _ (inGroup_daily options k)) in Hs.
  apply (replay_first _ _ _ ds_firstTimestamp) in Hs; try reflexivity. exact Hs.
- rewrite monthlySummaries_engine, accumulate_get in Hs.
  rewrite (filter_ext _ _ (inGroup_monthly options k)) in Hs.
  apply (replay_first _ _ _ ms_firstTimestamp) in Hs; try reflexivity. exact Hs.
- rewrite sessionSummaries_engine, accumulate_get in Hs.
  rewrite (filter_ext _ _ (inGroup_session options k)) in Hs.
  pose proof Hs as Hl. apply session_last in Hl. destruct Hl as [_ Hall].
  apply (replay_first _ _ _ ss_firstTimestamp) in Hs; try reflexivity.
  split; [exact Hs|]. destruct Hs as (e0 & rest & Hf & ->).
  apply Hall. rewrite Hf. left. reflexivity.
Qed.

End ReportGroups.

Section RowEntries.
Context {F : Type} `{Number F} `{Host}.
Import Reports Instances.

Lemma group_model_daily (options : ReportOptions F) (k m : string)
    (e : TokenUsageEvent) :
  Engine.inGroup (classifyDaily options) k e
  && String.eqb (Engine.modelOf (classifyDaily options) e) m =
  contributes options e && String.eqb (dayKey options e) k
  && String.eqb (trimmed (model e)) m.
Proof.
rewrite inGroup_daily. destruct (contributes options e) eqn:Ec; [|reflexivity].
rewrite modelOf_daily by exact Ec. reflexivity.
Qed.

Lemma group_model_monthly (options : ReportOptions F) (k m : string)
    (e : TokenUsageEvent) :
  Engine.inGroup (classifyMonthly options) k e
  && String.eqb (Engine.modelOf (classifyMonthly options) e) m =
  contributes options e && String.eqb (monthKey options e) k
  && String.eqb (trimmed (model e)) m.
Proof.
rewrite inGroup_monthly. destruct (contributes options e) eqn:Ec; [|reflexivity].
rewrite modelOf_monthly by exact Ec. reflexivity.
Qed.

Lemma group_model_session (options : ReportOptions F) (k m : string)
    (e : TokenUsageEvent) :
  Engine.inGroup (classifySession options) k e
  && String.eqb (Engine.modelOf (classifySession options) e) m =
  contributesSession options e && String.eqb (sessionKey e) k
  && String.eqb (trimmed (model e)) m.
Proof.
rewrite inGroup_session. destruct (contributesSession options e) eqn:Ec; [|reflexivity].
rewrite modelOf_session by exact Ec. reflexivity.
Qed.

(** The entry of a model in a row, from the entry in the summary. *)
Lemma row_entry_of_summary (mp : JsMap (ModelPricing F)) (ms : JsMap ModelUsage)
    (m : string) (esm : list TokenUsageEvent) :
  NoDup (Map_keys ms) ->
  match Map_get ms m with
  | None => esm = []
  | Some u =>
      esm <> [] /\ mu_usage u = sumUsage esm /\
      isFallback u = Some (existsb fallbackMarked esm)
  end ->
  match Map_get (rowModelsOf mp ms) m with
  | None => esm = [] \/ m = "__proto__"
  | Some u =>
      m <> "__proto__" /\ esm <> [] /\ mu_usage u = sumUsage esm /\
      isFallback u = Some (existsb fallbackMarked esm)
  end.
Proof.
intros Hnd. rewrite rowModelsOf_get by exact Hnd.
destruct (String.eqb m "__proto__") eqn:Em.
- intros _. right. apply String.eqb_eq, Em.
- apply String.eqb_neq in Em. destruct (Map_get ms m); simpl; auto.
Qed.

(** X10.  The entry of a model in a row.  In every row, a model has an
    entry exactly when its name is not [__proto__] and some counted event
    of the row's group names it (after trimming); the entry's five counts
    are the sums over those events, and its [isFallback] flag is [true]
    when one of them carried the fallback marker and [false] otherwise.
    Under the name [__proto__] a row has no entry, whatever the events. *)
Theorem row_model_entries (options : ReportOptions F)
    (events : list TokenUsageEvent) :
  (forall rows, buildDailyReport events options = Ok rows ->
     forall r, In r rows ->
     exists k,
       dr_date r = formatDisplayDate k (locale options) (timezone options) /\
       forall m,
         let esm :=
           filter (fun e => contributes options e && String.eqb (dayKey options e) k
                            && String.eqb (trimmed (model e)) m) events in
         match Map_get (dr_models r) m with
         | None => esm = [] \/ m = "__proto__"
         | Some u =>
             m <> "__proto__" /\ esm <> [] /\ mu_usage u = sumUsage esm /\
             isFallback u = Some (existsb fallbackMarked esm)
         end)
  /\ (forall rows, buildMonthlyReport events options = Ok rows ->
     forall r, In r rows ->
     exists k,
       mr_month r = formatDisplayMonth k (locale options) (timezone options) /\
       forall m,
         let esm :=
           filter (fun e => contributes options e && String.eqb (monthKey options e) k
                            && String.eqb (trimmed (model e)) m) events in
         match Map_get (mr_models r) m with
         | None => esm = [] \/ m = "__proto__"
         | Some u =>
             m <> "__proto__" /\ esm <> [] /\ mu_usage u = sumUsage esm /\
             isFallback u = Some (existsb fallbackMarked esm)
         end)
  /\ (forall rows, buildSessionReport events options = Ok rows ->
     forall r, In r rows ->
     forall m,
       let esm :=
         filter (fun e => contributesSession options e
                          && String.eqb (sessionKey e) (sr_sessionId r)
                          && String.eqb (trimmed (model e)) m) events in
       match Map_get (sr_models r) m with
       | None => esm = [] \/ m = "__proto__"
       | Some u =>
           m <> "__proto__" /\ esm <> [] /\ mu_usage u = sumUsage esm /\
           isFallback u = Some (existsb fallbackMarked esm)
       end).
Proof.
split; [|split]; intros rows Hb r Hr.
- destruct (daily_report_rows _ _ _ Hb) as (mp & _ & ->).
  apply in_map_iff in Hr. destruct Hr as (s & <- & Hs). apply Array_sort_In in Hs.
  destruct (daily_summary_facts _ _ _ Hs) as [_ Hnd].
  rewrite dailySummaries_engine in Hs.
  apply (group_of_value _ _ _ date ds_usage) in Hs; try reflexivity.
  destruct Hs as [Hrep _].
  exists (date s). split; [reflexivity|]. intros m esm. simpl.
  apply row_entry_of_summary; [exact Hnd|].
  pose proof (replay_model (classifyDaily options) createDailySummary bumpDaily ds_models
                (fun _ _ => eq_refl) (fun _ _ _ => eq_refl) (date s) m _ s Hrep) as Hm.
  cbv zeta in Hm. rewrite filter_filter in Hm.
  rewrite (filter_ext _ _ (group_model_daily options (date s) m)) in Hm. exact Hm.
- destruct (monthly_report_rows _ _ _ Hb) as (mp & _ & ->).
  apply in_map_iff in Hr. destruct Hr as (s & <- & Hs). apply Array_sort_In in Hs.
  destruct (monthly_summary_facts _ _ _ Hs) as [_ Hnd].
  rewrite monthlySummaries_engine in Hs.
  apply (group_of_value _ _ _ month ms_usage) in Hs; try reflexivity.
  destruct Hs as [Hrep _].
  exists (month s). split; [reflexivity|]. intros m esm. simpl.
  apply row_entry_of_summary; [exact Hnd|].
  pose proof (replay_model (classifyMonthly options) createMonthlySummary bumpMonthly ms_models
                (fun _ _ => eq_refl) (fun _ _ _ => eq_refl) (month s) m _ s Hrep) as Hm.
  cbv zeta in Hm. rewrite filter_filter in Hm.
  rewrite (filter_ext _ _ (group_model_monthly options (month s) m)) in Hm. exact Hm.
- destruct (session_report_rows _ _ _ Hb) as (mp & _ & ->).
  apply in_map_iff in Hr. destruct Hr as (s & <- & Hs). apply Array_sort_In in Hs.
  destruct (session_summary_facts _ _ _ Hs) as [_ Hnd].
  rewrite sessionSummaries_engine in Hs.
  apply (group_of_value _ _ _ ss_sessionId ss_usage) in Hs; try reflexivity.
  destruct Hs as [Hrep _].
  intros m esm. simpl.
  apply row_entry_of_summary; [exact Hnd|].
  pose proof (replay_model (classifySession options) createSessionSummary bumpSession ss_models
                (fun _ _ => eq_refl) (fun _ _ _ => eq_refl) (ss_sessionId s) m _ s Hrep)
    as Hm.
  cbv zeta in Hm. rewrite filter_filter in Hm.
  rewrite (filter_ext _ _ (group_model_session options (ss_sessionId s) m)) in Hm.
  exact Hm.
Qed.

Lemma row_pricing_of_summary (source : PricingSource F) (mp : JsMap (ModelPricing F))
    (ms : JsMap ModelUsage) :
  NoDup (Map_keys ms) ->
  (forall m, In m (Map_keys ms) -> exists p, source m = Ok p /\ Map_get mp m = Some p) ->
  NoDup (Map_keys (rowModelsOf mp ms)) /\
  forall m u, Map_get (rowModelsOf mp ms) m = Some u ->
    exists p, source m = Ok p /\
              mu_pricingResolution u = Some (pricingResolution p) /\
              mu_pricingModel u = Some (pricingModel p).
Proof.
intros Hnd Hall. split; [apply rowModelsOf_NoDup|].
intros m u. rewrite rowModelsOf_get by exact Hnd.
destruct (String.eqb m "__proto__"); [discriminate|].
destruct (Map_get ms m) as [u0|] eqn:E; [|discriminate]. simpl. intros [= <-].
assert (Hin : In m (Map_keys ms)).
{ apply Map_has_In. unfold Map_has. rewrite E. reflexivity. }
destruct (Hall m Hin) as (p & Hs & Hg). exists p. rewrite Hg. simpl. auto.
Qed.

(** X11.  Every entry of a row carries its pricing.  The model names of a
    row are pairwise distinct, and each entry records the resolution tier
    and the priced key that the pricing source returned for its model; no
    entry of a produced report is left without pricing metadata. *)
Theorem row_entries_carry_pricing (options : ReportOptions F)
    (events : list TokenUsageEvent) :
  (forall rows, buildDailyReport events options = Ok rows ->
     forall r, In r rows ->
       NoDup (Map_keys (dr_models r)) /\
       forall m u, Map_get (dr_models r) m = Some u ->
         exists p, pricingSource options m = Ok p /\
                   mu_pricingResolution u = Some (pricingResolution p) /\
                   mu_pricingModel u = Some (pricingModel p))
  /\ (forall rows, buildMonthlyReport events options = Ok rows ->
     forall r, In r rows ->
       NoDup (Map_keys (mr_models r)) /\
       forall m u, Map_get (mr_models r) m = Some u ->
         exists p, pricingSource options m = Ok p /\
                   mu_pricingResolution u = Some (pricingResolution p) /\
                   mu_pricingModel u = Some (pricingModel p))
  /\ (forall rows, buildSessionReport events options = Ok rows ->
     forall r, In r rows ->
       NoDup (Map_keys (sr_models r)) /\
       forall m u, Map_get (sr_models r) m = Some u ->
         exists p, pricingSource options m = Ok p /\
                   mu_pricingResolution u = Some (pricingResolution p) /\
                   mu_pricingModel u = Some (pricingModel p)).
Proof.
split; [|split]; intros rows Hb r Hr.
- destruct (daily_report_rows _ _ _ Hb) as (mp & Hres & ->).
  apply in_map_iff in Hr. destruct Hr as (s & <- & Hs). apply Array_sort_In in Hs.
  destruct (daily_summary_facts _ _ _ Hs) as [_ Hnd]. simpl.
  apply row_pricing_of_summary; [exact Hnd|].
  exact (priced_models ds_models _ _ _ _ Hres Hs).
- destruct (monthly_report_rows _ _ _ Hb) as (mp & Hres & ->).
  apply in_map_iff in Hr. destruct Hr as (s & <- & Hs). apply Array_sort_In in Hs.
  destruct (monthly_summary_facts _ _ _ Hs) as [_ Hnd]. simpl.
  apply row_pricing_of_summary; [exact Hnd|].
  exact (priced_models ms_models _ _ _ _ Hres Hs).
- destruct (session_report_rows _ _ _ Hb) as (mp & Hres & ->).
  apply in_map_iff in Hr. destruct Hr as (s & <- & Hs). apply Array_sort_In in Hs.
  destruct (session_summary_facts _ _ _ Hs) as [_ Hnd]. simpl.
  apply row_pricing_of_summary; [exact Hnd|].
  exact (priced_models ss_models _ _ _ _ Hres Hs).
Qed.

End RowEntries.

(** ** The cost of a row *)

Section EngineCost.
Context {S : Type} {F : Type} `{Number F}.
Variable classify : TokenUsageEvent -> option (string * string).
Variable create : string -> string -> S.
Variable bump : S -> TokenUsageEvent -> string -> S.
Variable smodels : S -> JsMap ModelUsage.
Hypothesis create_models : forall k t, smodels (create k t) = [].
Hypothesis bump_models :
  forall s e m, smodels (bump s e m) = Reports.addModelUsage (smodels s) m e.

Local Abbreviation modelOf := (Engine.modelOf classify).
Local Abbreviation replayFrom := (Engine.replayFrom classify bump).
Local Abbreviation replay := (Engine.replay classify create bump).




End EngineCost.



Section ReportCosts.
Context {F : Type} `{Number F} `{Host}.
Import Reports Instances.


(** X16.  The totals of a row next to its per-model entries.  In every row
    the five token totals are, field by field, the sums over the per-model
    entries of the row plus the sums over the counted events of the group
    whose model name is [__proto__], the name for which the row has no
    entry. *)
Theorem row_totals_and_entries (options : ReportOptions F)
    (events : list TokenUsageEvent) :
  (forall rows, buildDailyReport events options = Ok rows ->
     forall r, In r rows ->
     exists k,
       dr_date r = formatDisplayDate k (locale options) (timezone options) /\
       {| inputTokens := dr_inputTokens r;
          cachedInputTokens := dr_cachedInputTokens r;
          outputTokens := dr_outputTokens r;
          reasoningOutputTokens := dr_reasoningOutputTokens r;
          totalTokens := dr_totalTokens r |} =
       addUsage (sumModelUsage (dr_models r))
         (sumUsage
            (filter (fun e => contributes options e && String.eqb (dayKey options e) k
                              && String.eqb (trimmed (model e)) "__proto__") events)))
  /\ (forall rows, buildMonthlyReport events options = Ok rows ->
     forall r, In r rows ->
     exists k,
       mr_month r = formatDisplayMonth k (locale options) (timezone options) /\
       {| inputTokens := mr_inputTokens r;
          cachedInputTokens := mr_cachedInputTokens r;
          outputTokens := mr_outputTokens r;
          reasoningOutputTokens := mr_reasoningOutputTokens r;
          totalTokens := mr_totalTokens r |} =
       addUsage (sumModelUsage (mr_models r))
         (sumUsage
            (filter (fun e => contributes options e && String.eqb (monthKey options e) k
                              && String.eqb (trimmed (model e)) "__proto__") events)))
  /\ (forall rows, buildSessionReport events options = Ok rows ->
     forall r, In r rows ->
       {| inputTokens := sr_inputTokens r;
          cachedInputTokens := sr_cachedInputTokens r;
          outputTokens := sr_outputTokens r;
          reasoningOutputTokens := sr_reasoningOutputTokens r;
          totalTokens := sr_totalTokens r |} =
       addUsage (sumModelUsage (sr_models r))
         (sumUsage
            (filter (fun e => contributesSession options e
                              && String.eqb (sessionKey e) (sr_sessionId r)
                              && String.eqb (trimmed (model e)) "__proto__") events))).
Proof.
split; [|split]; intros rows Hb r Hr.
- destruct (daily_report_rows _ _ _ Hb) as (mp & _ & ->).
  apply in_map_iff in Hr. destruct Hr as (s & <- & Hs). apply Array_sort_In in Hs.
  destruct (daily_summary_facts _ _ _ Hs) as [Hu Hnd].
  rewrite dailySummaries_engine in Hs.
  apply (group_of_value _ _ _ date ds_usage) in Hs; try reflexivity.
  destruct Hs as [Hrep _].
  exists (date s). split; [reflexivity|]. simpl.
  rewrite usage_eta, Hu, (rowModelsOf_sum mp _ Hnd). f_equal.
  pose proof (replay_model (classifyDaily options) createDailySummary bumpDaily ds_models
                (fun _ _ => eq_refl) (fun _ _ _ => eq_refl) (date s) "__proto__" _ s Hrep)
    as Hm.
  cbv zeta in Hm. rewrite filter_filter in Hm.
  rewrite (filter_ext _ _ (group_model_daily options (date s) "__proto__")) in Hm.
  destruct (Map_get (ds_models s) "__proto__") as [u|]; simpl.
  + tauto.
  + rewrite Hm. reflexivity.
- destruct (monthly_report_rows _ _ _ Hb) as (mp & _ & ->).
  apply in_map_iff in Hr. destruct Hr as (s & <- & Hs). apply Array_sort_In in Hs.
  destruct (monthly_summary_facts _ _ _ Hs) as [Hu Hnd].
  rewrite monthlySummaries_engine in Hs.
  apply (group_of_value _ _ _ month ms_usage) in Hs; try reflexivity.
  destruct Hs as [Hrep _].
  exists (month s). split; [reflexivity|]. simpl.
  rewrite usage_eta, Hu, (rowModelsOf_sum mp _ Hnd). f_equal.
  pose proof (replay_model (classifyMonthly options) createMonthlySummary bumpMonthly
                ms_models (fun _ _ => eq_refl) (fun _ _ _ => eq_refl)
                (month s) "__proto__" _ s Hrep) as Hm.
  cbv zeta in Hm. rewrite filter_filter in Hm.
  rewrite (filter_ext _ _ (group_model_monthly options (month s) "__proto__")) in Hm.
  destruct (Map_get (ms_models s) "__proto__") as [u|]; simpl.
  + tauto.
  + rewrite Hm. reflexivity.
- destruct (session_report_rows _ _ _ Hb) as (mp & _ & ->).
  apply in_map_iff in Hr. destruct Hr as (s & <- & Hs). apply Array_sort_In in Hs.
  destruct (session_summary_facts _ _ _ Hs) as [Hu Hnd].
  rewrite sessionSummaries_engine in Hs.
  apply (group_of_value _ _ _ ss_sessionId ss_usage) in Hs; try reflexivity.
  destruct Hs as [Hrep _]. simpl.
  rewrite usage_eta, Hu, (rowModelsOf_sum mp _ Hnd). f_equal.
  pose proof (replay_model (classifySession options) createSessionSummary bumpSession
                ss_models (fun _ _ => eq_refl) (fun _ _ _ => eq_refl)
                (ss_sessionId s) "__proto__" _ s Hrep) as Hm.
  cbv zeta in Hm. rewrite filter_filter in Hm.
  rewrite (filter_ext _ _ (group_model_session options (ss_sessionId s) "__proto__")) in Hm.
  destruct (Map_get (ss_models s) "__proto__") as [u|]; simpl.
  + tauto.
  + rewrite Hm. reflexivity.
Qed.

End ReportCosts.

(** ** The further report properties on the sample events *)

Lemma no_counted_events_empty_report_witness :
  Reports.buildDailyReport [Samples.eBlank; Samples.eLate] Samples.options = Ok [].
Proof.
apply (proj1 (no_counted_events_empty_report Samples.options
                [Samples.eBlank; Samples.eLate])).
intros e [<-|[<-|[]]]; reflexivity.
Defined.

Lemma report_succeeds_iff_priced_witness :
  exists e,
    In e [Samples.e1; MoreSamples.eUnknown] /\
    Instances.contributes Samples.options e = true /\
    Samples.stubPricingSource (trimmed (model e)) = Err "Missing pricing for o9".
Proof.
exact (proj2 (proj1 (report_succeeds_iff_priced Samples.options
                       [Samples.e1; MoreSamples.eUnknown]))
         "Missing pricing for o9" eq_refl).
Defined.

Lemma models_priced_once_witness :
  NoDup (Reports.uniqueModelsOf Reports.ss_models
           (Reports.sessionSummaries MoreSamples.events Samples.options)).
Proof.
exact (proj1 (proj2 (proj2 (models_priced_once Samples.options MoreSamples.events)))).
Defined.

Lemma one_row_per_group_witness :
  exists rows,
    Reports.buildSessionReport MoreSamples.events Samples.options = Ok rows /\
    NoDup (map Reports.sr_sessionId rows).
Proof.
pose proof (proj2 (proj2 (one_row_per_group Samples.options MoreSamples.events))) as Hc.
eexists. split; [reflexivity|]. exact (proj1 (Hc _ eq_refl)).
Defined.

Lemma command_totals_conserve_tokens_witness :
  exists rows,
    Reports.buildDailyReport MoreSamples.events Samples.options = Ok rows /\
    Commands.totalsUsage (Commands.dailyTotals rows) =
    sumUsage (filter (Instances.contributes Samples.options) MoreSamples.events).
Proof.
pose proof (proj1 (command_totals_conserve_tokens Samples.options MoreSamples.events))
  as Hc.
eexists. split; [reflexivity|]. apply Hc. reflexivity.
Defined.

Lemma first_timestamp_is_first_arrival_witness :
  exists s e0 rest,
    Map_get (Reports.dailySummaries MoreSamples.events Samples.options) "2025-09-11"
      = Some s /\
    filter (fun e => Instances.contributes Samples.options e
                     && String.eqb (Instances.dayKey Samples.options e) "2025-09-11")
           MoreSamples.events = e0 :: rest /\
    Reports.ds_firstTimestamp s = timestamp e0.
Proof.
pose proof (proj1 (first_timestamp_is_first_arrival Samples.options MoreSamples.events)
              "2025-09-11") as Hc.
destruct (Map_get (Reports.dailySummaries MoreSamples.events Samples.options)
            "2025-09-11") as [s|] eqn:E.
- destruct (Hc s eq_refl) as (e0 & rest & Hf & Ht). exists s, e0, rest. auto.
- vm_compute in E. discriminate E.
Defined.


(** The cost of the first day of the test of [buildDailyReport], by the
    formula: the expected cost of the test. *)
Example group_cost_test :
  (Instances.groupCost Samples.stubPricingSource [Samples.e1; Samples.e2] ==
     (800 # 1000000) * (125 # 100) + (200 # 1000000) * (125 # 1000)
     + (500 # 1000000) * 10 + (300 # 1000000) * (6 # 10)
     + (100 # 1000000) * (6 # 100) + (200 # 1000000) * 2)%Q.
Proof. vm_compute. reflexivity. Qed.

Lemma row_totals_and_entries_witness :
  exists rows,
    Reports.buildSessionReport [MoreSamples.eProto; Samples.e2] MoreSamples.flatOptions
      = Ok rows /\
    forall r, In r rows ->
      {| inputTokens := Reports.sr_inputTokens r;
         cachedInputTokens := Reports.sr_cachedInputTokens r;
         outputTokens := Reports.sr_outputTokens r;
         reasoningOutputTokens := Reports.sr_reasoningOutputTokens r;
         totalTokens := Reports.sr_totalTokens r |} =
      addUsage (sumModelUsage (Reports.sr_models r))
        (sumUsage
           (filter (fun e => Instances.contributesSession MoreSamples.flatOptions e
                             && String.eqb (Instances.sessionKey e) (Reports.sr_sessionId r)
                             && String.eqb (trimmed (model e)) "__proto__")
                   [MoreSamples.eProto; Samples.e2])).
Proof.
pose proof (proj2 (proj2 (row_totals_and_entries MoreSamples.flatOptions
                            [MoreSamples.eProto; Samples.e2]))) as Hc.
eexists. split; [reflexivity|]. apply Hc. reflexivity.
Defined.

(** C10 fails where a counted event names the model [__proto__]: the
    summary's [Map] holds an entry under that name, so the row's totals (and
    its cost) count the event, but [rowModels["__proto__"] = ...] gives the
    row's object no property, and the sums over the row's per-model entries
    are all 0. *)
Lemma row_totals_proto_divergence :
  exists r,
    Reports.buildDailyReport [MoreSamples.eProto] MoreSamples.flatOptions = Ok [r] /\
    map (fun entry => Map_keys (Reports.ds_models (snd entry)))
        (Reports.dailySummaries [MoreSamples.eProto] MoreSamples.flatOptions)
      = [["__proto__"]] /\
    Reports.dr_inputTokens r = 10 /\
    Reports.dr_cachedInputTokens r = 0 /\
    Reports.dr_outputTokens r = 5 /\
    Reports.dr_reasoningOutputTokens r = 0 /\
    Reports.dr_totalTokens r = 15 /\
    (Reports.dr_costUSD r == (10 # 1000000) * (125 # 100) + (5 # 1000000) * 10)%Q /\
    Reports.dr_models r = [] /\
    sumModelUsage (Reports.dr_models r) = createEmptyUsage /\
    {| inputTokens := Reports.dr_inputTokens r;
       cachedInputTokens := Reports.dr_cachedInputTokens r;
       outputTokens := Reports.dr_outputTokens r;
       reasoningOutputTokens := Reports.dr_reasoningOutputTokens r;
       totalTokens := Reports.dr_totalTokens r |} <> sumModelUsage (Reports.dr_models r).
Proof.
eexists. split; [vm_compute; reflexivity|].
repeat (split; [reflexivity|]). discriminate.
Qed.

(** The same event next to one of another model: the row keeps the entry of
    the other model only, and its totals exceed the sums over its
    entries. *)
Example row_entries_proto_test :
  exists r,
    Reports.buildSessionReport [MoreSamples.eProto; Samples.e2] MoreSamples.flatOptions
      = Ok [r] /\
    Map_keys (Reports.sr_models r) = ["gpt-5-mini"] /\
    Reports.sr_totalTokens r = 765 /\
    totalTokens (sumModelUsage (Reports.sr_models r)) = 750.
Proof.
eexists. split; [vm_compute; reflexivity|]. repeat split.
Qed.

(** Model names that are array indices come first in the row's object, in
    ascending numeric order, whatever the order of the events; the
    summary's [Map] keeps the order of arrival. *)
Example row_entries_index_order_test :
  exists r,
    Reports.buildSessionReport [Samples.e2; MoreSamples.eTen; MoreSamples.eTwo]
      MoreSamples.flatOptions = Ok [r] /\
    Map_keys (Reports.sr_models r) = ["2"; "10"; "gpt-5-mini"] /\
    Instances.groupModels [Samples.e2; MoreSamples.eTen; MoreSamples.eTwo]
      = ["gpt-5-mini"; "10"; "2"].
Proof.
eexists. split; [vm_compute; reflexivity|]. repeat split.
Qed.

Lemma row_model_entries_witness :
  exists rows,
    Reports.buildSessionReport MoreSamples.events Samples.options = Ok rows /\
    forall r, In r rows ->
      forall m,
        let esm :=
          filter (fun e => Instances.contributesSession Samples.options e
                           && String.eqb (Instances.sessionKey e) (Reports.sr_sessionId r)
                           && String.eqb (trimmed (model e)) m) MoreSamples.events in
        match Map_get (Reports.sr_models r) m with
        | None => esm = [] \/ m = "__proto__"
        | Some u =>
            m <> "__proto__" /\ esm <> [] /\ mu_usage u = sumUsage esm /\
            isFallback u = Some (existsb fallbackMarked esm)
        end.
Proof.
pose proof (proj2 (proj2 (row_model_entries Samples.options MoreSamples.events))) as Hc.
eexists. split; [reflexivity|]. apply Hc. reflexivity.
Defined.

Lemma row_entries_carry_pricing_witness :
  exists rows,
    Reports.buildDailyReport MoreSamples.events Samples.options = Ok rows /\
    forall r, In r rows ->
      NoDup (Map_keys (Reports.dr_models r)) /\
      forall m u, Map_get (Reports.dr_models r) m = Some u ->
        exists p, Samples.stubPricingSource m = Ok p /\
                  mu_pricingResolution u = Some (pricingResolution p) /\
                  mu_pricingModel u = Some (pricingModel p).
Proof.
pose proof (proj1 (row_entries_carry_pricing Samples.options MoreSamples.events)) as Hc.
eexists. split; [reflexivity|]. apply Hc. reflexivity.
Defined.

(** The fallback marker of [eMarked] sticks to the entry of its model in
    the row of its session and to no other entry. *)
Example sticky_fallback_test :
  exists r1 r2,
    Reports.buildSessionReport MoreSamples.events Samples.options = Ok [r1; r2] /\
    Reports.sr_sessionId r1 = "session-1" /\
    option_map isFallback (Map_get (Reports.sr_models r1) "gpt-5") = Some (Some true) /\
    option_map isFallback (Map_get (Reports.sr_models r1) "gpt-5-mini")
      = Some (Some false) /\
    option_map isFallback (Map_get (Reports.sr_models r2) "gpt-5") = Some (Some false).
Proof.
do 2 eexists. split; [vm_compute; reflexivity|]. repeat split.
Qed.

(** * The commands *)

Section CommandProps.
Context {F : Type} `{Number F} `{Host}.
Import Reports Instances CommandFlow.

Lemma keys_nil_values {S : Type} (summaries : JsMap S) :
  Map_keys summaries = [] <-> Map_values summaries = [].
Proof. destruct summaries; simpl; split; congruence. Qed.

Lemma sorted_rows_nil {S R : Type} (f : S -> R) (cmp : S -> S -> Z)
    (summaries : JsMap S) :
  map f (Array_sort cmp (Map_values summaries)) = [] <-> Map_keys summaries = [].
Proof.
rewrite keys_nil_values. split.
- intros Hm. apply map_eq_nil in Hm.
  apply Permutation_nil. rewrite <- Hm. symmetry. apply Array_sort_perm.
- intros ->. reflexivity.
Qed.

Lemma no_keys_iff (keys : list string) (P : string -> Prop) :
  (forall k, In k keys <-> P k) -> (keys = [] <-> forall k, ~ P k).
Proof.
intros Hin. split.
- intros -> k Hk. apply Hin in Hk. exact Hk.
- intros Hn. destruct keys as [|k l]; [reflexivity|].
  exfalso. apply (Hn k), Hin. left. reflexivity.
Qed.

Lemma daily_rows_nil (options : ReportOptions F) (events : list TokenUsageEvent)
    (rows : list (DailyReportRow F)) :
  buildDailyReport events options = Ok rows ->
  (rows = [] <-> forall e, In e events -> contributes options e = false).
Proof.
intros Hb. destruct (daily_report_rows _ _ _ Hb) as (mp & _ & ->).
rewrite sorted_rows_nil.
rewrite (no_keys_iff _ _ (proj2 (daily_keys options events))). split.
- intros Hn e He. destruct (contributes options e) eqn:Ec; [|reflexivity].
  exfalso. apply (Hn (dayKey options e)). eauto.
- intros Hall k (e & He & Hc & _). rewrite (Hall e He) in Hc. discriminate.
Qed.

Lemma session_rows_nil (options : ReportOptions F) (events : list TokenUsageEvent)
    (rows : list (SessionReportRow F)) :
  buildSessionReport events options = Ok rows ->
  (rows = [] <-> forall e, In e events -> contributesSession options e = false).
Proof.
intros Hb. destruct (session_report_rows _ _ _ Hb) as (mp & _ & ->).
rewrite sorted_rows_nil.
rewrite (no_keys_iff _ _ (proj2 (session_keys options events))). split.
- intros Hn e He. destruct (contributesSession options e) eqn:Ec; [|reflexivity].
  exfalso. apply (Hn (sessionKey e)). eauto.
- intros Hall k (e & He & Hc & _). rewrite (Hall e He) in Hc. discriminate.
Qed.

Lemma length_zero_iff {A : Type} (l : list A) : Nat.eqb (List.length l) 0 = true <-> l = [].
Proof. destruct l; simpl; split; congruence. Qed.

(** X15.  How the daily and the session command end.  They report "no
    usage data" exactly when no event was loaded, and "no data for the
    provided filters" exactly when events were loaded, none of them passes
    the test of the loop, and (hence) no pricing was needed.  They render
    rows exactly when some event passes the test and the builder succeeds,
    the rows then being the builder's, not empty, with the totals added up
    over them.  They fail exactly when the builder fails, with its
    error. *)
Theorem command_outcomes (options : ReportOptions F) (events : list TokenUsageEvent) :
  ((dailyCommand events options = NoUsageData <-> events = [])
   /\ (dailyCommand events options = NoDataForFilters <->
       events <> [] /\ forall e, In e events -> contributes options e = false)
   /\ (forall rows totals,
         dailyCommand events options = Rendered rows totals <->
         buildDailyReport events options = Ok rows /\
         totals = Commands.dailyTotals rows /\
         exists e, In e events /\ contributes options e = true)
   /\ (forall msg, dailyCommand events options = Thrown msg <->
                   buildDailyReport events options = Err msg))
  /\ ((sessionCommand events options = NoUsageData <-> events = [])
      /\ (sessionCommand events options = NoDataForFilters <->
          events <> [] /\ forall e, In e events -> contributesSession options e = false)
      /\ (forall rows totals,
            sessionCommand events options = Rendered rows totals <->
            buildSessionReport events options = Ok rows /\
            totals = Commands.sessionTotals rows /\
            exists e, In e events /\ contributesSession options e = true)
      /\ (forall msg, sessionCommand events options = Thrown msg <->
                      buildSessionReport events options = Err msg)).
Proof.
assert (Hex : forall (c : TokenUsageEvent -> bool),
  ~ (forall e, In e events -> c e = false) -> exists e, In e events /\ c e = true).
{ intros c Hn. destruct (existsb c events) eqn:E.
  - apply existsb_exists in E. exact E.
  - exfalso. apply Hn. intros e He. destruct (c e) eqn:Ec; [|reflexivity].
    assert (existsb c events = true) by (apply existsb_exists; eauto). congruence. }
split.
- unfold dailyCommand.
  destruct (Nat.eqb (List.length events) 0) eqn:El.
  { apply length_zero_iff in El. subst events.
    split; [tauto|]. split; [split; [discriminate | tauto]|].
    split; [intros rows totals; split; [discriminate|]|].
    - intros (_ & _ & e & [] & _).
    - intros msg. split; [discriminate|]. simpl. discriminate. }
  assert (Hne : events <> []).
  { intros ->. discriminate El. }
  destruct (buildDailyReport events options) as [rows|msg] eqn:Eb.
  + pose proof (daily_rows_nil _ _ _ Eb) as Hnil.
    destruct (Nat.eqb (List.length rows) 0) eqn:Er.
    * apply length_zero_iff in Er. split; [split; [discriminate | tauto]|].
      split; [split; [intros _; split; [exact Hne | apply Hnil, Er] | reflexivity]|].
      split; [|intros msg; split; discriminate].
      intros rows' totals. split; [discriminate|].
      intros ([= <-] & _ & e & He & Hc).
      rewrite (proj1 Hnil Er e He) in Hc. discriminate.
    * assert (Hr : rows <> []).
      { intros ->. discriminate Er. }
      split; [split; [discriminate | tauto]|].
      split; [split; [discriminate|]|].
      { intros [_ Hall]. exfalso. apply Hr, Hnil, Hall. }
      split; [|intros msg; split; discriminate].
      intros rows' totals. split.
      -- intros [= <- <-]. split; [reflexivity|]. split; [reflexivity|].
         apply Hex. intros Hall. apply Hr, Hnil, Hall.
      -- intros ([= <-] & -> & _). reflexivity.
  + split; [split; [discriminate | tauto]|].
    split; [split; [discriminate|]|].
    { intros [_ Hall].
      assert (Hs : dailySummaries events options = []).
      { rewrite dailySummaries_engine. apply accumulate_none. intros e He.
        unfold classifyDaily. rewrite (Hall e He). reflexivity. }
      unfold buildDailyReport in Eb. rewrite Hs in Eb. discriminate Eb. }
    split; [intros rows totals; split; [discriminate | intros (Hd & _); discriminate]|].
    intros msg'. split; congruence.
- unfold sessionCommand.
  destruct (Nat.eqb (List.length events) 0) eqn:El.
  { apply length_zero_iff in El. subst events.
    split; [tauto|]. split; [split; [discriminate | tauto]|].
    split; [intros rows totals; split; [discriminate|]|].
    - intros (_ & _ & e & [] & _).
    - intros msg. split; [discriminate|]. simpl. discriminate. }
  assert (Hne : events <> []).
  { intros ->. discriminate El. }
  destruct (buildSessionReport events options) as [rows|msg] eqn:Eb.
  + pose proof (session_rows_nil _ _ _ Eb) as Hnil.
    destruct (Nat.eqb (List.length rows) 0) eqn:Er.
    * apply length_zero_iff in Er. split; [split; [discriminate | tauto]|].
      split; [split; [intros _; split; [exact Hne | apply Hnil, Er] | reflexivity]|].
      split; [|intros msg; split; discriminate].
      intros rows' totals. split; [discriminate|].
      intros ([= <-] & _ & e & He & Hc).
      rewrite (proj1 Hnil Er e He) in Hc. discriminate.
    * assert (Hr : rows <> []).
      { intros ->. discriminate Er. }
      split; [split; [discriminate | tauto]|].
      split; [split; [discriminate|]|].
      { intros [_ Hall]. exfalso. apply Hr, Hnil, Hall. }
      split; [|intros msg; split; discriminate].
      intros rows' totals. split.
      -- intros [= <- <-]. split; [reflexivity|]. split; [reflexivity|].
         apply Hex. intros Hall. apply Hr, Hnil, Hall.
      -- intros ([= <-] & -> & _). reflexivity.
  + split; [split; [discriminate | tauto]|].
    split; [split; [discriminate|]|].
    { intros [_ Hall].
      assert (Hs : sessionSummaries events options = []).
      { rewrite sessionSummaries_engine. apply accumulate_none. intros e He.
        unfold classifySession. rewrite (Hall e He). reflexivity. }
      unfold buildSessionReport in Eb. rewrite Hs in Eb. discriminate Eb. }
    split; [intros rows totals; split; [discriminate | intros (Hd & _); discriminate]|].
    intros msg'. split; congruence.
Qed.

End CommandProps.

Lemma command_outcomes_witness :
  CommandFlow.dailyCommand [Samples.eBlank; Samples.eLate] Samples.options
    = CommandFlow.NoDataForFilters.
Proof.
apply (proj1 (proj2 (proj1 (command_outcomes Samples.options
                              [Samples.eBlank; Samples.eLate])))).
split; [discriminate|]. intros e [<-|[<-|[]]]; reflexivity.
Defined.
